(** * Agentic Studio Pro: the closed-loop orchestrator, its validator and
      its completion client

    A shallow embedding of
    - [services/compilationService.ts] (the static validator),
    - [services/geminiService.ts] (the completion client, its retry loop and
      its stream reader),
    - [services/agentPrompts.ts] ([parseAgentResponse]),
    - the closed-loop [services/agentOrchestrator.ts] ([AgentOrchestrator]),
    - the same class before the closed loop, and the steps of the demo of
      [services/simulationService.ts].

    Conventions.  A JavaScript string is a [string] holding the UTF-8 bytes
    of its text: on ASCII text a character is a code unit, and on other text
    lengths and positions count bytes.  White space (the class [\s], and
    what [trim] removes) is the white space of ECMAScript, recognised on the
    encoded text; the class [\w] is the ASCII one, as it is in a regular
    expression without the flag [u]; the case conversions are the ASCII
    ones, and the code applies them to match ASCII patterns only.
    JavaScript numbers that the code uses as integers are [Z].  A thrown
    [Error] is its message.  Random identifiers and the timestamps of log
    entries are not part of an event; the clock that stamps [lastModified] is
    an input of the run. *)

From Stdlib Require Import String Ascii List ZArith Bool Lia Arith.
From Stdlib Require Import DecimalString.
Import ListNotations.
Open Scope string_scope.
Open Scope list_scope.

(* ================================================================= *)
(** ** JavaScript string built-ins used by the code *)

Module Js.

Definition nl : string := String (ascii_of_nat 10) EmptyString.
Definition dq : string := String (ascii_of_nat 34) EmptyString.

(** [s.startsWith(pat)] *)
Fixpoint startsWith (s pat : string) : bool :=
  match pat, s with
  | EmptyString, _ => true
  | String _ _, EmptyString => false
  | String p pat', String c s' => Ascii.eqb p c && startsWith s' pat'
  end.

(** Position of the leftmost occurrence of [pat] in [s], counted from [i]. *)
Fixpoint indexFrom (i : nat) (s pat : string) : option nat :=
  if startsWith s pat then Some i
  else match s with
       | EmptyString => None
       | String _ s' => indexFrom (S i) s' pat
       end.

(** [s.indexOf(pat)]: -1 when [pat] does not occur. *)
Definition indexOf (s pat : string) : Z :=
  match indexFrom 0 s pat with
  | Some i => Z.of_nat i
  | None => (-1)%Z
  end.

(** [s.includes(pat)] *)
Definition includes (s pat : string) : bool :=
  match indexFrom 0 s pat with
  | Some _ => true
  | None => false
  end.

(** Position of the rightmost occurrence, scanning as [indexFrom] does. *)
Fixpoint lastIndexFrom (i : nat) (s pat : string) : option nat :=
  match s with
  | EmptyString => if startsWith s pat then Some i else None
  | String _ s' =>
      match lastIndexFrom (S i) s' pat with
      | Some j => Some j
      | None => if startsWith s pat then Some i else None
      end
  end.

(** [s.lastIndexOf(pat)] *)
Definition lastIndexOf (s pat : string) : Z :=
  match lastIndexFrom 0 s pat with
  | Some i => Z.of_nat i
  | None => (-1)%Z
  end.

(** [s.split(sep)] for a one-character separator: the pieces between the
    separators, the last piece included even when empty. *)
Fixpoint splitChar (sep : ascii) (s : string) : list string :=
  match s with
  | EmptyString => [EmptyString]
  | String c s' =>
      if Ascii.eqb c sep then EmptyString :: splitChar sep s'
      else match splitChar sep s' with
           | [] => [String c EmptyString]
           | piece :: rest => String c piece :: rest
           end
  end.

Definition lines (s : string) : list string := splitChar (ascii_of_nat 10) s.

(** [pieces.join(sep)] *)
Fixpoint join (sep : string) (pieces : list string) : string :=
  match pieces with
  | [] => EmptyString
  | [p] => p
  | p :: rest => p ++ sep ++ join sep rest
  end.

(** [c.repeat(n)] for a one-character string. *)
Fixpoint repeatChar (c : ascii) (n : nat) : string :=
  match n with
  | O => EmptyString
  | S n' => String c (repeatChar c n')
  end.

(** [s.slice(0, n)] *)
Fixpoint take (n : nat) (s : string) : string :=
  match n, s with
  | O, _ => EmptyString
  | _, EmptyString => EmptyString
  | S n', String c s' => String c (take n' s')
  end.

Definition isUpper (c : ascii) : bool :=
  let n := nat_of_ascii c in ((65 <=? n) && (n <=? 90))%nat.
Definition isLower (c : ascii) : bool :=
  let n := nat_of_ascii c in ((97 <=? n) && (n <=? 122))%nat.
Definition isDigit (c : ascii) : bool :=
  let n := nat_of_ascii c in ((48 <=? n) && (n <=? 57))%nat.

(** The class [\w] of a regular expression. *)
Definition isWord (c : ascii) : bool :=
  isUpper c || isLower c || isDigit c || Ascii.eqb c "_"%char.

(** The class [\s], which is also what [trim] removes: the WhiteSpace and
    the LineTerminator characters of ECMAScript, on the UTF-8 encoding of a
    text.  Six of them are one byte: tab, line feed, vertical tab, form
    feed, carriage return, space. *)
Definition isSpace (c : ascii) : bool :=
  let n := nat_of_ascii c in
  (((9 <=? n) && (n <=? 13)) || (n =? 32))%nat.

(** One is two bytes: U+00A0 (C2 A0). *)
Definition isSpace2 (a b : ascii) : bool :=
  ((nat_of_ascii a =? 194) && (nat_of_ascii b =? 160))%nat.

(** The others are three bytes: U+1680 (E1 9A 80); U+2000 to U+200A,
    U+2028, U+2029 and U+202F (E2 80 80 to 8A, A8, A9, AF); U+205F
    (E2 81 9F); U+3000 (E3 80 80); U+FEFF (EF BB BF). *)
Definition isSpace3 (a b c : ascii) : bool :=
  let x := nat_of_ascii a in
  let y := nat_of_ascii b in
  let z := nat_of_ascii c in
  (((x =? 225) && (y =? 154) && (z =? 128)) ||
   ((x =? 226) && (y =? 128) &&
    (((128 <=? z) && (z <=? 138)) || (z =? 168) || (z =? 169) || (z =? 175))) ||
   ((x =? 226) && (y =? 129) && (z =? 159)) ||
   ((x =? 227) && (y =? 128) && (z =? 128)) ||
   ((x =? 239) && (y =? 187) && (z =? 191)))%nat.

Definition lowerChar (c : ascii) : ascii :=
  if isUpper c then ascii_of_nat (nat_of_ascii c + 32) else c.
Definition upperChar (c : ascii) : ascii :=
  if isLower c then ascii_of_nat (nat_of_ascii c - 32) else c.

Fixpoint mapChars (f : ascii -> ascii) (s : string) : string :=
  match s with
  | EmptyString => EmptyString
  | String c s' => String (f c) (mapChars f s')
  end.

(** [s.toLowerCase()], [s.toUpperCase()] (on the ASCII letters). *)
Definition toLowerCase : string -> string := mapChars lowerChar.
Definition toUpperCase : string -> string := mapChars upperChar.

(** A byte that continues a character of more than one byte. *)
Definition isContinuation (c : ascii) : bool :=
  let n := nat_of_ascii c in ((128 <=? n) && (n <=? 191))%nat.

(** [s.trimStart()], which is also what a greedy [\s*] skips: the white
    space characters at the start of [s], one after the other. *)
Fixpoint trimStart (s : string) : string :=
  match s with
  | EmptyString => EmptyString
  | String a s1 =>
      if isSpace a then trimStart s1
      else
        match s1 with
        | EmptyString => s
        | String b s2 =>
            if isSpace2 a b then trimStart s2
            else
              match s2 with
              | EmptyString => s
              | String c s3 => if isSpace3 a b c then trimStart s3 else s
              end
        end
  end.

(** [s] is made of white space only: [s.trim() === '']. *)
Definition isBlank (s : string) : bool :=
  match trimStart s with
  | EmptyString => true
  | String _ _ => false
  end.

(** [s.trimEnd()]: [s] up to the point from which only white space
    follows. *)
Fixpoint trimEnd (s : string) : string :=
  match s with
  | EmptyString => EmptyString
  | String c s' => if isBlank s then EmptyString else String c (trimEnd s')
  end.

(** [s.trim()] *)
Definition trim (s : string) : string := trimEnd (trimStart s).

(** Number of occurrences of the character [c]:
    [(s.match(/c/g) || []).length]. *)
Fixpoint countChar (c : ascii) (s : string) : nat :=
  match s with
  | EmptyString => 0
  | String d s' => (if Ascii.eqb d c then 1 else 0) + countChar c s'
  end.

(** A string is truthy when it is not empty. *)
Definition truthy (s : string) : bool :=
  match s with
  | EmptyString => false
  | String _ _ => true
  end.

(** [String(n)] for an integer. *)
Definition ofZ (z : Z) : string := NilZero.string_of_int (Z.to_int z).

(** Longest prefix of characters of a class, and what follows it. *)
Fixpoint spanChars (p : ascii -> bool) (s : string) : string * string :=
  match s with
  | EmptyString => (EmptyString, EmptyString)
  | String c s' =>
      if p c then let '(a, b) := spanChars p s' in (String c a, b)
      else (EmptyString, s)
  end.

(** [s.slice(n)] *)
Fixpoint drop (n : nat) (s : string) : string :=
  match n, s with
  | O, _ => s
  | _, EmptyString => EmptyString
  | S n', String _ s' => drop n' s'
  end.

(** The replacement text of [s.replace(pattern, replacement)] for a string
    pattern (GetSubstitution with no capture groups): [$$] is a dollar,
    [$&] the matched text, [$`] the text before the match, [$'] the text after
    it; any other dollar stands for itself. *)
Fixpoint substitution (matched before after replacement : string) : string :=
  match replacement with
  | EmptyString => EmptyString
  | String c rest =>
      if Ascii.eqb c "$"%char then
        match rest with
        | String d rest' =>
            if Ascii.eqb d "$"%char then
              String "$"%char (substitution matched before after rest')
            else if Ascii.eqb d "&"%char then
              matched ++ substitution matched before after rest'
            else if Ascii.eqb d "`"%char then
              before ++ substitution matched before after rest'
            else if Ascii.eqb d "'"%char then
              after ++ substitution matched before after rest'
            else String c (substitution matched before after rest)
        | EmptyString => String c EmptyString
        end
      else String c (substitution matched before after rest)
  end.

(** [s.replace(pattern, replacement)] with a string pattern: the leftmost
    occurrence only, and [s] itself when there is none. *)
Definition replace (s pattern replacement : string) : string :=
  match indexFrom 0 s pattern with
  | None => s
  | Some i =>
      let before := take i s in
      let after := drop (i + String.length pattern) s in
      before ++ substitution pattern before after replacement ++ after
  end.

(** [s.endsWith(suffix)] *)
Fixpoint endsWith (s suffix : string) : bool :=
  String.eqb s suffix ||
  match s with
  | EmptyString => false
  | String _ s' => endsWith s' suffix
  end.

End Js.

(* ================================================================= *)
(** ** [types.ts] *)

Module Types.

Inductive AgentPhase :=
  IDLE | PLANNING | DESIGNING | ARCHITECTING | CODING | PATCHING | READY.

Inductive LogType := info | success | error | system.

(** [LogEntry], without its random [id] and its wall-clock [timestamp]. *)
Record LogEntry := mkLog {
  agent : string;
  message : string;
  log_type : LogType;
  codeBlock : option string
}.

Inductive ErrorType := ErrSyntax | ErrType | ErrImport | ErrRuntime.

(** The string a value of the union ['syntax' | 'type' | 'import' | 'runtime']
    is at run time. *)
Definition typeName (t : ErrorType) : string :=
  match t with
  | ErrSyntax => "syntax"
  | ErrType => "type"
  | ErrImport => "import"
  | ErrRuntime => "runtime"
  end.

(** One entry of [CompilationResult.errors]. *)
Record Diagnostic := mkDiag {
  e_file : string;
  e_line : Z;
  e_column : Z;
  e_message : string;
  e_type : ErrorType
}.

Record CompilationResult := mkResult {
  r_success : bool;
  r_stdout : string;
  r_stderr : string;
  exit_code : Z;
  errors : option (list Diagnostic)
}.

Inductive FileType := file | directory.

(** One entry of [ProjectState.file_system]. *)
Record FileEntry := mkFile {
  path : string;
  content : option string;
  f_type : FileType;
  lastModified : option string
}.

(** One entry of [ProjectState.terminal_logs]. *)
Record TerminalLog := mkTerminalLog {
  t_stdout : list string;
  t_stderr : list string;
  t_exit_code : Z;
  t_timestamp : string
}.

Record Plan := mkPlan {
  features : option (list string);
  dataModels : option (list string);
  technicalRequirements : option (list string)
}.

Record Typography := mkTypography {
  heading : string;
  body : string;
  code : string
}.

Record DesignSystem := mkDesign {
  colorPalette : list (string * string);
  typography : Typography;
  spacing : list (string * string);
  theme : string
}.

(** [ProjectState]; the random [id] and the legacy [logs] are left out, the
    other legacy fields are carried along unchanged. *)
Record ProjectState := mkState {
  name : string;
  description : string;
  status : AgentPhase;
  user_prompt : string;
  plan : option Plan;
  design_system : option DesignSystem;
  file_system : list FileEntry;
  terminal_logs : list TerminalLog;
  iteration_count : Z;
  max_iterations : Z;
  files : list string;
  dependencies : list string;
  generatedCode : bool
}.

Definition set_status (p : AgentPhase) (s : ProjectState) : ProjectState :=
  mkState (name s) (description s) p (user_prompt s) (plan s)
    (design_system s) (file_system s) (terminal_logs s) (iteration_count s)
    (max_iterations s) (files s) (dependencies s) (generatedCode s).

Definition set_user_prompt (u : string) (s : ProjectState) : ProjectState :=
  mkState (name s) (description s) (status s) u (plan s)
    (design_system s) (file_system s) (terminal_logs s) (iteration_count s)
    (max_iterations s) (files s) (dependencies s) (generatedCode s).

Definition set_plan (p : Plan) (s : ProjectState) : ProjectState :=
  mkState (name s) (description s) (status s) (user_prompt s) (Some p)
    (design_system s) (file_system s) (terminal_logs s) (iteration_count s)
    (max_iterations s) (files s) (dependencies s) (generatedCode s).

Definition set_design_system (d : DesignSystem) (s : ProjectState)
  : ProjectState :=
  mkState (name s) (description s) (status s) (user_prompt s) (plan s)
    (Some d) (file_system s) (terminal_logs s) (iteration_count s)
    (max_iterations s) (files s) (dependencies s) (generatedCode s).

Definition set_file_system (fs : list FileEntry) (s : ProjectState)
  : ProjectState :=
  mkState (name s) (description s) (status s) (user_prompt s) (plan s)
    (design_system s) fs (terminal_logs s) (iteration_count s)
    (max_iterations s) (files s) (dependencies s) (generatedCode s).

Definition set_terminal_logs (l : list TerminalLog) (s : ProjectState)
  : ProjectState :=
  mkState (name s) (description s) (status s) (user_prompt s) (plan s)
    (design_system s) (file_system s) l (iteration_count s)
    (max_iterations s) (files s) (dependencies s) (generatedCode s).

Definition set_iteration_count (n : Z) (s : ProjectState) : ProjectState :=
  mkState (name s) (description s) (status s) (user_prompt s) (plan s)
    (design_system s) (file_system s) (terminal_logs s) n
    (max_iterations s) (files s) (dependencies s) (generatedCode s).

Definition set_generatedCode (b : bool) (s : ProjectState) : ProjectState :=
  mkState (name s) (description s) (status s) (user_prompt s) (plan s)
    (design_system s) (file_system s) (terminal_logs s) (iteration_count s)
    (max_iterations s) (files s) (dependencies s) b.

End Types.

(* ================================================================= *)
(** ** [services/compilationService.ts] *)

Module CompilationService.
Import Types.

(** [/\.(tsx?|jsx?)$/] on a path: it ends in .ts, .tsx, .js or .jsx. *)
Definition isCodePath (p : string) : bool :=
  Js.endsWith p ".ts" || Js.endsWith p ".tsx" ||
  Js.endsWith p ".js" || Js.endsWith p ".jsx".

(** [/^\w+:\s*\w+\s*$/] on a string: a word, a colon, optional blanks, a
    word, optional blanks, the end.  The classes are disjoint from the
    characters that follow them, so the greedy match is the only one. *)
Definition matchesFieldLine (t : string) : bool :=
  let '(w1, r1) := Js.spanChars Js.isWord t in
  match r1 with
  | String c r2 =>
      Js.truthy w1 && Ascii.eqb c ":"%char &&
      (let r3 := Js.trimStart r2 in
       let '(w2, r4) := Js.spanChars Js.isWord r3 in
       let r5 := Js.trimStart r4 in
       Js.truthy w2 && negb (Js.truthy r5))
  | EmptyString => false
  end.

Definition lazyPatterns : list string :=
  [ "// ... rest of code";
    "// TODO:";
    "// Implement later";
    "// Add more";
    "Lorem ipsum";
    "Sample Product 1" ].

Definition lineChartMessage : string :=
  "Module " ++ Js.dq ++ "recharts" ++ Js.dq ++
  " has no exported member 'LineChart'. Did you mean 'Line'?".

Definition placeholderMessage (pattern : string) : string :=
  "Forbidden placeholder detected: " ++ Js.dq ++ pattern ++ Js.dq ++
  ". All code must be complete and functional.".

(** The import checks of [analyzeFile] on one line. *)
Definition importErrors (filePath : string) (lineNumber : Z) (line : string)
  : list Diagnostic :=
  if Js.includes line "import" && Js.includes line "from" then
    (if Js.includes line "recharts" && Js.includes line "LineChart"
     then [mkDiag filePath lineNumber (Js.indexOf line "LineChart")
             lineChartMessage ErrImport]
     else []) ++
    (if Js.includes line "// Import" || Js.includes line "TODO"
     then [mkDiag filePath lineNumber 0
             "Placeholder import detected. Code must be complete." ErrSyntax]
     else [])
  else [].

(** [lazyPatterns.forEach(...)] on one line. *)
Definition lazyErrors (filePath : string) (lineNumber : Z) (line : string)
  : list Diagnostic :=
  flat_map
    (fun pattern =>
       if Js.includes line pattern
       then [mkDiag filePath lineNumber (Js.indexOf line pattern)
               (placeholderMessage pattern) ErrSyntax]
       else [])
    lazyPatterns.

(** The unmatched-brace check on one line. *)
Definition braceErrors (filePath : string) (lineNumber : Z) (line : string)
  : list Diagnostic :=
  let openBraces := Js.countChar "{"%char line in
  let closeBraces := Js.countChar "}"%char line in
  if negb (openBraces =? closeBraces)%nat && (openBraces <? closeBraces)%nat
  then [mkDiag filePath lineNumber (Js.lastIndexOf line "}")
          "Unexpected token '}'" ErrSyntax]
  else [].

(** The missing-semicolon check on one line. *)
Definition semicolonErrors (filePath : string) (lineNumber : Z)
  (line : string) : list Diagnostic :=
  if matchesFieldLine (Js.trim line) && negb (Js.includes line ";")
     && negb (Js.includes line "{")
  then [mkDiag filePath lineNumber (Z.of_nat (String.length line))
          "Missing semicolon in interface definition" ErrSyntax]
  else [].

(** The body of [lines.forEach((line, index) => ...)]. *)
Definition analyzeLine (filePath : string) (index : nat) (line : string)
  : list Diagnostic :=
  let lineNumber := (Z.of_nat index + 1)%Z in
  importErrors filePath lineNumber line ++
  lazyErrors filePath lineNumber line ++
  braceErrors filePath lineNumber line ++
  semicolonErrors filePath lineNumber line.

Fixpoint analyzeLines (filePath : string) (index : nat) (ls : list string)
  : list Diagnostic :=
  match ls with
  | [] => []
  | l :: rest =>
      analyzeLine filePath index l ++ analyzeLines filePath (S index) rest
  end.

Definition analyzeFile (filePath content : string) : list Diagnostic :=
  analyzeLines filePath 0 (Js.lines content).

(** The files [staticAnalysis] looks at. *)
Definition analysed (f : FileEntry) : option string :=
  match f_type f, content f with
  | file, Some c => if Js.truthy c && isCodePath (path f) then Some c else None
  | _, _ => None
  end.

Definition staticAnalysis (projectState : ProjectState) : list Diagnostic :=
  flat_map
    (fun f => match analysed f with
              | Some c => analyzeFile (path f) c
              | None => []
              end)
    (file_system projectState).

Definition formatError (e : Diagnostic) : string :=
  Js.nl ++ "ERROR in " ++ e_file e ++ ":" ++ Js.ofZ (e_line e) ++ ":" ++
  Js.ofZ (e_column e) ++ Js.nl ++
  Js.toUpperCase (typeName (e_type e)) ++ " ERROR: " ++ e_message e ++ Js.nl ++
  Js.nl ++
  "  " ++ Js.ofZ (e_line e) ++ " | <source line would go here>" ++ Js.nl ++
  "    " ++ Js.repeatChar " "%char (Z.to_nat (e_column e)) ++ "^" ++ Js.nl.

Definition successStdout : string :=
  Js.join Js.nl
    [ "Build started...";
      "Analyzing dependencies...";
      "✓ TypeScript compilation successful";
      "✓ All components validated";
      "✓ Build completed in 3.2s";
      "Dev server ready at http://localhost:3000" ].

(** What the [try] block of [validateCode] meets: [staticAnalysis] returns
    its diagnostics, or it throws.  It throws only on a state that is not
    of the declared type (an entry of type file without a path, a content
    that is not a string); [message] is then the message of the
    [TypeError]. *)
Inductive Analysis :=
  | Analysed (validationErrors : list Diagnostic)
  | AnalysisThrew (message : string).

(** The three results of [validateCode]: the two of its [try] block, and
    the one of its [catch]. *)
Definition validationResult (a : Analysis) : CompilationResult :=
  match a with
  | Analysed validationErrors =>
      if (0 <? List.length validationErrors)%nat then
        mkResult false
          ("Build started..." ++ Js.nl ++ "Analyzing files...")
          (Js.join Js.nl (map formatError validationErrors))
          1
          (Some validationErrors)
      else
        mkResult true successStdout EmptyString 0 None
  | AnalysisThrew message =>
      mkResult false EmptyString ("Fatal build error: " ++ message) 2
        (Some [mkDiag "build" 0 0 message ErrRuntime])
  end.

(** [validateCode] on a state of the declared type, on which
    [staticAnalysis] returns. *)
Definition validateCode (projectState : ProjectState) : CompilationResult :=
  validationResult (Analysed (staticAnalysis projectState)).

Definition fatalPatterns : list string :=
  [ "ENOSPC"; "ENOMEM"; "permission denied"; "cannot find module '@/" ].

Definition isRecoverableError (result : CompilationResult) : bool :=
  if r_success result then false
  else negb (existsb
               (fun pattern =>
                  Js.includes (Js.toLowerCase (r_stderr result))
                    (Js.toLowerCase pattern))
               fatalPatterns).

End CompilationService.

(* ================================================================= *)
(** ** [JSON.parse]

    The grammar of ECMA-404, which [JSON.parse] accepts: a value is read by
    recursive descent; a number keeps its lexeme, a string is decoded (an
    escape [\uXXXX] to the UTF-8 bytes of that code point), an object keeps
    its members in the order of the text.  The fuel bounds the nesting and is
    the length of the text. *)

Module Json.

#[warnings="-register-all"]
Inductive value :=
  | JNull
  | JBool (b : bool)
  | JNumber (lexeme : string)
  | JString (s : string)
  | JArray (items : list value)
  | JObject (members : list (string * value)).

(** JSON white space: tab, line feed, carriage return, space. *)
Definition isWs (c : ascii) : bool :=
  let n := nat_of_ascii c in
  ((n =? 9) || (n =? 10) || (n =? 13) || (n =? 32))%nat.

Fixpoint skipWs (s : string) : string :=
  match s with
  | String c s' => if isWs c then skipWs s' else s
  | EmptyString => EmptyString
  end.

Definition hexDigit (c : ascii) : option nat :=
  let n := nat_of_ascii c in
  if Js.isDigit c then Some (n - 48)
  else if ((97 <=? n) && (n <=? 102))%nat then Some (n - 87)
  else if ((65 <=? n) && (n <=? 70))%nat then Some (n - 55)
  else None.

(** UTF-8 bytes of a code point below 65536. *)
Definition utf8 (n : nat) : string :=
  if (n <? 128)%nat then String (ascii_of_nat n) EmptyString
  else if (n <? 2048)%nat then
    String (ascii_of_nat (192 + n / 64))
      (String (ascii_of_nat (128 + n mod 64)) EmptyString)
  else
    String (ascii_of_nat (224 + n / 4096))
      (String (ascii_of_nat (128 + (n / 64) mod 64))
         (String (ascii_of_nat (128 + n mod 64)) EmptyString)).

(** The characters of a string literal after its opening quote; returns the
    decoded string and what follows the closing quote. *)
Fixpoint parseChars (s : string) : option (string * string) :=
  match s with
  | EmptyString => None
  | String c s' =>
      if Ascii.eqb c (ascii_of_nat 34) then Some (EmptyString, s')
      else if Ascii.eqb c (ascii_of_nat 92) then
        match s' with
        | String e s'' =>
            let plain (d : ascii) :=
              match parseChars s'' with
              | Some (t, r) => Some (String d t, r)
              | None => None
              end in
            if Ascii.eqb e (ascii_of_nat 34) then plain (ascii_of_nat 34)
            else if Ascii.eqb e (ascii_of_nat 92) then plain (ascii_of_nat 92)
            else if Ascii.eqb e "/"%char then plain "/"%char
            else if Ascii.eqb e "b"%char then plain (ascii_of_nat 8)
            else if Ascii.eqb e "f"%char then plain (ascii_of_nat 12)
            else if Ascii.eqb e "n"%char then plain (ascii_of_nat 10)
            else if Ascii.eqb e "r"%char then plain (ascii_of_nat 13)
            else if Ascii.eqb e "t"%char then plain (ascii_of_nat 9)
            else if Ascii.eqb e "u"%char then
              match s'' with
              | String h1 (String h2 (String h3 (String h4 s4))) =>
                  match hexDigit h1, hexDigit h2, hexDigit h3, hexDigit h4 with
                  | Some a, Some b, Some c', Some d =>
                      match parseChars s4 with
                      | Some (t, r) =>
                          Some ((utf8 (((a * 16 + b) * 16 + c') * 16 + d)%nat ++ t)%string, r)
                      | None => None
                      end
                  | _, _, _, _ => None
                  end
              | _ => None
              end
            else None
        | EmptyString => None
        end
      else if (nat_of_ascii c <? 32)%nat then None
      else match parseChars s' with
           | Some (t, r) => Some (String c t, r)
           | None => None
           end
  end.

(** One or more digits. *)
Definition digits1 (s : string) : option (string * string) :=
  let '(d, r) := Js.spanChars Js.isDigit s in
  if Js.truthy d then Some (d, r) else None.

(** A number: an optional minus, then 0 or a non-zero digit followed by
    digits, then optionally a point and digits, then optionally an exponent
    (e or E, an optional sign, digits). *)
Definition parseNumber (s : string) : option (string * string) :=
  let '(sign, s1) :=
    match s with
    | String c r => if Ascii.eqb c "-"%char then ("-", r) else (EmptyString, s)
    | EmptyString => (EmptyString, s)
    end in
  let int :=
    match s1 with
    | String c r =>
        if Ascii.eqb c "0"%char then Some ("0", r) else digits1 s1
    | EmptyString => None
    end in
  match int with
  | None => None
  | Some (i, s2) =>
      let frac :=
        match s2 with
        | String c r =>
            if Ascii.eqb c "."%char then
              match digits1 r with
              | Some (d, r') => Some (("." ++ d)%string, r')
              | None => None
              end
            else Some (EmptyString, s2)
        | EmptyString => Some (EmptyString, s2)
        end in
      match frac with
      | None => None
      | Some (f, s3) =>
          let exp :=
            match s3 with
            | String c r =>
                if Ascii.eqb c "e"%char || Ascii.eqb c "E"%char then
                  let '(sg, r1) :=
                    match r with
                    | String g r' =>
                        if Ascii.eqb g "+"%char || Ascii.eqb g "-"%char
                        then (String g EmptyString, r') else (EmptyString, r)
                    | EmptyString => (EmptyString, r)
                    end in
                  match digits1 r1 with
                  | Some (d, r2) => Some ((String c sg ++ d)%string, r2)
                  | None => None
                  end
                else Some (EmptyString, s3)
            | EmptyString => Some (EmptyString, s3)
            end in
          match exp with
          | None => None
          | Some (e, s4) => Some ((sign ++ i ++ f ++ e)%string, s4)
          end
      end
  end.

Definition expect (lit : string) (v : value) (s : string)
  : option (value * string) :=
  if Js.startsWith s lit then Some (v, Js.drop (String.length lit) s)
  else None.

(** [parseValue] reads a value after optional white space; [parseItems]
    the rest of an array after its first item, [parseMembers] the members of
    an object from a key on. *)
Fixpoint parseValue (fuel : nat) (s : string) : option (value * string) :=
  match fuel with
  | O => None
  | S fuel' =>
      let parseMember (s0 : string) : option ((string * value) * string) :=
        match skipWs s0 with
        | String q r =>
            if Ascii.eqb q (ascii_of_nat 34) then
              match parseChars r with
              | Some (k, r1) =>
                  match skipWs r1 with
                  | String c r2 =>
                      if Ascii.eqb c ":"%char then
                        match parseValue fuel' r2 with
                        | Some (v, r3) => Some ((k, v), skipWs r3)
                        | None => None
                        end
                      else None
                  | EmptyString => None
                  end
              | None => None
              end
            else None
        | EmptyString => None
        end in
      let fix parseItems (n : nat) (acc : list value) (s0 : string)
        : option (value * string) :=
        match n with
        | O => None
        | S n' =>
            match s0 with
            | String c r =>
                if Ascii.eqb c "]"%char then Some (JArray (rev acc), r)
                else if Ascii.eqb c ","%char then
                  match parseValue fuel' r with
                  | Some (v, r1) => parseItems n' (v :: acc) (skipWs r1)
                  | None => None
                  end
                else None
            | EmptyString => None
            end
        end in
      let fix parseMembers (n : nat) (acc : list (string * value))
        (s0 : string) : option (value * string) :=
        match n with
        | O => None
        | S n' =>
            match s0 with
            | String c r =>
                if Ascii.eqb c "}"%char then Some (JObject (rev acc), r)
                else if Ascii.eqb c ","%char then
                  match parseMember r with
                  | Some (m, r1) => parseMembers n' (m :: acc) r1
                  | None => None
                  end
                else None
            | EmptyString => None
            end
        end in
      match skipWs s with
      | EmptyString => None
      | String c r =>
          if Ascii.eqb c "n"%char then expect "null" JNull (String c r)
          else if Ascii.eqb c "t"%char then expect "true" (JBool true) (String c r)
          else if Ascii.eqb c "f"%char then
            expect "false" (JBool false) (String c r)
          else if Ascii.eqb c (ascii_of_nat 34) then
            match parseChars r with
            | Some (t, r1) => Some (JString t, r1)
            | None => None
            end
          else if Ascii.eqb c "["%char then
            match skipWs r with
            | String d r1 =>
                if Ascii.eqb d "]"%char then Some (JArray [], r1)
                else
                  match parseValue fuel' r with
                  | Some (v, r2) =>
                      parseItems (String.length r2 + 1) [v] (skipWs r2)
                  | None => None
                  end
            | EmptyString => None
            end
          else if Ascii.eqb c "{"%char then
            match skipWs r with
            | String d r1 =>
                if Ascii.eqb d "}"%char then Some (JObject [], r1)
                else
                  match parseMember r with
                  | Some (m, r2) =>
                      parseMembers (String.length r2 + 1) [m] r2
                  | None => None
                  end
            | EmptyString => None
            end
          else
            match parseNumber (String c r) with
            | Some (l, r1) => Some (JNumber l, r1)
            | None => None
            end
      end
  end.

(** [JSON.parse(text)]: [None] stands for the thrown [SyntaxError]. *)
Definition parse (text : string) : option value :=
  match parseValue (String.length text + 1) text with
  | Some (v, r) =>
      match skipWs r with
      | EmptyString => Some v
      | String _ _ => None
      end
  | None => None
  end.

(** [obj.key] on a parsed value: the last member with that key, [None] for
    [undefined]. *)
Fixpoint lookup (key : string) (members : list (string * value))
  : option value :=
  match members with
  | [] => None
  | (k, v) :: rest =>
      match lookup key rest with
      | Some v' => Some v'
      | None => if String.eqb k key then Some v else None
      end
  end.

Definition get (key : string) (v : value) : option value :=
  match v with
  | JObject members => lookup key members
  | _ => None
  end.

End Json.

(* ================================================================= *)
(** ** [services/agentPrompts.ts]: [parseAgentResponse] *)

Module AgentPrompts.
Import Types.

Definition fenceOpen : string := "```json".
Definition fenceClose : string := "```".

(** Capture group 1 of [rawResponse.match(/```json\s*([\s\S]*?)\s*```/)],
    [None] when there is no match.

    The match starts at the leftmost [```json]: the blanks after it are
    skipped greedily, the group is lazy, so it runs up to the first [```]
    that follows, less the blanks before that fence.  A closing fence cannot
    lie inside the skipped blanks, and a later [```json] is itself a closing
    fence for the first one, so there is a match exactly when a [```] follows
    the leftmost opening fence. *)
Definition jsonMatch (rawResponse : string) : option string :=
  match Js.indexFrom 0 rawResponse fenceOpen with
  | None => None
  | Some i =>
      let rest := Js.trimStart (Js.drop (i + String.length fenceOpen) rawResponse) in
      match Js.indexFrom 0 rest fenceClose with
      | None => None
      | Some j => Some (Js.trimEnd (Js.take j rest))
      end
  end.

(** What [parseAgentResponse] returns: a value [JSON.parse] produced, or the
    object literal [{ thought, output, raw }] of the last branch. *)
Inductive ParseResult (J : Type) :=
  | Structured (v : J)
  | Unstructured (thought output : string) (raw : bool).
Arguments Structured {J} v.
Arguments Unstructured {J} thought output raw.

Section Parse.
(** [JSON.parse] of the runtime; [None] is a thrown [SyntaxError]. *)
Context {J : Type} (JSON_parse : string -> option J).

Definition parseAgentResponse (rawResponse : string) (phase : AgentPhase)
  : ParseResult J :=
  let fenced :=
    match jsonMatch rawResponse with
    | Some body => JSON_parse body
    | None => None
    end in
  match fenced with
  | Some v => Structured v
  | None =>
      match JSON_parse rawResponse with
      | Some v => Structured v
      | None =>
          Unstructured "Extracted from unstructured response" rawResponse true
      end
  end.
End Parse.

End AgentPrompts.

(* ================================================================= *)
(** ** [services/geminiService.ts] *)

Module GeminiService.

Record RetryConfig := mkRetryConfig {
  maxRetries : nat;
  initialDelay : Z;
  maxDelay : Z
}.

Definition retryConfig : RetryConfig := mkRetryConfig 3 1000 10000.

(** A thrown value: an [Error] with its message, or something else. *)
Inductive Thrown :=
  | ErrorObject (message : string)
  | OtherValue.

(** The JSON body of a reply whose status is not ok, as far as
    [formatErrorMessage] reads it: [error.error?.message] and
    [error.message]. *)
Record ErrorBody := mkErrorBody {
  error_message : option string;
  top_message : option string
}.

(** What one request (one call of the function given to [retryWithBackoff])
    meets: [fetch] or [response.json()] throws; the reply has a status that is
    not ok; or the reply is ok and
    [data.candidates?.[0]?.content?.parts?.[0]?.text || ''] is [text]. *)
Inductive HttpReply :=
  | Throws (t : Thrown)
  | ErrorStatus (status : Z) (body : ErrorBody)
  | Reply (text : string).

(** A reply whose status is not ok and whose body is not JSON:
    [response.json()] throws a [SyntaxError] with [message] inside the [try]
    of the request, before [formatErrorMessage] looks at the status. *)
Definition unreadableReply (status : Z) (message : string) : HttpReply :=
  Throws (ErrorObject message).

Definition orElse (a : option string) (b : string) : string :=
  match a with
  | Some s => if Js.truthy s then s else b
  | None => b
  end.

Definition formatErrorMessage (error : ErrorBody) (status : Z) : string :=
  let message :=
    orElse (error_message error) (orElse (top_message error) "Unknown error") in
  if (status =? 400)%Z then "Invalid request: " ++ message
  else if (status =? 401)%Z then
    "Invalid API key. Please check your VITE_GEMINI_API_KEY in .env file."
  else if (status =? 403)%Z then
    "API access forbidden. Please check your API key permissions."
  else if (status =? 429)%Z then
    "Rate limit exceeded. Please try again in a moment."
  else if (status =? 500)%Z || (status =? 503)%Z then
    "Gemini API is temporarily unavailable. Please try again later."
  else "Gemini API error (" ++ Js.ofZ status ++ "): " ++ message.

(** What one call of an asynchronous function does: it returns, or it
    throws. *)
Inductive Outcome (T : Type) :=
  | Returned (v : T)
  | Threw (t : Thrown).
Arguments Returned {T} v.
Arguments Threw {T} t.

(** How [retryWithBackoff] ends: with a value, or with a thrown [Error]
    (what it throws is always an [Error]). *)
Inductive Result (T : Type) :=
  | Resolved (v : T)
  | Rejected (message : string).
Arguments Resolved {T} v.
Arguments Rejected {T} message.

(** The function [sendPrompt] hands to [retryWithBackoff], on one reply.
    The response's [phase] field, which no caller reads, is left out. *)
Definition request (r : HttpReply) : Outcome string :=
  match r with
  | Throws (ErrorObject m) => Threw (ErrorObject m)
  | Throws OtherValue =>
      Threw (ErrorObject
               "Unknown error occurred while communicating with Gemini API")
  | ErrorStatus status body =>
      Threw (ErrorObject (formatErrorMessage body status))
  | Reply text =>
      if Js.truthy text then Returned text
      else Threw (ErrorObject "Empty response from Gemini API")
  end.

(** What a call of [retryWithBackoff] did: the result, the delays it slept
    (in order), and how many times it called [fn]. *)
Record Run (T : Type) := mkRun {
  result : Result T;
  waits : list Z;
  calls : nat
}.
Arguments mkRun {T} result waits calls.
Arguments result {T} r.
Arguments waits {T} r.
Arguments calls {T} r.

Definition isAuthMessage (m : string) : bool :=
  Js.includes m "API key" || Js.includes m "401".

Section Retry.
Context {T : Type} (cfg : RetryConfig).

(** The [for] loop of [retryWithBackoff] from [attempt] on, with [remaining]
    iterations left before [attempt <= maxRetries] fails; [fn k] is what
    the [k]-th call of [fn] does. *)
Fixpoint retryLoop (fn : nat -> Outcome T) (remaining attempt : nat)
  (delay : Z) (lastError : option string) : Run T :=
  match remaining with
  | O =>
      mkRun (Rejected (match lastError with
                       | Some m => m
                       | None => "Retry failed"
                       end)) [] 0
  | S remaining' =>
      match fn attempt with
      | Returned v => mkRun (Resolved v) [] 1
      | Threw t =>
          let m := match t with
                   | ErrorObject m => m
                   | OtherValue => "Unknown error"
                   end in
          if isAuthMessage m then mkRun (Rejected m) [] 1
          else if (attempt =? maxRetries cfg)%nat then
            mkRun (Rejected m) [] 1
          else
            let r := retryLoop fn remaining' (S attempt)
                       (Z.min (delay * 2) (maxDelay cfg)) (Some m) in
            mkRun (result r) (delay :: waits r) (S (calls r))
      end
  end.

Definition retryWithBackoff (fn : nat -> Outcome T) : Run T :=
  retryLoop fn (S (maxRetries cfg)) 0 (initialDelay cfg) None.
End Retry.

Definition apiKeyMissing : string :=
  "Gemini API key not configured. Please add VITE_GEMINI_API_KEY to your .env file.".

(** [sendPrompt] with the key [apiKey], when the [k]-th request it makes is
    answered by [replies k]. *)
Definition sendPrompt (apiKey : option string) (replies : nat -> HttpReply)
  : Run string :=
  match apiKey with
  | Some (String _ _) =>
      retryWithBackoff retryConfig (fun k => request (replies k))
  | _ => mkRun (Rejected apiKeyMissing) [] 0
  end.

Definition isAvailable (apiKey : option string) : bool :=
  match apiKey with
  | Some k => (0 <? String.length k)%nat
  | None => false
  end.

(** ASCII-case-insensitive [startsWith]: a literal of a regular expression
    with the flag [i] at the start of [s]. *)
Definition startsWithNoCase (s literal : string) : bool :=
  Js.startsWith (Js.toLowerCase s) (Js.toLowerCase literal).

(** [\s*(\w+)\]] at the start of [s]: the captured word.  The two classes
    and the bracket are disjoint, so the greedy match is the only one. *)
Definition phaseWord (s : string) : option string :=
  let r1 := Js.trimStart s in
  let '(w, r2) := Js.spanChars Js.isWord r1 in
  match r2 with
  | String c _ =>
      if Js.truthy w && Ascii.eqb c "]"%char then Some w else None
  | EmptyString => None
  end.

(** [text.match(/\[PHASE:\s*(\w+)\]/i)]: the capture of the leftmost
    match. *)
Fixpoint phaseMatch (s : string) : option string :=
  match (if startsWithNoCase s "[PHASE:" then phaseWord (Js.drop 7 s)
         else None) with
  | Some w => Some w
  | None =>
      match s with
      | EmptyString => None
      | String _ s' => phaseMatch s'
      end
  end.

Definition phaseName (p : Types.AgentPhase) : string :=
  match p with
  | Types.IDLE => "IDLE"
  | Types.PLANNING => "PLANNING"
  | Types.DESIGNING => "DESIGNING"
  | Types.ARCHITECTING => "ARCHITECTING"
  | Types.CODING => "CODING"
  | Types.PATCHING => "PATCHING"
  | Types.READY => "READY"
  end.

(** [AgentPhase[key]]: the member of the enum with that name.  The names
    that an object inherits hold lower-case letters, and the key is in upper
    case. *)
Definition phaseNamed (key : string) : option Types.AgentPhase :=
  List.find (fun p => String.eqb (phaseName p) key)
    [Types.IDLE; Types.PLANNING; Types.DESIGNING; Types.ARCHITECTING;
     Types.CODING; Types.PATCHING; Types.READY].

Definition extractPhase (text : string) : option Types.AgentPhase :=
  match phaseMatch text with
  | Some w => phaseNamed (Js.toUpperCase w)
  | None => None
  end.

(** What a call of [streamPrompt] with a key meets: [fetch] or
    [response.json()] throws; the reply has a status that is not ok; the
    reply has no body to read; or the body is read as the decoded [chunks],
    until the reader is done or [reader.read()] throws. *)
Inductive StreamReply :=
  | StreamThrows (t : Thrown)
  | StreamErrorStatus (status : Z) (body : ErrorBody)
  | StreamNoBody
  | StreamBody (chunks : list string) (ending : option Thrown).

(** What the generator did: the values it yielded, and the message of the
    [Error] it threw, if it threw. *)
Record Stream (Y : Type) := mkStream {
  yielded : list Y;
  failed : option string
}.
Arguments mkStream {Y} yielded failed.
Arguments yielded {Y} s.
Arguments failed {Y} s.

Section Streaming.
(** [JSON.parse], and [data.candidates?.[0]?.content?.parts?.[0]?.text] read
    from a parsed line: the value when it is truthy, [None] when it is not
    or when reading it throws. *)
Context {J Y : Type} (JSON_parse : string -> option J) (textOf : J -> option Y).

(** The body of [for (const line of lines)]. *)
Definition lineYield (line : string) : option Y :=
  if Js.truthy (Js.trim line) then
    match JSON_parse line with
    | Some data => textOf data
    | None => None
    end
  else None.

Definition yields (lines : list string) : list Y :=
  flat_map (fun line => match lineYield line with
                        | Some y => [y]
                        | None => []
                        end) lines.

(** The [while (true)] loop over the chunks that are left: each chunk is
    added to the buffer, the buffer is split at the line feeds, the last
    piece is the new buffer and the others are read. *)
Fixpoint readChunks (buffer : string) (chunks : list string) : list Y :=
  match chunks with
  | [] => []
  | value :: rest =>
      let lines := Js.lines (buffer ++ value) in
      yields (removelast lines) ++ readChunks (last lines EmptyString) rest
  end.

Definition streamPrompt (apiKey : option string) (reply : StreamReply)
  : Stream Y :=
  match apiKey with
  | Some (String _ _) =>
      match reply with
      | StreamThrows (ErrorObject m) => mkStream [] (Some m)
      | StreamThrows OtherValue =>
          mkStream [] (Some "Unknown error occurred during streaming")
      | StreamErrorStatus status body =>
          mkStream [] (Some (formatErrorMessage body status))
      | StreamNoBody => mkStream [] (Some "Failed to get response stream")
      | StreamBody chunks ending =>
          mkStream (readChunks EmptyString chunks)
            (match ending with
             | None => None
             | Some (ErrorObject m) => Some m
             | Some OtherValue =>
                 Some "Unknown error occurred during streaming"
             end)
      end
  | _ => mkStream [] (Some apiKeyMissing)
  end.
End Streaming.

End GeminiService.

(* ================================================================= *)
(** ** [services/simulationService.ts] *)

Module SimulationService.
Import Types.

Definition createLog (agent message : string) (type : LogType)
  (codeBlock : option string) : LogEntry :=
  mkLog agent message type codeBlock.

Record Step := mkStep {
  phase : AgentPhase;
  delay : Z;
  log : LogEntry
}.

Definition SIMULATION_STEPS : list Step :=
  [ mkStep PLANNING 500
      (createLog "SYSTEM" "Booting Agentic Studio Pro Environment..." system None);
    mkStep PLANNING 1000
      (createLog "SYSTEM" "Connecting to Gemini 3 Pro (Orchestrator)..." info None);
    mkStep PLANNING 1500
      (createLog "PLANNER"
         ("Ingesting user intent: " ++ Js.dq ++ "AI Research Portfolio" ++ Js.dq ++ ".")
         info None);
    mkStep PLANNING 2500
      (createLog "PLANNER"
         "Defining Logic Layer requirements: Deterministic State." success None);
    mkStep DESIGNING 3500
      (createLog "DESIGNER"
         ("Analyzing semantic vibe: " ++ Js.dq ++ "Command Center" ++ Js.dq ++
          " (Dark/Slate-900).") info None);
    mkStep DESIGNING 4500
      (createLog "DESIGNER"
         "Generated theme.json: Slate/Indigo palette with Inter & JetBrains Mono."
         info None);
    mkStep ARCHITECTING 6000
      (createLog "ARCHITECT" "Initializing WebContainer filesystem..." info None);
    mkStep ARCHITECTING 7000
      (createLog "ARCHITECT" "Scaffolding Next.js 14 App Router structure." success
         (Some (Js.join Js.nl
                  [ "src/"; "  app/"; "    layout.tsx"; "    page.tsx";
                    "  context/"; "    AppContext.tsx"; "  components/";
                    "    Dashboard/"; "      StatsCard.tsx";
                    "      RevenueChart.tsx"; "  lib/"; "    utils.ts" ])));
    mkStep CODING 8500
      (createLog "CODER" "Writing src/lib/mockData.ts (Mock Data Mandate)." info None);
    mkStep CODING 9500
      (createLog "CODER"
         ("Implementing " ++ Js.dq ++ "Functional Brain" ++ Js.dq ++
          " in src/context/AppContext.tsx.") info None);
    mkStep CODING 10500
      (createLog "CODER" "Wiring deterministic reducers for Add/Delete actions."
         success
         (Some (Js.join Js.nl
                  [ "const appReducer = (state, action) => {";
                    "  switch (action.type) {";
                    "    case 'ADD_TRANSACTION':";
                    "      return { ...state, revenue: state.revenue + action.payload };";
                    "    // ... global state sync";
                    "  }";
                    "}" ])));
    mkStep CODING 12000
      (createLog "SYSTEM" "Starting WebContainer build process..." system None);
    mkStep PATCHING 13500
      (createLog "STDERR"
         ("Error: Module " ++ Js.dq ++ "recharts" ++ Js.dq ++
          " has no exported member " ++ Js.dq ++ "LineChart" ++ Js.dq ++ ".")
         error None);
    mkStep PATCHING 14000
      (createLog "PATCHER" "Build Error Detected. Reading stderr stream..." info None);
    mkStep PATCHING 15000
      (createLog "PATCHER"
         "Applying hotfix to RevenueChart.tsx: Fixed named imports." success None);
    mkStep READY 16500
      (createLog "SYSTEM" "Build successful. Dev server listening on port 3000."
         success None);
    mkStep READY 17000
      (createLog "PATCHER" "System Monitor Active: Watching for Runtime Errors."
         system None);
    mkStep READY 17500
      (createLog "SYSTEM" "App available at http://localhost:3000" info None) ].

End SimulationService.

(* ================================================================= *)
(** ** [services/agentOrchestrator.ts]: the closed-loop [AgentOrchestrator] *)

Module Orchestrator.
Import Types SimulationService.

Inductive AgentMode := simulation | ai | hybrid.

(** [AgentWorkflowConfig]: the mode, and whether the optional [onStateUpdate]
    is given.  A call of a callback is an [Event] of the run. *)
Record AgentWorkflowConfig := mkConfig {
  mode : AgentMode;
  hasStateUpdate : bool
}.

Inductive Event :=
  | onLog (l : LogEntry)
  | onPhaseChange (p : AgentPhase)
  | onStateUpdate (s : ProjectState)
  | onComplete
  | onError (message : string).

(** One file of a Coder reply, one fix of a Patcher reply. *)
Record GeneratedFile := mkGenerated {
  g_path : string;
  g_content : option string
}.

Record Fix := mkFix {
  fix_file : string;
  fix_line : string;
  before : string;
  after : string
}.

(** The value [parseAgentResponse] returns, typed [any] in the source, as the
    phases read it.  A field is [None] (or [false]) when the orchestrator's
    test of it fails; [fix_line] is the text that the template literal prints
    for [fix.line].  Replies whose fields have other shapes than the prompts
    prescribe are outside the model. *)
Record Payload := mkPayload {
  thought : option string;
  p_plan : option Plan;
  p_design_system : option DesignSystem;
  p_file_system : option (list FileEntry);
  p_files : option (list GeneratedFile);
  request_human_help : bool;
  fixes : option (list Fix)
}.

Inductive Role := user | model.

(** The fields of an [AgentOrchestrator], the callbacks called so far, and
    the counters that index the inputs of the run. *)
Record World := mkWorld {
  isRunning : bool;
  currentPhase : AgentPhase;
  projectState : ProjectState;
  conversationHistory : list (Role * string);
  trace : list Event;
  ticks : nat;
  prompts : nat;
  clockReads : nat
}.

Definition set_isRunning (b : bool) (w : World) : World :=
  mkWorld b (currentPhase w) (projectState w) (conversationHistory w)
    (trace w) (ticks w) (prompts w) (clockReads w).
Definition set_currentPhase (p : AgentPhase) (w : World) : World :=
  mkWorld (isRunning w) p (projectState w) (conversationHistory w)
    (trace w) (ticks w) (prompts w) (clockReads w).
Definition set_projectState (s : ProjectState) (w : World) : World :=
  mkWorld (isRunning w) (currentPhase w) s (conversationHistory w)
    (trace w) (ticks w) (prompts w) (clockReads w).
Definition set_conversationHistory (h : list (Role * string)) (w : World)
  : World :=
  mkWorld (isRunning w) (currentPhase w) (projectState w) h
    (trace w) (ticks w) (prompts w) (clockReads w).
Definition set_trace (t : list Event) (w : World) : World :=
  mkWorld (isRunning w) (currentPhase w) (projectState w)
    (conversationHistory w) t (ticks w) (prompts w) (clockReads w).
Definition set_ticks (n : nat) (w : World) : World :=
  mkWorld (isRunning w) (currentPhase w) (projectState w)
    (conversationHistory w) (trace w) n (prompts w) (clockReads w).
Definition set_prompts (n : nat) (w : World) : World :=
  mkWorld (isRunning w) (currentPhase w) (projectState w)
    (conversationHistory w) (trace w) (ticks w) n (clockReads w).
Definition set_clockReads (n : nat) (w : World) : World :=
  mkWorld (isRunning w) (currentPhase w) (projectState w)
    (conversationHistory w) (trace w) (ticks w) (prompts w) n.

(** How an asynchronous method ends.  [Diverged] is the model running out of
    the fuel of a loop; the loops are shown never to reach it. *)
Inductive Completion (A : Type) :=
  | Done (a : A)
  | Thrown (message : string)
  | Diverged.
Arguments Done {A} a.
Arguments Thrown {A} message.
Arguments Diverged {A}.

Definition M (A : Type) : Type := World -> Completion A * World.

Definition ret {A} (a : A) : M A := fun w => (Done a, w).

Definition bind {A B} (m : M A) (k : A -> M B) : M B :=
  fun w =>
    match m w with
    | (Done a, w') => k a w'
    | (Thrown e, w') => (Thrown e, w')
    | (Diverged, w') => (Diverged, w')
    end.

Definition throw {A} (message : string) : M A := fun w => (Thrown message, w).

Definition gets {A} (f : World -> A) : M A := fun w => (Done (f w), w).

Definition modify (f : World -> World) : M unit := fun w => (Done tt, f w).

(** [try { m } catch (error) { handler(error) }] *)
Definition tryCatch {A} (m : M A) (handler : string -> M A) : M A :=
  fun w =>
    match m w with
    | (Thrown e, w') => handler e w'
    | r => r
    end.

(** [try { m } finally { cleanup }], for a [cleanup] that only assigns. *)
Definition finally {A} (m : M A) (cleanup : World -> World) : M A :=
  fun w => let '(r, w') := m w in (r, cleanup w').

Definition when (b : bool) (m : M unit) : M unit :=
  if b then m else ret tt.

Declare Scope orch_scope.
Delimit Scope orch_scope with orch.
Notation "x <- m ;; k" := (bind m (fun x => k))
  (at level 61, m at next level, right associativity) : orch_scope.
Notation "' pat <- m ;; k" := (bind m (fun x => match x with pat => k end))
  (at level 61, pat pattern, m at next level, right associativity) : orch_scope.
Notation "m ;; k" := (bind m (fun _ => k))
  (at level 61, right associativity) : orch_scope.
Open Scope orch_scope.

Definition updateState (f : ProjectState -> ProjectState) : M unit :=
  modify (fun w => set_projectState (f (projectState w)) w).

(** [forEach] with a body that may call callbacks. *)
Fixpoint forEachIndexed {A} (body : nat -> A -> M unit) (index : nat)
  (l : list A) : M unit :=
  match l with
  | [] => ret tt
  | x :: rest => body index x ;; forEachIndexed body (S index) rest
  end.

(** The first entry with path [p], changed by [g]: what assigning to the
    object that [file_system.find(f => f.path === p)] returns does. *)
Fixpoint updateFirst (p : string) (g : FileEntry -> FileEntry)
  (fs : list FileEntry) : list FileEntry :=
  match fs with
  | [] => []
  | f :: rest =>
      if String.eqb (path f) p then g f :: rest
      else f :: updateFirst p g rest
  end.

Definition findFile (p : string) (fs : list FileEntry) : option FileEntry :=
  List.find (fun f => String.eqb (path f) p) fs.

Definition createInitialState : ProjectState :=
  mkState "Untitled Project" EmptyString IDLE EmptyString None None [] []
    0 3 [] [] false.

(** A new [AgentOrchestrator]. *)
Definition newOrchestrator : World :=
  mkWorld false PLANNING createInitialState [] [] 0 0 0.

Definition lengthOr0 {A} (l : option (list A)) : Z :=
  match l with
  | Some l' => Z.of_nat (List.length l')
  | None => 0
  end.

Definition terminalLog (r : CompilationResult) (timestamp : string)
  : TerminalLog :=
  mkTerminalLog (Js.lines (r_stdout r)) (Js.lines (r_stderr r)) (exit_code r)
    timestamp.

(** The configuration and the surroundings of one orchestrator:
    - [JSON_parse], the runtime's parser, and [payloadOf], the reading of a
      parsed value at the fields the phases use;
    - [buildAgentPrompt] and [SYSTEM_PROMPT], whose text only travels to the
      service;
    - [config], the [AgentWorkflowConfig] given to the constructor;
    - [apiKey], the key of the [geminiService] singleton;
    - [network c k], the reply to the [k]-th request of the [c]-th call of
      [sendPrompt];
    - [stopAt t], whether [stop()] is called at the [t]-th point where
      control is outside the orchestrator (a callback or a suspension);
    - [clock n], the [n]-th reading of [new Date().toISOString()]. *)
Record Env (J : Type) := mkEnv {
  JSON_parse : string -> option J;
  payloadOf : J -> Payload;
  buildAgentPrompt : AgentPhase -> string -> ProjectState -> string;
  SYSTEM_PROMPT : string;
  config : AgentWorkflowConfig;
  apiKey : option string;
  network : nat -> nat -> GeminiService.HttpReply;
  stopAt : nat -> bool;
  clock : nat -> string
}.
Arguments JSON_parse {J} e.
Arguments payloadOf {J} e.
Arguments buildAgentPrompt {J} e.
Arguments SYSTEM_PROMPT {J} e.
Arguments config {J} e.
Arguments apiKey {J} e.
Arguments network {J} e.
Arguments stopAt {J} e.
Arguments clock {J} e.

Section Run.
Context {J : Type} (E : Env J).

Definition payload (r : AgentPrompts.ParseResult J) : Payload :=
  match r with
  | AgentPrompts.Structured v => payloadOf E v
  | AgentPrompts.Unstructured t _ _ =>
      mkPayload (Some t) None None None None false None
  end.

Definition parsed (text : string) (phase : AgentPhase) : Payload :=
  payload (AgentPrompts.parseAgentResponse (JSON_parse E) text phase).

(** Control leaves the orchestrator and comes back; [stop()] may have been
    called meanwhile. *)
Definition tick : M unit :=
  modify (fun w =>
            set_ticks (S (ticks w))
              (if stopAt E (ticks w) then set_isRunning false w else w)).

(** A callback of the configuration is called and returns: the call is
    recorded, and control was outside meanwhile.  A callback that throws
    is [throwing], below [start]. *)
Definition emit (e : Event) : M unit :=
  modify (fun w => set_trace (trace w ++ [e]) w) ;; tick.

Definition log (agent message : string) (type : LogType) : M unit :=
  emit (onLog (createLog agent message type None)).

Definition now : M string :=
  fun w => (Done (clock E (clockReads w)), set_clockReads (S (clockReads w)) w).

(** [await geminiService.sendPrompt(systemPrompt, userPrompt, history)] *)
Definition awaitSendPrompt (systemPrompt userPrompt : string)
  (history : list (Role * string)) : M string :=
  c <- gets prompts ;;
  modify (set_prompts (S c)) ;;
  tick ;;
  match GeminiService.result (GeminiService.sendPrompt (apiKey E) (network E c)) with
  | GeminiService.Resolved text => ret text
  | GeminiService.Rejected m => throw m
  end.

(** [await compilationService.validateCode(this.projectState)] *)
Definition validate : M CompilationResult :=
  s <- gets projectState ;;
  tick ;;
  ret (CompilationService.validateCode s).

Definition addToHistory (userPrompt modelResponse : string) : M unit :=
  modify (fun w =>
            set_conversationHistory
              (conversationHistory w ++ [(user, userPrompt); (model, modelResponse)])
              w).

Definition notifyStateUpdate : M unit :=
  if hasStateUpdate (config E) then
    s <- gets projectState ;; emit (onStateUpdate s)
  else ret tt.

Definition enterPhase (p : AgentPhase) : M unit :=
  modify (set_currentPhase p) ;;
  updateState (set_status p) ;;
  emit (onPhaseChange p).

(** The request of a phase: prompt, call, parse. *)
Definition ask (p : AgentPhase) : M (string * string * Payload) :=
  s <- gets projectState ;;
  let prompt := buildAgentPrompt E p (user_prompt s) s in
  h <- gets conversationHistory ;;
  text <- awaitSendPrompt (SYSTEM_PROMPT E) prompt h ;;
  ret (prompt, text, parsed text p).

Definition logThought (agent : string) (parsed : Payload) : M unit :=
  match thought parsed with
  | Some t => when (Js.truthy t) (log agent ("💭 " ++ t) info)
  | None => ret tt
  end.

Definition executePlanningPhase : M unit :=
  running <- gets isRunning ;;
  if negb running then ret tt else
  enterPhase PLANNING ;;
  log "PLANNER" "🎯 Starting Planning Phase..." info ;;
  log "PLANNER" "Analyzing user intent and defining requirements..." info ;;
  '(prompt, text, parsed) <- ask PLANNING ;;
  logThought "PLANNER" parsed ;;
  match p_plan parsed with
  | Some pl =>
      updateState (set_plan pl) ;;
      log "PLANNER"
        ("✓ Defined " ++ Js.ofZ (lengthOr0 (features pl)) ++ " core features")
        success ;;
      log "PLANNER"
        ("✓ Created " ++ Js.ofZ (lengthOr0 (dataModels pl)) ++ " data models")
        success ;;
      log "PLANNER" "✓ Generated mock data schema (Mock Data Mandate enforced)"
        success
  | None => ret tt
  end ;;
  addToHistory prompt text ;;
  notifyStateUpdate.

Definition executeDesignPhase : M unit :=
  running <- gets isRunning ;;
  if negb running then ret tt else
  enterPhase DESIGNING ;;
  log "DESIGNER" "🎨 Starting Design Phase..." info ;;
  log "DESIGNER"
    ("Performing " ++ Js.dq ++ "Vibe Check" ++ Js.dq ++
     " and creating design system...") info ;;
  '(prompt, text, parsed) <- ask DESIGNING ;;
  logThought "DESIGNER" parsed ;;
  match p_design_system parsed with
  | Some d =>
      updateState (set_design_system d) ;;
      log "DESIGNER" ("✓ Theme: " ++ theme d) success ;;
      log "DESIGNER"
        ("✓ Color Palette: " ++
         Js.ofZ (Z.of_nat (List.length (colorPalette d))) ++ " semantic tokens")
        success ;;
      log "DESIGNER"
        ("✓ Typography: " ++ heading (typography d) ++ " / " ++
         body (typography d)) success
  | None => ret tt
  end ;;
  addToHistory prompt text ;;
  notifyStateUpdate.

Definition isOfType (t : FileType) (f : FileEntry) : bool :=
  match t, f_type f with
  | file, file => true
  | directory, directory => true
  | _, _ => false
  end.

Definition executeArchitecturePhase : M unit :=
  running <- gets isRunning ;;
  if negb running then ret tt else
  enterPhase ARCHITECTING ;;
  log "ARCHITECT" "🏗️ Starting Architecture Phase..." info ;;
  log "ARCHITECT" "Scaffolding file system and project structure..." info ;;
  '(prompt, text, parsed) <- ask ARCHITECTING ;;
  logThought "ARCHITECT" parsed ;;
  match p_file_system parsed with
  | Some fs =>
      updateState (set_file_system fs) ;;
      let fileCount := List.length (filter (isOfType file) fs) in
      let dirCount := List.length (filter (isOfType directory) fs) in
      log "ARCHITECT"
        ("✓ Created " ++ Js.ofZ (Z.of_nat fileCount) ++ " files and " ++
         Js.ofZ (Z.of_nat dirCount) ++ " directories") success ;;
      log "ARCHITECT" "✓ Next.js 14 App Router structure (src/app/)" success ;;
      log "ARCHITECT" "✓ Mock data file: src/lib/mockData.ts" success ;;
      let treePreview := Js.join Js.nl (map path (firstn 5 fs)) in
      emit (onLog (createLog "ARCHITECT" "File tree preview:" info
                     (Some treePreview)))
  | None => ret tt
  end ;;
  addToHistory prompt text ;;
  notifyStateUpdate.

(** The body of [parsed.files.forEach] in the Coding phase. *)
Definition mergeFile (f : GeneratedFile) : M unit :=
  s <- gets projectState ;;
  stamp <- now ;;
  match findFile (g_path f) (file_system s) with
  | Some _ =>
      updateState
        (fun s =>
           set_file_system
             (updateFirst (g_path f)
                (fun e => mkFile (path e) (g_content f) (f_type e) (Some stamp))
                (file_system s)) s)
  | None =>
      updateState
        (fun s =>
           set_file_system
             (file_system s ++
              [mkFile (g_path f) (g_content f) file (Some stamp)]) s)
  end.

Definition executeCodingPhase : M unit :=
  running <- gets isRunning ;;
  if negb running then ret tt else
  enterPhase CODING ;;
  log "CODER" "💻 Starting Coding Phase..." info ;;
  log "CODER"
    "Implementing full application (Anti-Laziness Protocol enforced)..." info ;;
  '(prompt, text, parsed) <- ask CODING ;;
  logThought "CODER" parsed ;;
  match p_files parsed with
  | Some fl =>
      forEachIndexed (fun _ f => mergeFile f) 0 fl ;;
      updateState (set_generatedCode true) ;;
      log "CODER"
        ("✓ Generated " ++ Js.ofZ (Z.of_nat (List.length fl)) ++
         " complete, functional files") success ;;
      log "CODER" "✓ All code is copy-pasteable and ready to run" success ;;
      log "CODER" "✓ Design tokens integrated into components" success
  | None => ret tt
  end ;;
  addToHistory prompt text ;;
  notifyStateUpdate.

(** The body of [parsed.fixes.forEach((fix, index) => ...)]. *)
Definition applyFix (index : nat) (fx : Fix) : M unit :=
  s <- gets projectState ;;
  match findFile (fix_file fx) (file_system s) with
  | Some f =>
      match content f with
      | Some c =>
          if Js.truthy c then
            stamp <- now ;;
            updateState
              (fun s =>
                 set_file_system
                   (updateFirst (fix_file fx)
                      (fun e =>
                         mkFile (path e)
                           (Some (Js.replace c (before fx) (after fx)))
                           (f_type e) (Some stamp))
                      (file_system s)) s) ;;
            log "PATCHER"
              ("  " ++ Js.ofZ (Z.of_nat index + 1) ++ ". " ++ fix_file fx ++
               ":" ++ fix_line fx ++ " - Applied surgical fix") success
          else ret tt
      | None => ret tt
      end
  | None => ret tt
  end.

(** [executePatchingPhase]; its [return] after a request for human help
    skips the history and the state update. *)
Definition executePatchingPhase : M unit :=
  running <- gets isRunning ;;
  if negb running then ret tt else
  enterPhase PATCHING ;;
  log "PATCHER" "🔍 Analyzing error logs (Abductive Reasoning)..." info ;;
  '(prompt, text, parsed) <- ask PATCHING ;;
  logThought "PATCHER" parsed ;;
  if request_human_help parsed then
    log "PATCHER" "🆘 Complex error detected. Human review recommended."
      error ;;
    updateState (fun s => set_iteration_count (max_iterations s) s)
  else
    match fixes parsed with
    | Some fl =>
        log "PATCHER"
          ("✓ Identified " ++ Js.ofZ (Z.of_nat (List.length fl)) ++ " fixes")
          success ;;
        forEachIndexed applyFix 0 fl
    | None => ret tt
    end ;;
    addToHistory prompt text ;;
    notifyStateUpdate.

Definition pushTerminalLog (r : CompilationResult) : M unit :=
  stamp <- now ;;
  updateState
    (fun s => set_terminal_logs (terminal_logs s ++ [terminalLog r stamp]) s).

Definition diverge {A} : M A := fun w => (Diverged, w).

(** The body of the [while] loop of [executeCompilationAndHealing], with
    [result] the outcome of the validation made before the loop.  It
    answers [true] when the method returns from inside the loop (the build
    passed), [false] when the loop goes on. *)
Definition healingAttempt (result : CompilationResult) : M bool :=
  updateState (fun s => set_iteration_count (iteration_count s + 1) s) ;;
  s <- gets projectState ;;
  log "PATCHER"
    ("🩹 Healing attempt " ++ Js.ofZ (iteration_count s) ++ "/" ++
     Js.ofZ (max_iterations s) ++ "...") info ;;
  executePatchingPhase ;;
  newResult <- validate ;;
  pushTerminalLog newResult ;;
  if r_success newResult then
    log "PATCHER" "✅ Self-healing successful! Build passed." success ;;
    ret true
  else
    (if String.eqb (r_stderr newResult) (r_stderr result) then
       s <- gets projectState ;;
       log "PATCHER"
         ("⚠️ Same error persists after attempt " ++
          Js.ofZ (iteration_count s)) error
     else ret tt) ;;
    ret false.

(** The [while] loop itself.  It answers [true] when the method returned
    from inside the loop, [false] when the loop condition failed. *)
Fixpoint healingLoop (fuel : nat) (result : CompilationResult) : M bool :=
  s <- gets projectState ;;
  if (iteration_count s <? max_iterations s)%Z && negb (r_success result)
  then
    match fuel with
    | O => diverge
    | S fuel' =>
        returned <- healingAttempt result ;;
        if returned then ret true else healingLoop fuel' result
    end
  else ret false.

Definition executeCompilationAndHealing : M unit :=
  running <- gets isRunning ;;
  if negb running then ret tt else
  log "SYSTEM" "🔨 Starting compilation validation..." system ;;
  result <- validate ;;
  pushTerminalLog result ;;
  if r_success result then
    log "SYSTEM" "✅ Compilation successful!" success ;;
    log "SYSTEM" (r_stdout result) info
  else
    log "SYSTEM" "⚠️ Build errors detected. Activating Patcher agent..." error ;;
    log "STDERR" (r_stderr result) error ;;
    if negb (CompilationService.isRecoverableError result) then
      log "PATCHER" "🛑 Fatal error detected. Human intervention required."
        error ;;
      throw ("Fatal build error: " ++ Js.take 200 (r_stderr result))
    else
      s <- gets projectState ;;
      returned <- healingLoop
                    (Z.to_nat (max_iterations s - iteration_count s)) result ;;
      if returned then ret tt
      else
        s <- gets projectState ;;
        if (max_iterations s <=? iteration_count s)%Z then
          log "PATCHER"
            "🛑 Max healing iterations reached. Requesting human assistance."
            error ;;
          log "SYSTEM"
            "The system encountered persistent errors. Please review the logs."
            error
        else ret tt.

Definition runAIWorkflow (userPrompt : string) : M unit :=
  log "SYSTEM" "🚀 Initializing Agentic Studio Pro - Closed-Loop Architecture"
    system ;;
  log "SYSTEM" ("User Intent: " ++ Js.dq ++ userPrompt ++ Js.dq) info ;;
  executePlanningPhase ;;
  executeDesignPhase ;;
  executeArchitecturePhase ;;
  executeCodingPhase ;;
  executeCompilationAndHealing ;;
  enterPhase READY ;;
  log "SYSTEM" "✅ Application ready! All agents completed successfully."
    success.

(** The [for] loop of [runSimulation] over the steps that are left. *)
Fixpoint simulate (steps : list Step) : M unit :=
  match steps with
  | [] => ret tt
  | step :: rest =>
      running <- gets isRunning ;;
      if negb running then ret tt else
      tick ;;
      modify (set_currentPhase (phase step)) ;;
      emit (onPhaseChange (phase step)) ;;
      emit (onLog (SimulationService.log step)) ;;
      simulate rest
  end.

Definition runSimulation : M unit := simulate SIMULATION_STEPS.

Definition determineMode : M AgentMode :=
  match mode (config E) with
  | simulation => ret simulation
  | ai =>
      if negb (GeminiService.isAvailable (apiKey E)) then
        throw "AI mode requested but Gemini API key not configured"
      else ret ai
  | hybrid =>
      ret (if GeminiService.isAvailable (apiKey E) then ai else simulation)
  end.

(** [start(userPrompt)], given what the calls [this.config.onComplete()]
    and [this.config.onError(error)] do.  The guard throws before the
    [try], so a call on a running orchestrator calls no callback. *)
Definition startWith (complete : M unit) (fail : string -> M unit)
  (userPrompt : string) : M unit :=
  running <- gets isRunning ;;
  if running then throw "Workflow already running" else
  modify (set_isRunning true) ;;
  modify (set_currentPhase PLANNING) ;;
  updateState (set_user_prompt userPrompt) ;;
  updateState (set_status PLANNING) ;;
  finally
    (tryCatch
       (m <- determineMode ;;
        match m with
        | simulation => runSimulation
        | ai => runAIWorkflow userPrompt
        | hybrid =>
            tryCatch (runAIWorkflow userPrompt)
              (fun _ =>
                 log "SYSTEM" "AI unavailable, running in demo mode..." info ;;
                 runSimulation)
        end ;;
        complete)
       fail)
    (set_isRunning false).

(** [start] with terminal callbacks that return, as the callbacks of
    [emit] do. *)
Definition start (userPrompt : string) : M unit :=
  startWith (emit onComplete) (fun e => emit (onError e)) userPrompt.

(** A callback that is called and throws an [Error] with [message]. *)
Definition throwing (e : Event) (message : string) : M unit :=
  emit e ;; throw message.

(** [stop()] *)
Definition stop : M unit := modify (set_isRunning false).

End Run.

End Orchestrator.

(* ================================================================= *)
(** ** [services/agentOrchestrator.ts]: the orchestrator without the loop

    The class as it is before the closed loop: one [executePhase] for all
    the phases, no project state.  Its [determineMode], [runSimulation] and
    [stop] are those of the closed-loop class, word for word. *)

Module LegacyOrchestrator.
Import Types SimulationService Orchestrator.

Definition getAgentForPhase (phase : AgentPhase) : string :=
  match phase with
  | PLANNING => "PLANNER"
  | DESIGNING => "DESIGNER"
  | ARCHITECTING => "ARCHITECT"
  | CODING => "CODER"
  | PATCHING => "PATCHER"
  | _ => "SYSTEM"
  end.

Definition buildAgentPrompt (phase : AgentPhase) (userPrompt : string)
  : string :=
  let agentName := getAgentForPhase phase in
  match phase with
  | PLANNING =>
      "[" ++ agentName ++
      "] Analyze this user request and create a detailed plan:" ++
      Js.nl ++ Js.nl ++ Js.dq ++ userPrompt ++ Js.dq ++ Js.nl ++ Js.nl ++
      "Define:" ++ Js.nl ++ "1. Core features" ++ Js.nl ++
      "2. Data models" ++ Js.nl ++ "3. Technical requirements" ++
      Js.nl ++ Js.nl ++ "Respond with [PHASE: PLANNING] at the start."
  | DESIGNING =>
      "[" ++ agentName ++ "] Based on the plan, create a design system:" ++
      Js.nl ++ Js.nl ++ "1. Color palette (Tailwind classes)" ++ Js.nl ++
      "2. Typography (fonts)" ++ Js.nl ++ "3. Component style guide" ++
      Js.nl ++ Js.nl ++ "Respond with [PHASE: DESIGNING] at the start."
  | ARCHITECTING =>
      "[" ++ agentName ++ "] Define the project architecture:" ++
      Js.nl ++ Js.nl ++ "1. Folder structure" ++ Js.nl ++
      "2. File organization" ++ Js.nl ++ "3. Technology stack" ++
      Js.nl ++ Js.nl ++ "Respond with [PHASE: ARCHITECTING] at the start."
  | CODING =>
      "[" ++ agentName ++ "] Generate the implementation plan:" ++
      Js.nl ++ Js.nl ++ "1. Key components to build" ++ Js.nl ++
      "2. State management approach" ++ Js.nl ++
      "3. API integration points" ++
      Js.nl ++ Js.nl ++ "Respond with [PHASE: CODING] at the start."
  | _ =>
      "[" ++ agentName ++ "] Complete the " ++ GeminiService.phaseName phase ++
      " phase for: " ++ Js.dq ++ userPrompt ++ Js.dq
  end.

(** [response.split('\n').filter(line => line.trim()).slice(0, 3)] *)
Definition keyPoints (response : string) : list string :=
  firstn 3 (filter (fun line => Js.truthy (Js.trim line)) (Js.lines response)).

(** [response.match(/```[\s\S]*?```/)]: the text matched, from the leftmost
    fence to the first fence after it. *)
Definition codeMatch (response : string) : option string :=
  match Js.indexFrom 0 response "```" with
  | None => None
  | Some i =>
      let rest := Js.drop (i + 3) response in
      match Js.indexFrom 0 rest "```" with
      | None => None
      | Some j => Some ("```" ++ Js.take j rest ++ "```")%string
      end
  end.

(** Where the scan of [replace(/```\w*\n?/g, '')] is: copying text; inside
    a fence, with [left + 1] of its backquotes still to skip; or after a
    fence, in the word and the line feed that belong to the match. *)
Inductive Scan := Copying | InFence (left : nat) | InWord.

Fixpoint stripFences (scan : Scan) (s : string) : string :=
  match s with
  | EmptyString => EmptyString
  | String c s' =>
      let copy :=
        if Js.startsWith s "```" then stripFences (InFence 1) s'
        else String c (stripFences Copying s') in
      match scan with
      | Copying => copy
      | InFence (S n) => stripFences (InFence n) s'
      | InFence O => stripFences InWord s'
      | InWord =>
          if Js.isWord c then stripFences InWord s'
          else if Ascii.eqb c (ascii_of_nat 10) then stripFences Copying s'
          else copy
      end
  end.

Section Run.
Context {J : Type} (E : Env J).

(** [parseAndLogResponse]; the test of a key point repeats that of the
    filter. *)
Definition parseAndLogResponse (agentName response : string) : M unit :=
  forEachIndexed
    (fun _ point =>
       when (Js.truthy (Js.trim point))
         (emit E (onLog (createLog agentName (Js.trim point) info None))))
    0 (keyPoints response) ;;
  match codeMatch response with
  | Some matched =>
      let code := Js.trim (stripFences Copying matched) in
      emit E (onLog (createLog agentName "Generated code:" success (Some code)))
  | None => ret tt
  end.

Definition phaseWord (phase : AgentPhase) : string :=
  Js.toLowerCase (GeminiService.phaseName phase).

Definition executePhase (phase : AgentPhase) (userPrompt : string) : M unit :=
  let agentName := getAgentForPhase phase in
  let agentPrompt := buildAgentPrompt phase userPrompt in
  log E agentName ("Starting " ++ phaseWord phase ++ " phase...") info ;;
  tryCatch
    (h <- gets conversationHistory ;;
     text <- awaitSendPrompt E (SYSTEM_PROMPT E) agentPrompt h ;;
     addToHistory agentPrompt text ;;
     parseAndLogResponse agentName text ;;
     log E agentName ("Completed " ++ phaseWord phase ++ " phase.") success)
    (fun e =>
       log E agentName ("Error in " ++ phaseWord phase ++ ": " ++ e) error ;;
       throw e).

(** The [for] loop of [runAIWorkflow] over the phases that are left. *)
Fixpoint runPhases (phases : list AgentPhase) (userPrompt : string) : M unit :=
  match phases with
  | [] => ret tt
  | phase :: rest =>
      running <- gets isRunning ;;
      if negb running then ret tt else
      modify (set_currentPhase phase) ;;
      emit E (onPhaseChange phase) ;;
      executePhase phase userPrompt ;;
      runPhases rest userPrompt
  end.

Definition phases : list AgentPhase :=
  [PLANNING; DESIGNING; ARCHITECTING; CODING; READY].

Definition runAIWorkflow (userPrompt : string) : M unit :=
  log E "SYSTEM" "Initializing AI-powered agent workflow..." system ;;
  runPhases phases userPrompt.

Definition start (userPrompt : string) : M unit :=
  running <- gets isRunning ;;
  if running then throw "Workflow already running" else
  modify (set_isRunning true) ;;
  modify (set_currentPhase PLANNING) ;;
  finally
    (tryCatch
       (m <- determineMode E ;;
        match m with
        | simulation => runSimulation E
        | ai => runAIWorkflow userPrompt
        | hybrid =>
            tryCatch (runAIWorkflow userPrompt)
              (fun _ =>
                 log E "SYSTEM" "AI unavailable, running in demo mode..." info ;;
                 runSimulation E)
        end ;;
        emit E onComplete)
       (fun e => emit E (onError e)))
    (set_isRunning false).

End Run.

End LegacyOrchestrator.

(* ================================================================= *)
(** ** A reply as the phases read it

    The instance of [payloadOf] used in the examples: the fields of the
    object that [JSON.parse] produced, at the shapes of the OUTPUT STRUCTURE
    sections of the agent prompts.  A field of another shape reads as
    absent.  The reading is that of the code on replies of these shapes
    only: every entry of a file tree has a path and the type file or
    directory, and a number is an integer written in plain digits, as a
    line number is (so that [String(v)] is its lexeme, and only 0 is
    falsy).  The general statements hold for every [payloadOf]. *)

Module Reading.
Import Types Orchestrator Json.

Definition str (v : option value) : option string :=
  match v with
  | Some (JString s) => Some s
  | _ => None
  end.

(** [String(v)] for the values that occur as [before], [after] and [line]. *)
Definition text (v : option value) : string :=
  match v with
  | None => "undefined"
  | Some JNull => "null"
  | Some (JBool true) => "true"
  | Some (JBool false) => "false"
  | Some (JNumber l) => l
  | Some (JString s) => s
  | Some (JArray _) => EmptyString
  | Some (JObject _) => "[object Object]"
  end.

Definition isZeroLexeme (l : string) : bool :=
  let mantissa := fst (Js.spanChars (fun c => negb (Ascii.eqb c "e"%char ||
                                                   Ascii.eqb c "E"%char)) l) in
  (Js.countChar "0"%char mantissa + Js.countChar "."%char mantissa +
   Js.countChar "-"%char mantissa =? String.length mantissa)%nat.

Definition isTruthy (v : option value) : bool :=
  match v with
  | None | Some JNull => false
  | Some (JBool b) => b
  | Some (JNumber l) => negb (isZeroLexeme l)
  | Some (JString s) => Js.truthy s
  | Some (JArray _) | Some (JObject _) => true
  end.

Definition strings (v : option value) : option (list string) :=
  match v with
  | Some (JArray items) => Some (map (fun i => text (Some i)) items)
  | _ => None
  end.

Definition pairs (v : option value) : list (string * string) :=
  match v with
  | Some (JObject members) => map (fun m => (fst m, text (Some (snd m)))) members
  | _ => []
  end.

Definition planOf (v : option value) : option Plan :=
  match v with
  | Some (JObject m) =>
      Some (mkPlan (strings (lookup "features" m)) (strings (lookup "dataModels" m))
              (strings (lookup "technicalRequirements" m)))
  | _ => None
  end.

Definition designOf (v : option value) : option DesignSystem :=
  match v with
  | Some (JObject m) =>
      match lookup "colorPalette" m, lookup "typography" m with
      | Some (JObject cp), Some (JObject ty) =>
          Some (mkDesign (pairs (Some (JObject cp)))
                  (mkTypography (text (lookup "heading" ty))
                     (text (lookup "body" ty)) (text (lookup "code" ty)))
                  (pairs (lookup "spacing" m)) (text (lookup "theme" m)))
      | _, _ => None
      end
  | _ => None
  end.

Definition entryOf (v : value) : FileEntry :=
  mkFile (text (get "path" v)) (str (get "content" v))
    (match str (get "type" v) with
     | Some "directory" => directory
     | _ => file
     end)
    (str (get "lastModified" v)).

Definition generatedOf (v : value) : GeneratedFile :=
  mkGenerated (text (get "path" v)) (str (get "content" v)).

Definition fixOf (v : value) : Fix :=
  mkFix (text (get "file" v)) (text (get "line" v)) (text (get "before" v))
    (text (get "after" v)).

Definition listOf {A} (f : value -> A) (v : option value) : option (list A) :=
  match v with
  | Some (JArray items) => Some (map f items)
  | _ => None
  end.

Definition payloadOf (v : value) : Payload :=
  mkPayload (str (get "thought" v)) (planOf (get "plan" v))
    (designOf (get "design_system" v)) (listOf entryOf (get "file_system" v))
    (listOf generatedOf (get "files" v)) (isTruthy (get "request_human_help" v))
    (listOf fixOf (get "fixes" v)).

End Reading.

(* ================================================================= *)
(** ** Vocabulary of the statements, and the scenarios *)

Module Spec.
Import Types Orchestrator.

(** The message [retryWithBackoff] takes from a thrown value. *)
Definition thrownMessage (t : GeminiService.Thrown) : string :=
  match t with
  | GeminiService.ErrorObject m => m
  | GeminiService.OtherValue => "Unknown error"
  end.

(** The [k]-th call of [fn] fails with an error that is retried. *)
Definition retried {T} (fn : nat -> GeminiService.Outcome T) (k : nat) : Prop :=
  exists t, fn k = GeminiService.Threw t /\
            GeminiService.isAuthMessage (thrownMessage t) = false.

(** The first fenced block of a text, in the words of the statement about
    [parseAgentResponse]: [body] is what stands between the leftmost
    [```json] and the first [```] after it, without the white space at its
    two ends. *)
Definition firstFencedBlock (rawResponse body : string) : Prop :=
  exists pre blanks1 blanks2 post,
    rawResponse =
      (pre ++ AgentPrompts.fenceOpen ++ blanks1 ++ body ++ blanks2 ++
       AgentPrompts.fenceClose ++ post)%string /\
    Js.indexFrom 0 rawResponse AgentPrompts.fenceOpen =
      Some (String.length pre) /\
    Js.indexFrom 0
      (blanks1 ++ body ++ blanks2 ++ AgentPrompts.fenceClose ++ post)
      AgentPrompts.fenceClose =
      Some (String.length (blanks1 ++ body ++ blanks2)) /\
    Js.isBlank blanks1 = true /\ Js.isBlank blanks2 = true /\
    Js.trim body = body.

(** What [start] runs inside its [try] before it calls [onComplete]. *)
Definition workflow {J} (E : Env J) (userPrompt : string) : M unit :=
  m <- determineMode E ;;
  match m with
  | simulation => runSimulation E
  | ai => runAIWorkflow E userPrompt
  | hybrid =>
      tryCatch (runAIWorkflow E userPrompt)
        (fun _ =>
           log E "SYSTEM" "AI unavailable, running in demo mode..." info ;;
           runSimulation E)
  end.

(** [runAIWorkflow] up to the end of the Coding phase. *)
Definition generation {J} (E : Env J) (userPrompt : string) : M unit :=
  log E "SYSTEM" "🚀 Initializing Agentic Studio Pro - Closed-Loop Architecture"
    system ;;
  log E "SYSTEM" ("User Intent: " ++ Js.dq ++ userPrompt ++ Js.dq) info ;;
  executePlanningPhase E ;;
  executeDesignPhase E ;;
  executeArchitecturePhase E ;;
  executeCodingPhase E.

(** The world after a callback, after a suspension, after a reading of the
    clock. *)
Definition emitted {J} (E : Env J) (e : Event) (w : World) : World :=
  snd (emit E e w).
Definition logged {J} (E : Env J) (agent message : string) (t : LogType)
  (w : World) : World :=
  emitted E (onLog (SimulationService.createLog agent message t None)) w.
Definition ticked {J} (E : Env J) (w : World) : World := snd (tick E w).

(** The world after a validation with outcome [r] is recorded. *)
Definition recorded {J} (E : Env J) (r : CompilationResult) (w : World) : World :=
  snd (pushTerminalLog E r w).

(** The world [executeCompilationAndHealing] reaches when it has recorded
    its first validation. *)
Definition validated {J} (E : Env J) (w : World) : World :=
  recorded E (CompilationService.validateCode (projectState w))
    (ticked E (logged E "SYSTEM" "🔨 Starting compilation validation..." system w)).

(** The Patch phase entered in [w] gets a reply that asks for human help. *)
Definition requestsHelp {J} (E : Env J) (w : World) : bool :=
  isRunning w &&
  match GeminiService.result
          (GeminiService.sendPrompt (apiKey E) (network E (prompts w))) with
  | GeminiService.Resolved text => request_human_help (parsed E text PATCHING)
  | GeminiService.Rejected _ => false
  end.

(** The world in which [healingAttempt] enters the Patch phase. *)
Definition attemptEntry {J} (E : Env J) (w : World) : World :=
  let s := set_iteration_count (iteration_count (projectState w) + 1)
             (projectState w) in
  logged E "PATCHER"
    ("🩹 Healing attempt " ++ Js.ofZ (iteration_count s) ++ "/" ++
     Js.ofZ (max_iterations s) ++ "...") info
    (set_projectState s w).

(** The warning of a repeated error, after attempt [n]. *)
Definition stagnationLog (n : Z) : Event :=
  onLog (SimulationService.createLog "PATCHER"
           ("⚠️ Same error persists after attempt " ++ Js.ofZ n) error None).

(** The world in which the healing loop starts, after a first validation in
    [w] that failed with [result]. *)
Definition loopEntry {J} (E : Env J) (w : World) : World :=
  logged E "STDERR"
    (r_stderr (CompilationService.validateCode (projectState w))) error
    (logged E "SYSTEM" "⚠️ Build errors detected. Activating Patcher agent..."
       error (validated E w)).

(** The two log entries after the healing loop is exhausted. *)
Definition escalated {J} (E : Env J) (w : World) : World :=
  logged E "SYSTEM"
    "The system encountered persistent errors. Please review the logs." error
    (logged E "PATCHER"
       "🛑 Max healing iterations reached. Requesting human assistance." error w).

(** The world in which [start] enters its [try]. *)
Definition started (userPrompt : string) (w : World) : World :=
  set_projectState
    (set_status PLANNING (set_user_prompt userPrompt (projectState w)))
    (set_currentPhase PLANNING (set_isRunning true w)).

(** A computation relates the world it starts in to the world it ends in,
    however it ends. *)
Definition keeps (R : World -> World -> Prop) {A} (m : M A) : Prop :=
  forall w, R w (snd (m w)).

(** A computation never runs out of the fuel of a loop. *)
Definition total {A} (m : M A) : Prop :=
  forall w, fst (m w) <> Diverged.

Definition isLog (e : Event) : bool :=
  match e with
  | onLog _ => true
  | _ => false
  end.

(** The two terminal callbacks. *)
Definition isTerminal (e : Event) : bool :=
  match e with
  | onComplete | onError _ => true
  | _ => false
  end.

(** The callbacks called between two worlds, none of them terminal. *)
Definition quiet (w w' : World) : Prop :=
  exists evs, trace w' = trace w ++ evs /\
              forallb (fun e => negb (isTerminal e)) evs = true.

Definition count (w : World) : Z := iteration_count (projectState w).
Definition cap (w : World) : Z := max_iterations (projectState w).

(** The bounds of the healing counter. *)
Definition bounded (w : World) : Prop := (0 <= count w <= cap w)%Z.

(** From a bounded world: the cap stays, the counter does not decrease and
    stays bounded. *)
Definition counts (w w' : World) : Prop :=
  cap w' = cap w /\
  ((count w <= cap w)%Z -> (count w <= count w' <= cap w)%Z).

(** The counter and its cap are left as they are. *)
Definition untouched (w w' : World) : Prop :=
  cap w' = cap w /\ count w' = count w.

End Spec.

Module Scenario.
Import Types Orchestrator Spec.

(** A JSON text written with an apostrophe for each double quote. *)
Definition json (s : string) : string :=
  Js.mapChars
    (fun c => if Ascii.eqb c "'"%char then ascii_of_nat 34 else c) s.

Definition todoMarker : string := "// TODO:".

(** The diagnostic of [analyzeFile] for the marker on line [i] (from 0). *)
Definition todoDiagnostic (p : string) (i : nat) (l : string) : Diagnostic :=
  mkDiag p (Z.of_nat i + 1) (Js.indexOf l todoMarker)
    (CompilationService.placeholderMessage todoMarker) ErrSyntax.

Definition forTodoMarker (d : Diagnostic) : bool :=
  String.eqb (e_message d) (CompilationService.placeholderMessage todoMarker).

(** The diagnostics for the marker that the lines [ls] of the file [p]
    call for, [ls] being its lines from the line [index] (from 0) on: one
    for each line that includes the marker. *)
Fixpoint markedLines (p : string) (index : nat) (ls : list string)
  : list Diagnostic :=
  match ls with
  | [] => []
  | l :: rest =>
      (if Js.includes l todoMarker then [todoDiagnostic p index l] else []) ++
      markedLines p (S index) rest
  end.

(** Those of a project: of each entry that [staticAnalysis] looks at, in
    order. *)
Definition todoDiagnostics (st : ProjectState) : list Diagnostic :=
  flat_map
    (fun f => match CompilationService.analysed f with
              | Some c => markedLines (path f) 0 (Js.lines c)
              | None => []
              end)
    (file_system st).

(** A project whose file system is [fs], otherwise as created. *)
Definition projectWith (fs : list FileEntry) : ProjectState :=
  set_file_system fs createInitialState.

(** Scenario A: one source file whose only line is the placeholder. *)
Definition scenarioA : ProjectState :=
  projectWith [mkFile "src/app/page.tsx" (Some "// TODO: implement") file None].

(** A source file that says TODO: in a block comment. *)
Definition blockCommentTodo : ProjectState :=
  projectWith
    [mkFile "src/notes.ts" (Some "const x = 1; /* TODO: later */") file None].

(** A source file with the marker on two of its three lines. *)
Definition twoTodos : ProjectState :=
  projectWith
    [mkFile "src/app/page.tsx"
       (Some ("// TODO: header" ++ Js.nl ++ "export default 1;" ++ Js.nl ++
              "// TODO: footer")%string)
       file None].

(** An orchestrator in [ai] mode with a key, to whose [c]-th prompt the
    service answers at once with the [c]-th of [replies] (with an empty
    object once they are used up); [stop()] is never called. *)
Definition envOf (replies : list string) : Env Json.value :=
  mkEnv Json.value Json.parse Reading.payloadOf
    (fun _ userPrompt _ => userPrompt) "You are Agentic Studio Pro."
    (mkConfig ai true) (Some "key")
    (fun c _ => GeminiService.Reply (nth c replies "{}"))
    (fun _ => false)
    (fun n => String.append "T" (Js.ofZ (Z.of_nat n))).

Definition planReply : string :=
  ("Here is the plan: ```json" ++ Js.nl ++
   json "{'thought':'a dashboard','plan':{'features':['charts'],'dataModels':[]}}"
   ++ Js.nl ++ "```")%string.
Definition designReply : string := "I would pick a dark theme.".
Definition architectReply : string :=
  json "{'file_system':[{'path':'src/app/page.tsx','type':'file'}]}".

(** The Coder leaves two placeholders in a file. *)
Definition placeholderCode : string :=
  json "{'files':[{'path':'src/app/page.tsx','content':'// TODO: x\n// Add more'}]}".

(** The first repair removes one placeholder, the later ones fix nothing. *)
Definition partialFix : string :=
  json "{'fixes':[{'file':'src/app/page.tsx','line':2,'before':'// Add more','after':''}]}".
Definition noFix : string := json "{'fixes':[]}".

Definition stuckEnv : Env Json.value :=
  envOf [planReply; designReply; architectReply; placeholderCode;
         partialFix; noFix; noFix].

(** The Patcher asks for human help at once. *)
Definition helpReply : string := json "{'request_human_help':true}".

Definition helpEnv : Env Json.value :=
  envOf [planReply; designReply; architectReply; placeholderCode; helpReply].

(** The Coder writes a placeholder into a file whose path spells a fatal
    pattern. *)
Definition fatalCode : string :=
  json "{'files':[{'path':'src/enomem.ts','content':'// TODO: x'}]}".

Definition fatalEnv : Env Json.value :=
  envOf [planReply; designReply; architectReply; fatalCode].

(** The service rejects the key, and the body of its reply is a page of
    HTML: [response.json()] throws. *)
Definition htmlUnauthorized : GeminiService.HttpReply :=
  GeminiService.unreadableReply 401
    "JSON.parse: unexpected character at line 1 column 1 of the JSON data".

(** The service rejects the key with a JSON body. *)
Definition jsonUnauthorized : GeminiService.HttpReply :=
  GeminiService.ErrorStatus 401 (GeminiService.mkErrorBody None None).

(** A gateway in front of the service gives up after 4010 ms. *)
Definition slowGateway : GeminiService.HttpReply :=
  GeminiService.ErrorStatus 504
    (GeminiService.mkErrorBody (Some "Deadline of 4010 ms exceeded") None).

(** The service is overloaded. *)
Definition overloaded : GeminiService.HttpReply :=
  GeminiService.ErrorStatus 503 (GeminiService.mkErrorBody None None).

(** The Patcher never finds a fix: every validation fails as the first one
    did. *)
Definition stagnantEnv : Env Json.value :=
  envOf [planReply; designReply; architectReply; placeholderCode;
         noFix; noFix; noFix].

(** The world in which its healing loop starts, and the outcome of its first
    validation. *)
Definition stagnantEntry : World :=
  loopEntry stagnantEnv
    (snd (generation stagnantEnv "build it" (started "build it" newOrchestrator))).

Definition stagnantResult : CompilationResult :=
  CompilationService.validateCode
    (projectState
       (snd (generation stagnantEnv "build it"
               (started "build it" newOrchestrator)))).

(** A run in simulation mode, without a key. *)
Definition simulationEnv : Env Json.value :=
  mkEnv Json.value Json.parse Reading.payloadOf
    (fun _ userPrompt _ => userPrompt) "You are Agentic Studio Pro."
    (mkConfig simulation true) None
    (fun _ _ => GeminiService.Throws GeminiService.OtherValue)
    (fun _ => false)
    (fun n => String.append "T" (Js.ofZ (Z.of_nat n))).

(** A reply with two fenced blocks, of which only the second is JSON. *)
Definition twoBlocks : string :=
  ("```json" ++ Js.nl ++ "not json" ++ Js.nl ++ "```" ++ Js.nl ++
   "```json" ++ Js.nl ++ "{}" ++ Js.nl ++ "```")%string.

(** A file in which the text to replace occurs twice, and a fix whose
    replacement holds a dollar followed by an apostrophe. *)
Definition labels : FileEntry :=
  mkFile "src/labels.ts" (Some "label(0); label(0);") file None.

Definition dollarFix : Fix :=
  mkFix "src/labels.ts" "1" "label(0)" "label('$' + 0)".

Definition labelsWorld : World :=
  set_projectState (projectWith [labels]) newOrchestrator.

(** A fix whose [before] is not in the file. *)
Definition missFix : Fix :=
  mkFix "src/labels.ts" "1" "caption(0)" "caption(1)".

(** An entry into the Patch phase. *)
Definition isPatchingEntry (e : Event) : bool :=
  match e with
  | onPhaseChange PATCHING => true
  | _ => false
  end.

(** The log entry of a repeated error. *)
Definition isStagnation (e : Event) : bool :=
  match e with
  | onLog l => Js.includes (message l) "Same error persists"
  | _ => false
  end.

(** The log entry of the exhausted healing loop. *)
Definition isEscalation (e : Event) : bool :=
  match e with
  | onLog l => Js.includes (message l) "Max healing iterations reached"
  | _ => false
  end.

(** The world in which the healing loop of the stuck run starts, and the
    outcome of its first validation. *)
Definition stuckEntry : World :=
  loopEntry stuckEnv
    (snd (generation stuckEnv "build it" (started "build it" newOrchestrator))).

Definition stuckResult : CompilationResult :=
  CompilationService.validateCode
    (projectState
       (snd (generation stuckEnv "build it"
               (started "build it" newOrchestrator)))).

End Scenario.


(* ================================================================= *)
(** ** Vocabulary of the further properties *)

Module Behaviour.
Import Types SimulationService Orchestrator Spec.

(** What a diagnostic of line [index] (from 0) of the file [p] says when it
    points into that line [l]. *)
Definition pointsInto (p : string) (index : nat) (l : string) (d : Diagnostic)
  : Prop :=
  e_file d = p /\ e_line d = (Z.of_nat index + 1)%Z /\
  (0 <= e_column d <= Z.of_nat (String.length l))%Z /\
  Js.truthy (e_message d) = true.

(** Every character of [s] is of the class [p]. *)
Fixpoint allChars (p : ascii -> bool) (s : string) : bool :=
  match s with
  | EmptyString => true
  | String c s' => p c && allChars p s'
  end.

(** The methods of the orchestrator that run inside the [try] of [start]. *)
Inductive method {J} (E : Env J) : M unit -> Prop :=
  | is_planning : method E (executePlanningPhase E)
  | is_design : method E (executeDesignPhase E)
  | is_architecture : method E (executeArchitecturePhase E)
  | is_coding : method E (executeCodingPhase E)
  | is_patching : method E (executePatchingPhase E)
  | is_healing : method E (executeCompilationAndHealing E)
  | is_aiWorkflow u : method E (runAIWorkflow E u)
  | is_simulation : method E (runSimulation E).

(** Those that run once the file tree is there. *)
Inductive writer {J} (E : Env J) : M unit -> Prop :=
  | writes_coding : writer E (executeCodingPhase E)
  | writes_patching : writer E (executePatchingPhase E)
  | writes_healing : writer E (executeCompilationAndHealing E).

(** What a part of the orchestrator may do besides bookkeeping: replace
    the file tree, heal (validate and count), ask the service. *)
Record Rights := mkRights {
  replaces : bool;
  heals : bool;
  asks : bool
}.

Definition everything : Rights := mkRights true true true.
Definition writing : Rights := mkRights false true true.
Definition generating : Rights := mkRights true false true.
Definition local : Rights := mkRights true true false.

(** The assignments to the project state: the status, the plan, the design
    system, the whole file tree (for who may replace it), an entry of the
    tree rewritten in place, a file appended under a new path, the flag of
    generated code, and for who may heal a terminal log appended and the
    healing counter. *)
Inductive assigns (r : Rights) : ProjectState -> ProjectState -> Prop :=
  | a_status s p : assigns r s (set_status p s)
  | a_plan s pl : assigns r s (set_plan pl s)
  | a_design s d : assigns r s (set_design_system d s)
  | a_tree s fs : replaces r = true -> assigns r s (set_file_system fs s)
  | a_rewrite s p c stamp :
      assigns r s
        (set_file_system
           (updateFirst p
              (fun e => mkFile (path e) c (f_type e) (Some stamp))
              (file_system s)) s)
  | a_append s p c stamp :
      findFile p (file_system s) = None ->
      assigns r s
        (set_file_system (file_system s ++ [mkFile p c file (Some stamp)]) s)
  | a_generated s : assigns r s (set_generatedCode true s)
  | a_record s t :
      heals r = true ->
      assigns r s (set_terminal_logs (terminal_logs s ++ [t]) s)
  | a_count s n : heals r = true -> assigns r s (set_iteration_count n s).

(** One change of the orchestrator: of fields that are only bookkeeping
    (the trace, the clocks, the current phase), [isRunning] set to false, a
    request counted (for who may ask), an exchange added to the history, an
    assignment to the project state. *)
Inductive moves (r : Rights) : World -> World -> Prop :=
  | m_view w w' :
      isRunning w' = isRunning w -> projectState w' = projectState w ->
      conversationHistory w' = conversationHistory w ->
      prompts w' = prompts w -> moves r w w'
  | m_stop w : moves r w (set_isRunning false w)
  | m_prompt w : asks r = true -> moves r w (set_prompts (S (prompts w)) w)
  | m_history w p t :
      moves r w
        (set_conversationHistory
           (conversationHistory w ++ [(user, p); (model, t)]) w)
  | m_state w s' :
      assigns r (projectState w) s' ->
      moves r w (set_projectState s' w).

Inductive reaches (r : Rights) : World -> World -> Prop :=
  | r_here w : reaches r w w
  | r_move w w1 w2 :
      moves r w w1 -> reaches r w1 w2 -> reaches r w w2.

(** The methods that run before the healing loop, and the simulation. *)
Inductive generator {J} (E : Env J) : M unit -> Prop :=
  | generates_planning : generator E (executePlanningPhase E)
  | generates_design : generator E (executeDesignPhase E)
  | generates_architecture : generator E (executeArchitecturePhase E)
  | generates_coding : generator E (executeCodingPhase E)
  | generates_simulation : generator E (runSimulation E).

(** The history entries of a list of exchanges (prompt, reply). *)
Definition exchanges (l : list (string * string)) : list (Role * string) :=
  flat_map (fun e => [(user, fst e); (model, snd e)]) l.

(** The path and the type of each entry, in order. *)
Definition layout (fs : list FileEntry) : list (string * FileType) :=
  map (fun f => (path f, f_type f)) fs.

(** The fields of the project state that stay as they are, and the two
    that only grow: the terminal logs and the flag of generated code. *)
Definition sameProject (s s' : ProjectState) : Prop :=
  name s' = name s /\ description s' = description s /\
  user_prompt s' = user_prompt s /\
  files s' = files s /\ dependencies s' = dependencies s /\
  max_iterations s' = max_iterations s /\
  (exists l, terminal_logs s' = terminal_logs s ++ l) /\
  (generatedCode s = true -> generatedCode s' = true).

(** The file tree keeps its entries in place, with their paths and types,
    and gains files under new paths; paths that were distinct stay so. *)
Definition sameLayout (fs fs' : list FileEntry) : Prop :=
  (exists added, layout fs' = layout fs ++ map (fun p => (p, file)) added) /\
  (NoDup (map path fs) -> NoDup (map path fs')).

(** A computation sends at most [n] prompts. *)
Definition costs (n : nat) {A} (m : M A) : Prop :=
  forall w, prompts (snd (m w)) <= prompts w + n.

Definition isStateUpdate (e : Event) : bool :=
  match e with
  | onStateUpdate _ => true
  | _ => false
  end.

(** The log entry of the thought of a reply, when it has one. *)
Definition thoughtEvents (agent : string) (p : Payload) : list Event :=
  match thought p with
  | Some t =>
      if Js.truthy t then [onLog (createLog agent ("💭 " ++ t) info None)]
      else []
  | None => []
  end.

(** The callbacks of a Patch phase whose reply asks for human help. *)
Definition helpTrace (p : Payload) : list Event :=
  [ onPhaseChange PATCHING;
    onLog (createLog "PATCHER"
             "🔍 Analyzing error logs (Abductive Reasoning)..." info None) ] ++
  thoughtEvents "PATCHER" p ++
  [ onLog (createLog "PATCHER"
             "🆘 Complex error detected. Human review recommended." error
             None) ].

(** The two callbacks of one step of the simulation. *)
Definition announce (st : Step) : list Event :=
  [onPhaseChange (phase st); onLog (SimulationService.log st)].

(** The callbacks of a workflow that was stopped during its first
    callback. *)
Definition stoppedTrace (userPrompt : string) : list Event :=
  [ onLog (createLog "SYSTEM"
             "🚀 Initializing Agentic Studio Pro - Closed-Loop Architecture"
             system None);
    onLog (createLog "SYSTEM"
             ("User Intent: " ++ Js.dq ++ userPrompt ++ Js.dq) info None);
    onPhaseChange READY;
    onLog (createLog "SYSTEM"
             "✅ Application ready! All agents completed successfully."
             success None);
    onComplete ].

End Behaviour.

(* ================================================================= *)
(** ** Further scenarios *)

Module Cases.
Import Types SimulationService Orchestrator Spec Scenario Behaviour.

(** An orchestrator in the mode [m] with a key, whose service answers as
    [net] says, and in which [stop()] is called when [stops] says. *)
Definition envWith (m : AgentMode) (key : option string)
  (net : nat -> nat -> GeminiService.HttpReply) (stops : nat -> bool)
  : Env Json.value :=
  mkEnv Json.value Json.parse Reading.payloadOf (fun _ userPrompt _ => userPrompt)
    "You are Agentic Studio Pro." (mkConfig m true) key net stops
    (fun n => ("T" ++ Js.ofZ (Z.of_nat n))%string).

Definition emptyBody : GeminiService.ErrorBody :=
  GeminiService.mkErrorBody None None.

(** Hybrid mode, and a service that rejects the key. *)
Definition refusedEnv : Env Json.value :=
  envWith hybrid (Some "key")
    (fun _ _ => GeminiService.ErrorStatus 401 emptyBody) (fun _ => false).

(** AI mode, and [stop()] called during the first callback. *)
Definition stoppedEnv : Env Json.value :=
  envWith ai (Some "key") (fun _ _ => GeminiService.Reply "{}")
    (fun t => (t =? 0)%nat).

(** Simulation mode without a key. *)
Definition demoEnv : Env Json.value :=
  envWith simulation None (fun _ _ => GeminiService.Throws GeminiService.OtherValue)
    (fun _ => false).

(** A running orchestrator whose project has one finished file. *)
Definition cleanWorld : World :=
  set_isRunning true
    (set_projectState
       (projectWith [mkFile "src/app/page.tsx" (Some "export default 1;") file None])
       newOrchestrator).

(** A project with one file that holds a placeholder text. *)
Definition loremFile : FileEntry :=
  mkFile "src/app/page.tsx" (Some "const title = 'Lorem ipsum';") file None.

(** A project with one file whose last line only closes a brace. *)
Definition bracesText : string :=
  "function f() {" ++ Js.nl ++ "  return 1;" ++ Js.nl ++ "}".
Definition bracesFile : FileEntry :=
  mkFile "src/lib/utils.ts" (Some bracesText) file None.

(** A failed build that ran out of memory. *)
Definition outOfMemory : CompilationResult :=
  mkResult false EmptyString "Error: EnoMem while bundling" 1 None.

(** The body of a refusal that names the key, a service that always
    refuses with it and the status 403, and one that does with the status
    400. *)
Definition keyBody : GeminiService.ErrorBody :=
  GeminiService.mkErrorBody
    (Some "API key not valid. Please pass a valid API key.") None.
Definition forbidden (k : nat) : GeminiService.HttpReply :=
  GeminiService.ErrorStatus 403 keyBody.
Definition badRequest (k : nat) : GeminiService.HttpReply :=
  GeminiService.ErrorStatus 400 keyBody.

(** A function that always throws something that is not an [Error]. *)
Definition alwaysThrows (k : nat) : GeminiService.Outcome string :=
  GeminiService.Threw GeminiService.OtherValue.

(** A fix with a plain replacement, and one for a file that is not there. *)
Definition plainFix : Fix := mkFix "src/labels.ts" "1" "label(0)" "tag(0)".
Definition strayFix : Fix := mkFix "src/missing.ts" "1" "a" "b".

(** A running orchestrator in the scenario of the request for help, after
    its four generation phases. *)
Definition helpWorld : World :=
  set_prompts 4 (set_isRunning true labelsWorld).

(** Five replies in plain text, and an orchestrator that is running. *)
Definition fiveReplies : list string :=
  ["a plan"; "a palette"; "a tree"; "some code"; "ready"].
Definition runningWorld : World := set_isRunning true newOrchestrator.

(** The stuck run after its four generation phases. *)
Definition generated : World :=
  snd (generation stuckEnv "build it" (started "build it" newOrchestrator)).

(** A fenced reply. *)
Definition fencedBody : string := json "{'thought': 'ok'}".

End Cases.

(* ================================================================= *)
(** * Properties *)

(** ** Strings *)

Module JsFacts.
Import Js.

Lemma startsWith_empty s : startsWith s EmptyString = true.
Proof. destruct s; reflexivity. Qed.

Lemma indexFrom_shift s pat i :
  indexFrom i s pat = option_map (Nat.add i) (indexFrom 0 s pat).
Proof.
  revert i. induction s as [|c s IH]; intros i; cbn [indexFrom].
  - destruct (startsWith EmptyString pat); cbn [option_map];
      [f_equal; lia | reflexivity].
  - destruct (startsWith (String c s) pat); cbn [option_map];
      [f_equal; lia |].
    rewrite (IH (S i)), (IH 1).
    destruct (indexFrom 0 s pat); cbn [option_map];
      [f_equal; lia | reflexivity].
Qed.

Lemma includes_cons c s pat :
  includes (String c s) pat = startsWith (String c s) pat || includes s pat.
Proof.
  unfold includes; cbn [indexFrom].
  destruct (startsWith (String c s) pat); [reflexivity|].
  rewrite indexFrom_shift. destruct (indexFrom 0 s pat); reflexivity.
Qed.

Lemma includes_startsWith s pat :
  startsWith s pat = true -> includes s pat = true.
Proof.
  intros H. unfold includes. destruct s; cbn [indexFrom]; rewrite H; reflexivity.
Qed.

Lemma includes_tail c s pat :
  includes s pat = true -> includes (String c s) pat = true.
Proof. intros H. rewrite includes_cons, H. apply orb_true_r. Qed.

Lemma splitChar_nonempty sep s : splitChar sep s <> [].
Proof.
  destruct s as [|c s]; simpl; [discriminate|].
  destruct (Ascii.eqb c sep); [discriminate|].
  destruct (splitChar sep s); discriminate.
Qed.

(** A prefix without the separator lies within the first piece. *)
Lemma startsWith_first_piece sep pat : forall s,
  countChar sep pat = 0 ->
  startsWith s pat = true ->
  exists l rest, splitChar sep s = l :: rest /\ startsWith l pat = true.
Proof.
  induction pat as [|p pat IH]; intros s Hn Hs.
  - destruct (splitChar sep s) as [|l rest] eqn:E.
    + now apply splitChar_nonempty in E.
    + exists l, rest. split; [reflexivity | apply startsWith_empty].
  - destruct s as [|c s]; [discriminate|].
    simpl in Hs. apply andb_true_iff in Hs as [Hpc Hs].
    apply Ascii.eqb_eq in Hpc; subst c.
    simpl in Hn.
    destruct (Ascii.eqb p sep) eqn:Ep; [discriminate|].
    destruct (IH s Hn Hs) as (l & rest & El & Hl).
    simpl. rewrite Ep, El.
    exists (String p l), rest. split; [reflexivity|].
    simpl. now rewrite Ascii.eqb_refl.
Qed.

(** A text that includes a pattern without the separator has a piece that
    includes it. *)
Lemma includes_piece sep pat : forall s,
  countChar sep pat = 0 ->
  includes s pat = true ->
  exists i l, nth_error (splitChar sep s) i = Some l /\ includes l pat = true.
Proof.
  induction s as [|c s IH]; intros Hn Hi.
  - exists 0, EmptyString. split; [reflexivity | exact Hi].
  - rewrite includes_cons in Hi. apply orb_true_iff in Hi as [Hs | Hi].
    + destruct (startsWith_first_piece sep pat _ Hn Hs) as (l & rest & El & Hl).
      exists 0, l. rewrite El. split; [reflexivity|].
      now apply includes_startsWith.
    + destruct (IH Hn Hi) as (i & l & Hnth & Hl).
      simpl. destruct (Ascii.eqb c sep).
      * exists (S i), l. split; assumption.
      * destruct (splitChar sep s) as [|piece rest] eqn:E.
        { now apply splitChar_nonempty in E. }
        destruct i as [|i]; simpl in Hnth.
        -- injection Hnth as ->. exists 0, (String c l).
           split; [reflexivity | now apply includes_tail].
        -- exists (S i), l. split; assumption.
Qed.

Lemma replace_absent s pat replacement :
  includes s pat = false -> replace s pat replacement = s.
Proof.
  unfold includes, replace.
  destruct (indexFrom 0 s pat); [discriminate | reflexivity].
Qed.

Lemma substitution_plain matched before after : forall replacement,
  countChar "$"%char replacement = 0 ->
  substitution matched before after replacement = replacement.
Proof.
  induction replacement as [|c r IH]; intros H; [reflexivity|].
  simpl in *. destruct (Ascii.eqb c "$"%char); [discriminate|].
  now rewrite IH.
Qed.

Lemma take_app a b : take (String.length a) (a ++ b) = a.
Proof. induction a as [|c a IH]; simpl; [destruct b; reflexivity | now rewrite IH]. Qed.

Lemma drop_app a b : drop (String.length a) (a ++ b) = b.
Proof. induction a as [|c a IH]; simpl; [reflexivity | exact IH]. Qed.

Lemma drop_past a n s : drop (String.length a + n) (a ++ s) = drop n s.
Proof. induction a as [|c a IH]; simpl; [reflexivity | exact IH]. Qed.

Lemma length_append a b :
  String.length (a ++ b) = String.length a + String.length b.
Proof. induction a as [|c a IH]; simpl; [reflexivity | now rewrite IH]. Qed.

Lemma append_assoc a b c : ((a ++ b) ++ c)%string = (a ++ b ++ c)%string.
Proof. induction a as [|x a IH]; simpl; [reflexivity | now rewrite IH]. Qed.

(** Replacing with a text that has no dollar puts that text where the
    leftmost occurrence was, and leaves the rest as it is. *)
Lemma replace_leftmost a pat b replacement :
  indexFrom 0 (a ++ pat ++ b) pat = Some (String.length a) ->
  countChar "$"%char replacement = 0 ->
  replace (a ++ pat ++ b) pat replacement = (a ++ replacement ++ b)%string.
Proof.
  intros Hi Hd. unfold replace. rewrite Hi.
  rewrite take_app, substitution_plain by assumption.
  rewrite drop_past, drop_app. reflexivity.
Qed.


Lemma startsWith_app p r : startsWith (p ++ r) p = true.
Proof.
  induction p as [|c p IH]; cbn [String.append startsWith];
    [apply startsWith_empty|].
  now rewrite Ascii.eqb_refl, IH.
Qed.

Lemma indexFrom_here pat r : indexFrom 0 (pat ++ r) pat = Some 0.
Proof.
  pose proof (startsWith_app pat r) as H.
  destruct (pat ++ r)%string; cbn [indexFrom]; now rewrite H.
Qed.

Lemma countChar_app c a b :
  countChar c (a ++ b) = countChar c a + countChar c b.
Proof.
  induction a as [|d a IH]; cbn [String.append countChar]; [reflexivity|].
  rewrite IH. lia.
Qed.

(** *** White space *)

Ltac bytes :=
  unfold isSpace, isSpace2, isSpace3, isContinuation in *; cbv zeta in *;
  repeat rewrite ?andb_true_iff, ?orb_true_iff, ?andb_false_iff,
    ?orb_false_iff, ?Nat.eqb_eq, ?Nat.eqb_neq, ?Nat.leb_le, ?Nat.leb_gt in *;
  lia.

Lemma space_not_continuation a : isSpace a = true -> isContinuation a = false.
Proof. intros H. bytes. Qed.

Lemma space2_lead a b : isSpace2 a b = true -> isContinuation a = false.
Proof. intros H. bytes. Qed.

Lemma space3_lead a b c : isSpace3 a b c = true -> isContinuation a = false.
Proof. intros H. bytes. Qed.

Lemma not_space2 a b : isContinuation b = false -> isSpace2 a b = false.
Proof. intros H. bytes. Qed.

Lemma not_space3_mid a b c : isContinuation b = false -> isSpace3 a b c = false.
Proof. intros H. bytes. Qed.

Lemma not_space3_last a b c : isContinuation c = false -> isSpace3 a b c = false.
Proof. intros H. bytes. Qed.

Lemma trimStart_cons a s1 :
  trimStart (String a s1) =
    if isSpace a then trimStart s1
    else
      match s1 with
      | EmptyString => String a s1
      | String b s2 =>
          if isSpace2 a b then trimStart s2
          else
            match s2 with
            | EmptyString => String a s1
            | String c s3 =>
                if isSpace3 a b c then trimStart s3 else String a s1
            end
      end.
Proof. reflexivity. Qed.


Lemma isBlank_cons_space a s : isSpace a = true -> isBlank (String a s) = isBlank s.
Proof. intros H. unfold isBlank. now rewrite trimStart_cons, H. Qed.

Lemma trimStart_length : forall n s,
  String.length s <= n -> String.length (trimStart s) <= String.length s.
Proof.
  induction n as [|n IH]; intros s Hn.
  - destruct s; [cbn; lia | cbn in Hn; lia].
  - destruct s as [|a s1]; [cbn; lia|].
    rewrite trimStart_cons. cbn [String.length] in *.
    destruct (isSpace a); [pose proof (IH s1 ltac:(lia)); lia|].
    destruct s1 as [|b s2]; [cbn; lia|]. cbn [String.length] in *.
    destruct (isSpace2 a b); [pose proof (IH s2 ltac:(lia)); lia|].
    destruct s2 as [|c s3]; [cbn; lia|]. cbn [String.length] in *.
    destruct (isSpace3 a b c); [pose proof (IH s3 ltac:(lia)); lia|].
    cbn [String.length]. lia.
Qed.

Lemma trimStart_shorter s : String.length (trimStart s) <= String.length s.
Proof. now apply (trimStart_length (String.length s)). Qed.

(** What [trimStart] does to a text that goes on with [r]: when [y] is
    white space it goes on into [r], and when it is not and [r] does not
    start inside a character, it stops where it stops in [y]. *)
Lemma trimStart_app_aux : forall n y r,
  String.length y <= n ->
  (isBlank y = true \/
   forall c r', r = String c r' -> isContinuation c = false) ->
  trimStart (y ++ r) =
    match trimStart y with
    | EmptyString => trimStart r
    | String c t => (String c t ++ r)%string
    end.
Proof.
  induction n as [|n IH]; intros y r Hn Hc.
  - destruct y; [reflexivity | cbn in Hn; lia].
  - destruct y as [|a y1]; [reflexivity|].
    cbn [String.append String.length] in *. rewrite !trimStart_cons.
    destruct (isSpace a) eqn:Ea.
    { apply IH; [lia|]. destruct Hc as [Hb | Hc]; [left | now right].
      now rewrite (isBlank_cons_space a y1 Ea) in Hb. }
    destruct y1 as [|b y2]; cbn [String.append String.length] in *.
    { destruct Hc as [Hb | Hc].
      { unfold isBlank in Hb. rewrite trimStart_cons, Ea in Hb. discriminate. }
      destruct r as [|b r2]; [reflexivity|].
      specialize (Hc b r2 eq_refl).
      rewrite (not_space2 a b Hc).
      destruct r2 as [|c r3]; [reflexivity|].
      now rewrite (not_space3_mid a b c Hc). }
    destruct (isSpace2 a b) eqn:E2.
    { apply IH; [lia|]. destruct Hc as [Hb | Hc]; [left | now right].
      unfold isBlank in *. now rewrite trimStart_cons, Ea, E2 in Hb. }
    destruct y2 as [|c y3]; cbn [String.append String.length] in *.
    { destruct Hc as [Hb | Hc].
      { unfold isBlank in Hb. rewrite trimStart_cons, Ea, E2 in Hb.
        discriminate. }
      destruct r as [|c r3]; [reflexivity|].
      specialize (Hc c r3 eq_refl).
      now rewrite (not_space3_last a b c Hc). }
    destruct (isSpace3 a b c) eqn:E3.
    { apply IH; [lia|]. destruct Hc as [Hb | Hc]; [left | now right].
      unfold isBlank in *. now rewrite trimStart_cons, Ea, E2, E3 in Hb. }
    reflexivity.
Qed.

(** A greedy [\s*] runs through white space. *)
Lemma trimStart_blank ws r :
  isBlank ws = true -> trimStart (ws ++ r) = trimStart r.
Proof.
  intros H.
  rewrite (trimStart_app_aux (String.length ws) ws r (le_n _) (or_introl H)).
  unfold isBlank in H. now destruct (trimStart ws).
Qed.

Lemma blank_head a r : isBlank (String a r) = true -> isContinuation a = false.
Proof.
  unfold isBlank. rewrite trimStart_cons.
  destruct (isSpace a) eqn:Ea; [intros _; now apply space_not_continuation|].
  destruct r as [|b r2]; [discriminate|].
  destruct (isSpace2 a b) eqn:E2; [intros _; now apply (space2_lead a b)|].
  destruct r2 as [|c r3]; [discriminate|].
  destruct (isSpace3 a b c) eqn:E3; [intros _; now apply (space3_lead a b c)|].
  discriminate.
Qed.

(** It stops at what is not white space, whatever white space or fence
    follows. *)
Lemma trimStart_stops y r :
  (forall c r', r = String c r' -> isContinuation c = false) ->
  y <> EmptyString -> trimStart y = y -> trimStart (y ++ r) = (y ++ r)%string.
Proof.
  intros Hc Hy Ht.
  rewrite (trimStart_app_aux (String.length y) y r (le_n _) (or_intror Hc)), Ht.
  destruct y; [congruence | reflexivity].
Qed.

Lemma isBlank_app y ws : isBlank ws = true -> isBlank (y ++ ws) = isBlank y.
Proof.
  intros H. unfold isBlank.
  rewrite (trimStart_app_aux (String.length y) y ws (le_n _)).
  - destruct (trimStart y); [| reflexivity].
    unfold isBlank in H. now destruct (trimStart ws).
  - right. intros c r' ->. now apply (blank_head c r').
Qed.

Lemma trimEnd_blank ws : isBlank ws = true -> trimEnd ws = EmptyString.
Proof. intros H. destruct ws; cbn [trimEnd]; [reflexivity | now rewrite H]. Qed.

(** The white space before a closing fence is not part of the capture. *)
Lemma trimEnd_app_blank x ws :
  isBlank ws = true -> trimEnd (x ++ ws) = trimEnd x.
Proof.
  intros H. induction x as [|c x IH]; cbn [String.append].
  - now apply trimEnd_blank.
  - cbn [trimEnd].
    change (String c (x ++ ws)) with ((String c x) ++ ws)%string.
    now rewrite (isBlank_app (String c x) ws H), IH.
Qed.

(** What [trimStart] and [trimEnd] remove is white space. *)
Lemma trimStart_split : forall n s,
  String.length s <= n ->
  exists ws, s = (ws ++ trimStart s)%string /\ isBlank ws = true.
Proof.
  induction n as [|n IH]; intros s Hn.
  - destruct s; [now exists EmptyString | cbn in Hn; lia].
  - destruct s as [|a s1]; [now exists EmptyString|].
    cbn [String.length] in Hn. rewrite trimStart_cons.
    destruct (isSpace a) eqn:Ea.
    { destruct (IH s1 ltac:(lia)) as (ws & Hs & Hb).
      exists (String a ws). cbn [String.append]. split; [now rewrite <- Hs|].
      now rewrite (isBlank_cons_space a ws Ea). }
    destruct s1 as [|b s2]; [now exists EmptyString|].
    cbn [String.length] in Hn.
    destruct (isSpace2 a b) eqn:E2.
    { destruct (IH s2 ltac:(lia)) as (ws & Hs & Hb).
      exists (String a (String b ws)). cbn [String.append].
      split; [now rewrite <- Hs|].
      unfold isBlank in *. now rewrite trimStart_cons, Ea, E2. }
    destruct s2 as [|c s3]; [now exists EmptyString|].
    cbn [String.length] in Hn.
    destruct (isSpace3 a b c) eqn:E3.
    { destruct (IH s3 ltac:(lia)) as (ws & Hs & Hb).
      exists (String a (String b (String c ws))). cbn [String.append].
      split; [now rewrite <- Hs|].
      unfold isBlank in *. now rewrite trimStart_cons, Ea, E2, E3. }
    now exists EmptyString.
Qed.

Lemma trimStart_idempotent : forall n s,
  String.length s <= n -> trimStart (trimStart s) = trimStart s.
Proof.
  induction n as [|n IH]; intros s Hn.
  - destruct s; [reflexivity | cbn in Hn; lia].
  - destruct s as [|a s1]; [reflexivity|].
    cbn [String.length] in Hn. rewrite (trimStart_cons a s1).
    destruct (isSpace a) eqn:Ea; [apply IH; lia|].
    destruct s1 as [|b s2].
    { now rewrite trimStart_cons, Ea. }
    cbn [String.length] in Hn.
    destruct (isSpace2 a b) eqn:E2; [apply IH; lia|].
    destruct s2 as [|c s3].
    { now rewrite trimStart_cons, Ea, E2. }
    cbn [String.length] in Hn.
    destruct (isSpace3 a b c) eqn:E3; [apply IH; lia|].
    now rewrite trimStart_cons, Ea, E2, E3.
Qed.

Lemma trimEnd_split s :
  exists ws, s = (trimEnd s ++ ws)%string /\ isBlank ws = true.
Proof.
  induction s as [|c s IH]; [now exists EmptyString|].
  cbn [trimEnd]. destruct (isBlank (String c s)) eqn:Hb.
  - now exists (String c s).
  - destruct IH as (ws & Hs & Hw). exists ws. cbn [String.append].
    split; [now rewrite <- Hs | exact Hw].
Qed.

Lemma trimEnd_idempotent s : trimEnd (trimEnd s) = trimEnd s.
Proof.
  destruct (trimEnd_split s) as (ws & Hs & Hw).
  rewrite Hs at 2. now rewrite (trimEnd_app_blank _ ws Hw).
Qed.

(** A text at whose start [trimStart] stops has no white space at the
    start of a prefix either. *)
Lemma trimStart_prefix x y :
  x <> EmptyString ->
  trimStart (x ++ y) = (x ++ y)%string -> trimStart x = x.
Proof.
  intros Hx H.
  assert (Hl : forall s t : string,
             trimStart (x ++ y) = trimStart s -> (x ++ y)%string = (t ++ s)%string ->
             t = EmptyString).
  { intros s t Hs Ht. pose proof (trimStart_shorter s) as Hle.
    rewrite <- Hs, H, Ht in Hle. rewrite length_append in Hle.
    destruct t; [reflexivity | cbn in Hle; lia]. }
  destruct x as [|a x1]; [congruence|].
  cbn [String.append] in *. rewrite trimStart_cons in H |- *.
  destruct (isSpace a) eqn:Ea.
  { specialize (Hl (x1 ++ y)%string (String a EmptyString)).
    rewrite trimStart_cons, Ea in Hl. discriminate (Hl eq_refl eq_refl). }
  destruct x1 as [|b x2]; [reflexivity|].
  cbn [String.append] in *.
  destruct (isSpace2 a b) eqn:E2.
  { specialize (Hl (x2 ++ y)%string (String a (String b EmptyString))).
    rewrite trimStart_cons, Ea, E2 in Hl. discriminate (Hl eq_refl eq_refl). }
  destruct x2 as [|c x3]; [reflexivity|].
  cbn [String.append] in *.
  destruct (isSpace3 a b c) eqn:E3; [|reflexivity].
  specialize (Hl (x3 ++ y)%string (String a (String b (String c EmptyString)))).
  rewrite trimStart_cons, Ea, E2, E3 in Hl. discriminate (Hl eq_refl eq_refl).
Qed.

(** White space holds no backquote. *)
Lemma blank_no_tick : forall n ws,
  String.length ws <= n -> isBlank ws = true -> countChar "`" ws = 0.
Proof.
  assert (Ht : forall a, isContinuation a = false \/ isContinuation a = true).
  { intros a. destruct (isContinuation a); auto. }
  induction n as [|n IH]; intros ws Hn Hb.
  - destruct ws; [reflexivity | cbn in Hn; lia].
  - destruct ws as [|a s1]; [reflexivity|].
    cbn [String.length] in Hn. unfold isBlank in Hb.
    rewrite trimStart_cons in Hb.
    assert (Hq : forall x, (nat_of_ascii x <> 96) -> Ascii.eqb x "`" = false).
    { intros x Hx. apply Ascii.eqb_neq. intros ->. now apply Hx. }
    destruct (isSpace a) eqn:Ea.
    { cbn [countChar]. rewrite (Hq a) by bytes.
      rewrite (IH s1); [reflexivity | lia | exact Hb]. }
    destruct s1 as [|b s2]; [discriminate|]. cbn [String.length] in Hn.
    destruct (isSpace2 a b) eqn:E2.
    { cbn [countChar]. rewrite (Hq a), (Hq b) by bytes.
      rewrite (IH s2); [reflexivity | lia | exact Hb]. }
    destruct s2 as [|c s3]; [discriminate|]. cbn [String.length] in Hn.
    destruct (isSpace3 a b c) eqn:E3; [|discriminate].
    cbn [countChar]. rewrite (Hq a), (Hq b), (Hq c) by bytes.
    rewrite (IH s3); [reflexivity | lia | exact Hb].
Qed.

Lemma startsWith_split : forall pat s,
  startsWith s pat = true -> s = (pat ++ drop (String.length pat) s)%string.
Proof.
  induction pat as [|p pat IH]; intros s H; [reflexivity|].
  destruct s as [|c s]; [discriminate|].
  cbn [startsWith] in H. apply andb_true_iff in H as [Hc Hs].
  apply Ascii.eqb_eq in Hc. subst c.
  cbn [String.length drop String.append]. f_equal. now apply IH.
Qed.

(** The text around the leftmost occurrence of a pattern. *)
Lemma indexFrom_split pat : forall s i,
  indexFrom 0 s pat = Some i ->
  s = (take i s ++ pat ++ drop (i + String.length pat) s)%string /\
  String.length (take i s) = i.
Proof.
  induction s as [|c s IH]; intros i H; cbn [indexFrom] in H.
  - destruct (startsWith EmptyString pat) eqn:Hs; [|discriminate].
    injection H as <-. split; [|reflexivity].
    exact (startsWith_split pat EmptyString Hs).
  - destruct (startsWith (String c s) pat) eqn:Hs.
    + injection H as <-. split; [|reflexivity].
      exact (startsWith_split pat (String c s) Hs).
    + rewrite indexFrom_shift in H.
      destruct (indexFrom 0 s pat) as [k|]; [|discriminate].
      injection H as <-. destruct (IH k eq_refl) as [Hk Hl].
      cbn [Nat.add take drop String.append String.length].
      split; [now rewrite <- Hk | now rewrite Hl].
Qed.

(** An occurrence of a pattern that starts with [c] does not start in a
    text without [c]. *)
Lemma indexFrom_skip c pat a x :
  countChar c a = 0 ->
  indexFrom 0 (a ++ x) (String c pat) =
    option_map (Nat.add (String.length a)) (indexFrom 0 x (String c pat)).
Proof.
  intros Ha. induction a as [|d a IH]; cbn [String.append String.length].
  - now destruct (indexFrom 0 x (String c pat)).
  - cbn [countChar] in Ha. destruct (Ascii.eqb d c) eqn:Hd; [lia|].
    cbn [indexFrom startsWith]. rewrite Ascii.eqb_sym, Hd. cbn [andb].
    rewrite indexFrom_shift, IH by lia.
    destruct (indexFrom 0 x (String c pat)); reflexivity.
Qed.

Lemma trimEnd_shorter s : String.length (trimEnd s) <= String.length s.
Proof.
  destruct (trimEnd_split s) as (ws & Hs & _).
  rewrite Hs at 2. rewrite length_append. lia.
Qed.

Lemma trim_fixed s : trim s = s -> trimStart s = s /\ trimEnd s = s.
Proof.
  unfold trim. intros H.
  assert (Hs : trimStart s = s).
  { destruct (trimStart_split (String.length s) s (le_n _)) as (ws & Hw & _).
    pose proof (trimEnd_shorter (trimStart s)) as H1. rewrite H in H1.
    assert (Hl : String.length s = String.length ws + String.length (trimStart s)).
    { rewrite Hw at 1. apply length_append. }
    destruct ws; [exact (eq_sym Hw) | cbn [String.length] in Hl; lia]. }
  split; [exact Hs | now rewrite Hs in H].
Qed.

Lemma trim_trimEnd s : trimStart s = s -> trim (trimEnd s) = trimEnd s.
Proof.
  intros Hs. unfold trim.
  assert (Ht : trimStart (trimEnd s) = trimEnd s).
  { destruct (trimEnd_split s) as (ws & Hw & _).
    destruct (trimEnd s) as [|c t] eqn:He; [reflexivity|].
    apply (trimStart_prefix (String c t) ws); [discriminate|].
    now rewrite <- Hw. }
  now rewrite Ht, trimEnd_idempotent.
Qed.

End JsFacts.

(** ** The validator *)

Module ValidatorFacts.
Import Types CompilationService Scenario JsFacts.

Lemma filter_todo_import p n l :
  filter forTodoMarker (importErrors p n l) = [].
Proof.
  unfold importErrors.
  repeat match goal with
         | |- context [Js.includes l ?x] => destruct (Js.includes l x)
         end; reflexivity.
Qed.

Lemma filter_todo_brace p n l :
  filter forTodoMarker (braceErrors p n l) = [].
Proof.
  unfold braceErrors.
  destruct (negb _ && _); reflexivity.
Qed.

Lemma filter_todo_semicolon p n l :
  filter forTodoMarker (semicolonErrors p n l) = [].
Proof.
  unfold semicolonErrors.
  destruct (_ && _ && _); reflexivity.
Qed.

Lemma filter_todo_lazy p i l :
  Js.includes l todoMarker = true ->
  filter forTodoMarker (lazyErrors p (Z.of_nat i + 1) l) = [todoDiagnostic p i l].
Proof.
  intros H. unfold lazyErrors, lazyPatterns. cbn [flat_map].
  change "// TODO:" with todoMarker. rewrite H.
  repeat match goal with
         | |- context [Js.includes l ?x] =>
             lazymatch x with
             | todoMarker => fail
             | _ => destruct (Js.includes l x)
             end
         end; reflexivity.
Qed.

(** On a line with the marker, exactly one diagnostic is for the marker. *)
Lemma analyzeLine_todo p i l :
  Js.includes l todoMarker = true ->
  filter forTodoMarker (analyzeLine p i l) = [todoDiagnostic p i l].
Proof.
  intros H. unfold analyzeLine. rewrite !filter_app.
  rewrite filter_todo_import, filter_todo_brace, filter_todo_semicolon,
    (filter_todo_lazy _ _ _ H).
  reflexivity.
Qed.

Lemma in_analyzeLines p d : forall ls k i l,
  nth_error ls i = Some l ->
  In d (analyzeLine p (k + i) l) ->
  In d (analyzeLines p k ls).
Proof.
  induction ls as [|x ls IH]; intros k i l Hn Hd.
  - destruct i; discriminate.
  - simpl. apply in_or_app. destruct i as [|i]; simpl in Hn.
    + injection Hn as ->. left. now rewrite Nat.add_0_r in Hd.
    + right. apply (IH (S k) i l Hn). now rewrite Nat.add_succ_comm.
Qed.

Lemma in_staticAnalysis st f c d :
  In f (file_system st) -> analysed f = Some c ->
  In d (analyzeFile (path f) c) -> In d (staticAnalysis st).
Proof.
  intros Hf Ha Hd. unfold staticAnalysis. apply in_flat_map.
  exists f. split; [assumption|]. now rewrite Ha.
Qed.

Lemma validateCode_failure st d :
  In d (staticAnalysis st) ->
  validateCode st =
    mkResult false ("Build started..." ++ Js.nl ++ "Analyzing files...")
      (Js.join Js.nl (map formatError (staticAnalysis st))) 1
      (Some (staticAnalysis st)).
Proof.
  intros H. unfold validateCode, validationResult.
  destruct (staticAnalysis st) as [|x xs]; [destruct H | reflexivity].
Qed.

Lemma validateCode_success st :
  r_success (validateCode st) = true -> staticAnalysis st = [].
Proof.
  unfold validateCode, validationResult. destruct (staticAnalysis st); [reflexivity | discriminate].
Qed.

(** Scenario A itself: one diagnostic, of kind syntax, exit code 1. *)
Example scenarioA_result :
  validateCode scenarioA =
    mkResult false ("Build started..." ++ Js.nl ++ "Analyzing files...")
      (formatError (todoDiagnostic "src/app/page.tsx" 0 "// TODO: implement"))
      1 (Some [todoDiagnostic "src/app/page.tsx" 0 "// TODO: implement"]).
Proof. reflexivity. Qed.

Lemma filter_todo_unmarked p n l :
  Js.includes l todoMarker = false ->
  filter forTodoMarker (lazyErrors p n l) = [].
Proof.
  intros H. unfold lazyErrors, lazyPatterns. cbn [flat_map].
  change "// TODO:" with todoMarker. rewrite H.
  repeat match goal with
         | |- context [Js.includes l ?x] =>
             lazymatch x with
             | todoMarker => fail
             | _ => destruct (Js.includes l x)
             end
         end; reflexivity.
Qed.

(** On a line without the marker, no diagnostic is for the marker. *)
Lemma analyzeLine_unmarked p i l :
  Js.includes l todoMarker = false ->
  filter forTodoMarker (analyzeLine p i l) = [].
Proof.
  intros H. unfold analyzeLine. rewrite !filter_app.
  now rewrite filter_todo_import, filter_todo_brace, filter_todo_semicolon,
    (filter_todo_unmarked _ _ _ H).
Qed.

Lemma analyzeLines_marked p : forall ls k,
  filter forTodoMarker (analyzeLines p k ls) = markedLines p k ls.
Proof.
  induction ls as [|l ls IH]; intros k; [reflexivity|].
  cbn [analyzeLines markedLines]. rewrite filter_app, IH. f_equal.
  destruct (Js.includes l todoMarker) eqn:Hl.
  - now apply analyzeLine_todo.
  - now apply analyzeLine_unmarked.
Qed.

Lemma filter_flat_map {A B} (p : B -> bool) (g : A -> list B) : forall l,
  filter p (flat_map g l) = flat_map (fun x => filter p (g x)) l.
Proof.
  induction l as [|x l IH]; [reflexivity|].
  cbn [flat_map]. now rewrite filter_app, IH.
Qed.

(** The diagnostics of the analysis that are for the marker. *)
Lemma staticAnalysis_marked st :
  filter forTodoMarker (staticAnalysis st) = todoDiagnostics st.
Proof.
  unfold staticAnalysis, todoDiagnostics. rewrite filter_flat_map.
  apply flat_map_ext. intros f.
  destruct (analysed f) as [c|]; [| reflexivity].
  apply analyzeLines_marked.
Qed.

Lemma markedLines_syntax p : forall ls k,
  Forall (fun d => e_type d = ErrSyntax) (markedLines p k ls).
Proof.
  induction ls as [|l ls IH]; intros k; cbn [markedLines]; [constructor|].
  apply Forall_app. split; [| apply IH].
  destruct (Js.includes l todoMarker); repeat constructor.
Qed.

(** C6, as the code has it.  In a project state with an entry of type file
    whose path ends in .ts, .tsx, .js or .jsx and whose content includes the
    marker [// TODO:], [validateCode] fails with exit code 1, and its
    diagnostics for the marker are exactly these, in this order: for each
    entry that the analysis looks at, one for each line that includes the
    marker, of kind syntax, at that path and line, at the column of the
    marker in the line.  The entry itself has such a line. *)
Theorem validateCode_todo_marker (st : ProjectState) (f : FileEntry) (c : string) :
  In f (file_system st) ->
  f_type f = file ->
  isCodePath (path f) = true ->
  content f = Some c ->
  Js.includes c todoMarker = true ->
  r_success (validateCode st) = false /\
  exit_code (validateCode st) = 1%Z /\
  exists ds,
    errors (validateCode st) = Some ds /\
    filter forTodoMarker ds = todoDiagnostics st /\
    Forall (fun d => e_type d = ErrSyntax) (todoDiagnostics st) /\
    (exists i l, nth_error (Js.lines c) i = Some l /\
                 Js.includes l todoMarker = true) /\
    (forall i l,
        nth_error (Js.lines c) i = Some l ->
        Js.includes l todoMarker = true ->
        In (todoDiagnostic (path f) i l) ds).
Proof.
  intros Hf Ht Hp Hc Hi.
  assert (Ha : analysed f = Some c).
  { unfold analysed. rewrite Ht, Hc, Hp.
    destruct c; [discriminate Hi | reflexivity]. }
  assert (Hline : forall i l, nth_error (Js.lines c) i = Some l ->
            Js.includes l todoMarker = true ->
            In (todoDiagnostic (path f) i l) (staticAnalysis st)).
  { intros i l Hn Hl. apply (in_staticAnalysis st f c _ Hf Ha).
    unfold analyzeFile. apply (in_analyzeLines _ _ _ 0 i l Hn).
    assert (Hin : In (todoDiagnostic (path f) i l)
                    (filter forTodoMarker (analyzeLine (path f) i l))).
    { rewrite (analyzeLine_todo _ _ _ Hl). now left. }
    apply filter_In in Hin. exact (proj1 Hin). }
  destruct (includes_piece (ascii_of_nat 10) todoMarker c eq_refl Hi)
    as (i0 & l0 & Hn0 & Hl0).
  pose proof (validateCode_failure st _ (Hline i0 l0 Hn0 Hl0)) as Hv.
  rewrite Hv. cbn [r_success exit_code errors].
  split; [reflexivity|]. split; [reflexivity|].
  exists (staticAnalysis st). split; [reflexivity|].
  split; [apply staticAnalysis_marked|]. split.
  { unfold todoDiagnostics. apply Forall_flat_map, Forall_forall.
    intros g _. destruct (analysed g); [apply markedLines_syntax | constructor]. }
  split; [now exists i0, l0 | exact Hline].
Qed.

Lemma validateCode_todo_marker_witness :
  r_success (validateCode scenarioA) = false /\
  exit_code (validateCode scenarioA) = 1%Z /\
  exists ds,
    errors (validateCode scenarioA) = Some ds /\
    filter forTodoMarker ds = todoDiagnostics scenarioA /\
    Forall (fun d => e_type d = ErrSyntax) (todoDiagnostics scenarioA) /\
    (exists i l, nth_error (Js.lines "// TODO: implement") i = Some l /\
                 Js.includes l todoMarker = true) /\
    (forall i l,
        nth_error (Js.lines "// TODO: implement") i = Some l ->
        Js.includes l todoMarker = true ->
        In (todoDiagnostic "src/app/page.tsx" i l) ds).
Proof.
  apply (validateCode_todo_marker scenarioA
           (mkFile "src/app/page.tsx" (Some "// TODO: implement") file None)
           "// TODO: implement").
  - left. reflexivity.
  - reflexivity.
  - reflexivity.
  - reflexivity.
  - reflexivity.
Defined.

(** C6 as stated fails, in two ways.  A source file whose content includes
    [TODO:], but not after a line-comment sign, validates with success and
    exit code 0.  And a source file with the marker on two lines gets two
    diagnostics for the marker, not exactly one. *)
Lemma validateCode_todo_claim_fails :
  ((exists f c,
       In f (file_system blockCommentTodo) /\ f_type f = file /\
       isCodePath (path f) = true /\ content f = Some c /\
       Js.truthy c = true /\ Js.includes c "TODO:" = true) /\
   r_success (validateCode blockCommentTodo) = true /\
   exit_code (validateCode blockCommentTodo) = 0%Z /\
   errors (validateCode blockCommentTodo) = None) /\
  ((exists f c,
       In f (file_system twoTodos) /\ f_type f = file /\
       isCodePath (path f) = true /\ content f = Some c /\
       Js.truthy c = true /\ Js.includes c "TODO:" = true) /\
   exists ds,
     errors (validateCode twoTodos) = Some ds /\
     filter forTodoMarker ds =
       [todoDiagnostic "src/app/page.tsx" 0 "// TODO: header";
        todoDiagnostic "src/app/page.tsx" 2 "// TODO: footer"] /\
     List.length (filter (fun d => match e_type d with
                                   | ErrSyntax => true
                                   | _ => false
                                   end) ds) = 2).
Proof.
  split; split.
  - exists (mkFile "src/notes.ts" (Some "const x = 1; /* TODO: later */") file None),
      "const x = 1; /* TODO: later */".
    repeat split; try reflexivity. left. reflexivity.
  - repeat split; reflexivity.
  - eexists. eexists. split; [left; reflexivity|].
    repeat split; reflexivity.
  - eexists. split; [reflexivity|]. split; reflexivity.
Qed.

End ValidatorFacts.

(** ** The orchestrator: what every method preserves *)

Module OrchestratorFacts.
Import Types SimulationService Orchestrator Spec.

Lemma run_bind {A B} (m : M A) (k : A -> M B) w :
  bind m k w =
    match m w with
    | (Done a, w') => k a w'
    | (Thrown e, w') => (Thrown e, w')
    | (Diverged, w') => (Diverged, w')
    end.
Proof. reflexivity. Qed.

Section Generic.
Variable R : World -> World -> Prop.
Hypothesis R_refl : forall w, R w w.
Hypothesis R_trans : forall a b c, R a b -> R b c -> R a c.
(** [R] only looks at the callbacks and at the project state; *)
Hypothesis R_frame : forall w w',
  trace w' = trace w -> projectState w' = projectState w -> R w w'.
(** it admits an update of the state that leaves the counter and its cap; *)
Hypothesis R_state : forall f w,
  (forall s, iteration_count (f s) = iteration_count s /\
             max_iterations (f s) = max_iterations s) ->
  R w (set_projectState (f (projectState w)) w).
(** and it admits a callback that is not terminal. *)
Hypothesis R_emit : forall e w,
  isTerminal e = false -> R w (set_trace (trace w ++ [e]) w).

Lemma keeps_ret {A} (a : A) : keeps R (ret a).
Proof. intros w. apply R_refl. Qed.

Lemma keeps_throw {A} e : keeps R (@throw A e).
Proof. intros w. apply R_refl. Qed.

Lemma keeps_diverge {A} : keeps R (@diverge A).
Proof. intros w. apply R_refl. Qed.

Lemma keeps_gets {A} (f : World -> A) : keeps R (gets f).
Proof. intros w. apply R_refl. Qed.

Lemma keeps_bind {A B} (m : M A) (k : A -> M B) :
  keeps R m -> (forall a, keeps R (k a)) -> keeps R (bind m k).
Proof.
  intros Hm Hk w. rewrite run_bind. specialize (Hm w).
  destruct (m w) as [[a | e |] w']; cbn [snd] in *; [|assumption..].
  eapply R_trans; [exact Hm | apply Hk].
Qed.

Lemma keeps_tryCatch {A} (m : M A) (h : string -> M A) :
  keeps R m -> (forall e, keeps R (h e)) -> keeps R (tryCatch m h).
Proof.
  intros Hm Hh w. unfold tryCatch. specialize (Hm w).
  destruct (m w) as [[a | e |] w']; cbn [snd] in *; [assumption | | assumption].
  eapply R_trans; [exact Hm | apply Hh].
Qed.

Lemma keeps_finally {A} (m : M A) (cleanup : World -> World) :
  keeps R m -> (forall w, R w (cleanup w)) -> keeps R (finally m cleanup).
Proof.
  intros Hm Hc w. unfold finally. specialize (Hm w).
  destruct (m w) as [c w']; cbn [snd] in *.
  eapply R_trans; [exact Hm | apply Hc].
Qed.

Lemma keeps_when b (m : M unit) : keeps R m -> keeps R (when b m).
Proof. intros H. destruct b; [exact H | apply keeps_ret]. Qed.

Lemma keeps_forEachIndexed {A} (body : nat -> A -> M unit) l : forall i,
  (forall i x, keeps R (body i x)) -> keeps R (forEachIndexed body i l).
Proof.
  induction l as [|x l IH]; intros i H; simpl.
  - apply keeps_ret.
  - apply keeps_bind; [apply H | intros _; now apply IH].
Qed.

Lemma keeps_frame (f : World -> World) :
  (forall w, trace (f w) = trace w /\ projectState (f w) = projectState w) ->
  keeps R (modify f).
Proof. intros H w. apply R_frame; apply H. Qed.

Lemma keeps_updateState f :
  (forall s, iteration_count (f s) = iteration_count s /\
             max_iterations (f s) = max_iterations s) ->
  keeps R (updateState f).
Proof. intros H w. now apply R_state. Qed.

Context {J : Type} (E : Env J).

Lemma keeps_tick : keeps R (tick E).
Proof.
  apply keeps_frame. intros w. destruct (stopAt E (ticks w)); split; reflexivity.
Qed.

Lemma keeps_emit e : isTerminal e = false -> keeps R (emit E e).
Proof.
  intros H. apply keeps_bind; [|intros _; apply keeps_tick].
  intros w. now apply R_emit.
Qed.

Lemma keeps_log a m t : keeps R (log E a m t).
Proof. now apply keeps_emit. Qed.

Lemma keeps_now : keeps R (now E).
Proof. intros w. apply R_frame; reflexivity. Qed.

Lemma keeps_awaitSendPrompt sp up h : keeps R (awaitSendPrompt E sp up h).
Proof.
  unfold awaitSendPrompt.
  apply keeps_bind; [apply keeps_gets | intros c].
  apply keeps_bind; [apply keeps_frame; now split | intros _].
  apply keeps_bind; [apply keeps_tick | intros _].
  destruct (GeminiService.result _); [apply keeps_ret | apply keeps_throw].
Qed.

Lemma keeps_validate : keeps R (validate E).
Proof.
  unfold validate.
  apply keeps_bind; [apply keeps_gets | intros s].
  apply keeps_bind; [apply keeps_tick | intros _; apply keeps_ret].
Qed.

Lemma keeps_addToHistory u m : keeps R (addToHistory u m).
Proof. apply keeps_frame. now split. Qed.

Lemma keeps_notifyStateUpdate : keeps R (notifyStateUpdate E).
Proof.
  unfold notifyStateUpdate. destruct (hasStateUpdate _); [|apply keeps_ret].
  apply keeps_bind; [apply keeps_gets | intros s]. now apply keeps_emit.
Qed.

Lemma keeps_enterPhase p : keeps R (enterPhase E p).
Proof.
  unfold enterPhase.
  apply keeps_bind; [apply keeps_frame; now split | intros _].
  apply keeps_bind; [apply keeps_updateState; now split | intros _].
  now apply keeps_emit.
Qed.

Lemma keeps_ask p : keeps R (ask E p).
Proof.
  unfold ask.
  apply keeps_bind; [apply keeps_gets | intros s].
  apply keeps_bind; [apply keeps_gets | intros h].
  apply keeps_bind; [apply keeps_awaitSendPrompt | intros text; apply keeps_ret].
Qed.

Lemma keeps_logThought a p : keeps R (logThought E a p).
Proof.
  unfold logThought. destruct (thought p); [|apply keeps_ret].
  apply keeps_when, keeps_log.
Qed.

Lemma keeps_pushTerminalLog r : keeps R (pushTerminalLog E r).
Proof.
  unfold pushTerminalLog.
  apply keeps_bind; [apply keeps_now | intros stamp].
  apply keeps_updateState. now split.
Qed.

Ltac keeps_step :=
  lazymatch goal with
  | |- keeps _ (ret _) => apply keeps_ret
  | |- keeps _ (throw _) => apply keeps_throw
  | |- keeps _ (gets _) => apply keeps_gets
  | |- keeps _ (log _ _ _ _) => apply keeps_log
  | |- keeps _ (tick _) => apply keeps_tick
  | |- keeps _ (now _) => apply keeps_now
  | |- keeps _ (addToHistory _ _) => apply keeps_addToHistory
  | |- keeps _ (notifyStateUpdate _) => apply keeps_notifyStateUpdate
  | |- keeps _ (enterPhase _ _) => apply keeps_enterPhase
  | |- keeps _ (ask _ _) => apply keeps_ask
  | |- keeps _ (logThought _ _ _) => apply keeps_logThought
  | |- keeps _ (pushTerminalLog _ _) => apply keeps_pushTerminalLog
  | |- keeps _ (validate _) => apply keeps_validate
  | |- keeps _ (when _ _) => apply keeps_when
  | |- keeps _ (updateState _) =>
      apply keeps_updateState; intros ?; split; reflexivity
  | |- keeps _ (modify _) => apply keeps_frame; intros ?; split; reflexivity
  | |- keeps _ (emit _ _) => apply keeps_emit; reflexivity
  | |- keeps _ (forEachIndexed _ _ _) => apply keeps_forEachIndexed; intros ? ?
  | |- keeps _ (bind _ _) => apply keeps_bind; [| intros ?]
  | |- keeps _ (match ?x with _ => _ end) => destruct x
  end.

Lemma keeps_executePlanningPhase : keeps R (executePlanningPhase E).
Proof. unfold executePlanningPhase. repeat keeps_step. Qed.

Lemma keeps_executeDesignPhase : keeps R (executeDesignPhase E).
Proof. unfold executeDesignPhase. repeat keeps_step. Qed.

Lemma keeps_executeArchitecturePhase : keeps R (executeArchitecturePhase E).
Proof. unfold executeArchitecturePhase. repeat keeps_step. Qed.

Lemma keeps_mergeFile f : keeps R (mergeFile E f).
Proof. unfold mergeFile. repeat keeps_step. Qed.

Lemma keeps_executeCodingPhase : keeps R (executeCodingPhase E).
Proof.
  unfold executeCodingPhase. repeat keeps_step; apply keeps_mergeFile.
Qed.

Lemma keeps_applyFix i fx : keeps R (applyFix E i fx).
Proof. unfold applyFix. repeat keeps_step. Qed.

Lemma keeps_simulate steps : keeps R (simulate E steps).
Proof.
  induction steps as [|st steps IH]; simpl; repeat keeps_step. exact IH.
Qed.

Lemma keeps_runSimulation : keeps R (runSimulation E).
Proof. apply keeps_simulate. Qed.

Lemma keeps_determineMode : keeps R (determineMode E).
Proof. unfold determineMode. repeat keeps_step. Qed.

Section Healing.
(** [R] also admits the two assignments to the counter: the escalation to
    the cap, and the increment below the cap. *)
Hypothesis R_escalate : forall w,
  R w (set_projectState
         (set_iteration_count (max_iterations (projectState w)) (projectState w))
         w).
Hypothesis R_increment : forall w,
  (count w < cap w)%Z ->
  R w (set_projectState
         (set_iteration_count (iteration_count (projectState w) + 1)
            (projectState w)) w).

Lemma keeps_executePatchingPhase : keeps R (executePatchingPhase E).
Proof.
  unfold executePatchingPhase. repeat keeps_step.
  - intros w. apply R_escalate.
  - apply keeps_applyFix.
Qed.

(** [healingAttempt] from the world its increment makes. *)
Lemma keeps_afterIncrement result w :
  R (set_projectState
       (set_iteration_count (iteration_count (projectState w) + 1)
          (projectState w)) w)
    (snd (healingAttempt E result w)).
Proof.
  unfold healingAttempt. rewrite run_bind.
  unfold updateState at 1, modify at 1.
  match goal with
  | |- R ?w1 (snd (?m ?w1)) => enough (H : keeps R m) by apply H
  end.
  repeat keeps_step. apply keeps_executePatchingPhase.
Qed.

Lemma keeps_healingAttempt result w :
  (count w < cap w)%Z -> R w (snd (healingAttempt E result w)).
Proof.
  intros Hlt.
  eapply R_trans; [apply (R_increment w Hlt) | apply keeps_afterIncrement].
Qed.

Lemma keeps_healingLoop result : forall fuel,
  keeps R (healingLoop E fuel result).
Proof.
  induction fuel as [|fuel IH]; intros w; cbn [healingLoop];
    rewrite run_bind; cbn [gets];
    destruct ((iteration_count (projectState w) <? max_iterations (projectState w))%Z
              && negb (r_success result)) eqn:Hc;
    try apply R_refl.
  apply andb_true_iff in Hc as [Hlt _]. apply Z.ltb_lt in Hlt.
  rewrite run_bind.
  pose proof (keeps_healingAttempt result w Hlt) as Ha.
  destruct (healingAttempt E result w) as [[[|] | e |] w1]; cbn [snd] in *;
    try assumption.
  eapply R_trans; [exact Ha | apply IH].
Qed.

Lemma keeps_executeCompilationAndHealing :
  keeps R (executeCompilationAndHealing E).
Proof.
  unfold executeCompilationAndHealing. repeat keeps_step.
  apply keeps_healingLoop.
Qed.

Lemma keeps_runAIWorkflow u : keeps R (runAIWorkflow E u).
Proof.
  unfold runAIWorkflow.
  repeat first
    [ apply keeps_executePlanningPhase | apply keeps_executeDesignPhase
    | apply keeps_executeArchitecturePhase | apply keeps_executeCodingPhase
    | apply keeps_executeCompilationAndHealing | keeps_step ].
Qed.

(** The part of [start] inside its [try], before the terminal callback. *)
Lemma keeps_workflow u :
  keeps R
    (workflow E u).
Proof.
  unfold workflow.
  apply keeps_bind; [apply keeps_determineMode | intros m].
  destruct m.
  - apply keeps_runSimulation.
  - apply keeps_runAIWorkflow.
  - apply keeps_tryCatch; [apply keeps_runAIWorkflow | intros _].
    apply keeps_bind; [apply keeps_log | intros _; apply keeps_runSimulation].
Qed.

End Healing.

End Generic.

End OrchestratorFacts.

(** ** Three relations the methods preserve *)

Module Preserved.
Import Types SimulationService Orchestrator Spec OrchestratorFacts.

Lemma quiet_refl w : quiet w w.
Proof. exists []. split; [now rewrite app_nil_r | reflexivity]. Qed.

Lemma quiet_trans a b c : quiet a b -> quiet b c -> quiet a c.
Proof.
  intros (e1 & H1 & Q1) (e2 & H2 & Q2). exists (e1 ++ e2). split.
  - now rewrite H2, H1, app_assoc.
  - now rewrite forallb_app, Q1, Q2.
Qed.

Lemma quiet_frame w w' :
  trace w' = trace w -> projectState w' = projectState w -> quiet w w'.
Proof. intros H _. exists []. split; [now rewrite app_nil_r | reflexivity]. Qed.

Lemma quiet_state f w : quiet w (set_projectState (f (projectState w)) w).
Proof. exists []. split; [cbn; now rewrite app_nil_r | reflexivity]. Qed.

Lemma quiet_emit e w :
  isTerminal e = false -> quiet w (set_trace (trace w ++ [e]) w).
Proof. intros H. exists [e]. split; [reflexivity | cbn; now rewrite H]. Qed.

Lemma counts_refl w : counts w w.
Proof. split; [reflexivity | lia]. Qed.

Lemma counts_trans a b c : counts a b -> counts b c -> counts a c.
Proof. unfold counts. intros [H1 K1] [H2 K2]. split; [congruence | lia]. Qed.

Lemma counts_frame w w' :
  trace w' = trace w -> projectState w' = projectState w -> counts w w'.
Proof. intros _ H. unfold counts, cap, count. rewrite H. split; [reflexivity | lia]. Qed.

Lemma counts_state f w :
  (forall s, iteration_count (f s) = iteration_count s /\
             max_iterations (f s) = max_iterations s) ->
  counts w (set_projectState (f (projectState w)) w).
Proof.
  intros H. destruct (H (projectState w)) as [Hc Hm].
  unfold counts, cap, count. cbn. rewrite Hc, Hm. split; [reflexivity | lia].
Qed.

Lemma counts_emit e w : counts w (set_trace (trace w ++ [e]) w).
Proof. unfold counts, cap, count. cbn. split; [reflexivity | lia]. Qed.

Lemma counts_escalate w :
  counts w (set_projectState
              (set_iteration_count (max_iterations (projectState w))
                 (projectState w)) w).
Proof. unfold counts, cap, count. cbn. split; [reflexivity | lia]. Qed.

Lemma counts_increment w :
  (count w < cap w)%Z ->
  counts w (set_projectState
              (set_iteration_count (iteration_count (projectState w) + 1)
                 (projectState w)) w).
Proof. unfold counts, cap, count. cbn. intros H. split; [reflexivity | lia]. Qed.

Lemma untouched_refl w : untouched w w.
Proof. now split. Qed.

Lemma untouched_trans a b c : untouched a b -> untouched b c -> untouched a c.
Proof. unfold untouched. intros [] []. split; congruence. Qed.

Lemma untouched_frame w w' :
  trace w' = trace w -> projectState w' = projectState w -> untouched w w'.
Proof. intros _ H. unfold untouched, cap, count. now rewrite H. Qed.

Lemma untouched_state f w :
  (forall s, iteration_count (f s) = iteration_count s /\
             max_iterations (f s) = max_iterations s) ->
  untouched w (set_projectState (f (projectState w)) w).
Proof.
  intros H. destruct (H (projectState w)) as [Hc Hm].
  unfold untouched, cap, count. cbn. now rewrite Hc, Hm.
Qed.

Lemma untouched_emit e w : untouched w (set_trace (trace w ++ [e]) w).
Proof. now split. Qed.

Create HintDb preserved.

#[export] Hint Resolve quiet_refl quiet_trans quiet_frame quiet_state quiet_emit
  counts_refl counts_trans counts_frame counts_state counts_emit
  counts_escalate counts_increment
  untouched_refl untouched_trans untouched_frame untouched_state
  untouched_emit : preserved.

Section Methods.
Context {J : Type} (E : Env J).

Lemma quiet_executeCompilationAndHealing :
  keeps quiet (executeCompilationAndHealing E).
Proof. apply keeps_executeCompilationAndHealing; eauto with preserved. Qed.

Lemma quiet_workflow u :
  keeps quiet
    (workflow E u).
Proof. apply keeps_workflow; eauto with preserved. Qed.

Lemma counts_executePlanningPhase : keeps counts (executePlanningPhase E).
Proof. apply keeps_executePlanningPhase; eauto with preserved. Qed.

Lemma counts_executeDesignPhase : keeps counts (executeDesignPhase E).
Proof. apply keeps_executeDesignPhase; eauto with preserved. Qed.

Lemma counts_executeArchitecturePhase : keeps counts (executeArchitecturePhase E).
Proof. apply keeps_executeArchitecturePhase; eauto with preserved. Qed.

Lemma counts_executeCodingPhase : keeps counts (executeCodingPhase E).
Proof. apply keeps_executeCodingPhase; eauto with preserved. Qed.

Lemma counts_executePatchingPhase : keeps counts (executePatchingPhase E).
Proof. apply keeps_executePatchingPhase; eauto with preserved. Qed.

Lemma counts_healingLoop fuel result : keeps counts (healingLoop E fuel result).
Proof. apply keeps_healingLoop; eauto with preserved. Qed.

Lemma counts_executeCompilationAndHealing :
  keeps counts (executeCompilationAndHealing E).
Proof. apply keeps_executeCompilationAndHealing; eauto with preserved. Qed.

Lemma counts_runAIWorkflow u : keeps counts (runAIWorkflow E u).
Proof. apply keeps_runAIWorkflow; eauto with preserved. Qed.

Lemma counts_runSimulation : keeps counts (runSimulation E).
Proof. apply keeps_runSimulation; eauto with preserved. Qed.

Lemma counts_workflow u :
  keeps counts
    (workflow E u).
Proof. apply keeps_workflow; eauto with preserved. Qed.

Lemma untouched_executePlanningPhase : keeps untouched (executePlanningPhase E).
Proof. apply keeps_executePlanningPhase; eauto with preserved. Qed.

Lemma untouched_executeDesignPhase : keeps untouched (executeDesignPhase E).
Proof. apply keeps_executeDesignPhase; eauto with preserved. Qed.

Lemma untouched_executeArchitecturePhase :
  keeps untouched (executeArchitecturePhase E).
Proof. apply keeps_executeArchitecturePhase; eauto with preserved. Qed.

Lemma untouched_executeCodingPhase : keeps untouched (executeCodingPhase E).
Proof. apply keeps_executeCodingPhase; eauto with preserved. Qed.

Lemma untouched_log a m t : keeps untouched (log E a m t).
Proof. apply keeps_log; eauto with preserved. Qed.

End Methods.

End Preserved.

(** ** Termination, and the callbacks of a run *)

Module RunFacts.
Import Types SimulationService Orchestrator Spec OrchestratorFacts Preserved.

Lemma total_ret {A} (a : A) : total (ret a).
Proof. intros w. discriminate. Qed.

Lemma total_throw {A} e : total (@throw A e).
Proof. intros w. discriminate. Qed.

Lemma total_gets {A} (f : World -> A) : total (gets f).
Proof. intros w. discriminate. Qed.

Lemma total_modify f : total (modify f).
Proof. intros w. discriminate. Qed.

Lemma total_bind {A B} (m : M A) (k : A -> M B) :
  total m -> (forall a, total (k a)) -> total (bind m k).
Proof.
  intros Hm Hk w. rewrite run_bind. specialize (Hm w).
  destruct (m w) as [[a | e |] w']; cbn [fst] in *;
    [apply Hk | discriminate | congruence].
Qed.

Lemma total_tryCatch {A} (m : M A) (h : string -> M A) :
  total m -> (forall e, total (h e)) -> total (tryCatch m h).
Proof.
  intros Hm Hh w. unfold tryCatch. specialize (Hm w).
  destruct (m w) as [[a | e |] w']; cbn [fst] in *;
    [discriminate | apply Hh | congruence].
Qed.

Lemma total_when b (m : M unit) : total m -> total (when b m).
Proof. intros H. destruct b; [exact H | apply total_ret]. Qed.

Lemma total_forEachIndexed {A} (body : nat -> A -> M unit) l : forall i,
  (forall i x, total (body i x)) -> total (forEachIndexed body i l).
Proof.
  induction l as [|x l IH]; intros i H; simpl.
  - apply total_ret.
  - apply total_bind; [apply H | intros _; now apply IH].
Qed.

Section Total.
Context {J : Type} (E : Env J).

Lemma total_tick : total (tick E).
Proof. apply total_modify. Qed.

Lemma total_emit e : total (emit E e).
Proof. apply total_bind; [apply total_modify | intros _; apply total_tick]. Qed.

Lemma total_now : total (now E).
Proof. intros w. discriminate. Qed.

Ltac total_step :=
  lazymatch goal with
  | |- total (ret _) => apply total_ret
  | |- total (throw _) => apply total_throw
  | |- total (gets _) => apply total_gets
  | |- total (modify _) => apply total_modify
  | |- total (updateState _) => apply total_modify
  | |- total (addToHistory _ _) => apply total_modify
  | |- total (tick _) => apply total_tick
  | |- total (now _) => apply total_now
  | |- total (emit _ _) => apply total_emit
  | |- total (log _ _ _ _) => apply total_emit
  | |- total (when _ _) => apply total_when
  | |- total (forEachIndexed _ _ _) => apply total_forEachIndexed; intros ? ?
  | |- total (bind _ _) => apply total_bind; [| intros ?]
  | |- total (match ?x with _ => _ end) => destruct x
  end.

Lemma total_awaitSendPrompt sp up h : total (awaitSendPrompt E sp up h).
Proof. unfold awaitSendPrompt. repeat total_step. Qed.

Lemma total_validate : total (validate E).
Proof. unfold validate. repeat total_step. Qed.

Lemma total_notifyStateUpdate : total (notifyStateUpdate E).
Proof. unfold notifyStateUpdate. repeat total_step. Qed.

Lemma total_enterPhase p : total (enterPhase E p).
Proof. unfold enterPhase. repeat total_step. Qed.

Lemma total_ask p : total (ask E p).
Proof.
  unfold ask. repeat total_step. apply total_awaitSendPrompt.
Qed.

Lemma total_logThought a p : total (logThought E a p).
Proof. unfold logThought. repeat total_step. Qed.

Lemma total_pushTerminalLog r : total (pushTerminalLog E r).
Proof. unfold pushTerminalLog. repeat total_step. Qed.

Ltac total_call :=
  lazymatch goal with
  | |- total (awaitSendPrompt _ _ _ _) => apply total_awaitSendPrompt
  | |- total (validate _) => apply total_validate
  | |- total (notifyStateUpdate _) => apply total_notifyStateUpdate
  | |- total (enterPhase _ _) => apply total_enterPhase
  | |- total (ask _ _) => apply total_ask
  | |- total (logThought _ _ _) => apply total_logThought
  | |- total (pushTerminalLog _ _) => apply total_pushTerminalLog
  | |- _ => total_step
  end.

Lemma total_executePlanningPhase : total (executePlanningPhase E).
Proof. unfold executePlanningPhase. repeat total_call. Qed.

Lemma total_executeDesignPhase : total (executeDesignPhase E).
Proof. unfold executeDesignPhase. repeat total_call. Qed.

Lemma total_executeArchitecturePhase : total (executeArchitecturePhase E).
Proof. unfold executeArchitecturePhase. repeat total_call. Qed.

Lemma total_mergeFile f : total (mergeFile E f).
Proof. unfold mergeFile. repeat total_call. Qed.

Lemma total_executeCodingPhase : total (executeCodingPhase E).
Proof.
  unfold executeCodingPhase. repeat total_call. apply total_mergeFile.
Qed.

Lemma total_applyFix i fx : total (applyFix E i fx).
Proof. unfold applyFix. repeat total_call. Qed.

Lemma total_executePatchingPhase : total (executePatchingPhase E).
Proof.
  unfold executePatchingPhase. repeat total_call. apply total_applyFix.
Qed.

Lemma total_healingAttempt result : total (healingAttempt E result).
Proof.
  unfold healingAttempt.
  repeat lazymatch goal with
         | |- total (executePatchingPhase _) => apply total_executePatchingPhase
         | |- _ => total_call
         end.
Qed.

Lemma total_simulate steps : total (simulate E steps).
Proof. induction steps as [|st steps IH]; simpl; repeat total_call. exact IH. Qed.

Lemma total_determineMode : total (determineMode E).
Proof. unfold determineMode. repeat total_call. Qed.

(** One attempt below the cap moves the counter up by at least one and
    leaves the cap. *)
Lemma healingAttempt_climbs result w :
  (count w < cap w)%Z ->
  cap (snd (healingAttempt E result w)) = cap w /\
  (count w + 1 <= count (snd (healingAttempt E result w)) <= cap w)%Z.
Proof.
  intros Hlt.
  destruct (keeps_afterIncrement counts counts_refl counts_trans counts_frame
              counts_state (fun e w _ => counts_emit e w) E counts_escalate
              result w)
    as [Hcap Hcount].
  unfold cap, count in *.
  cbn [projectState set_projectState iteration_count max_iterations
       set_iteration_count] in Hcap, Hcount.
  split; [exact Hcap | lia].
Qed.

(** The fuel [executeCompilationAndHealing] gives the loop is enough. *)
Lemma healingLoop_total result : forall fuel w,
  (cap w - count w <= Z.of_nat fuel)%Z ->
  fst (healingLoop E fuel result w) <> Diverged.
Proof.
  induction fuel as [|fuel IH]; intros w Hf; cbn [healingLoop];
    rewrite run_bind; cbn [gets];
    destruct ((iteration_count (projectState w) <? max_iterations (projectState w))%Z
              && negb (r_success result)) eqn:Hc;
    try discriminate;
    apply andb_true_iff in Hc as [Hlt _]; apply Z.ltb_lt in Hlt;
    fold (count w) in Hlt; fold (cap w) in Hlt.
  - lia.
  - rewrite run_bind.
    pose proof (total_healingAttempt result w) as Ht.
    destruct (healingAttempt_climbs result w Hlt) as [Hcap Hcount].
    destruct (healingAttempt E result w) as [[[|] | e |] w1]; cbn [fst snd] in *;
      try discriminate; try congruence.
    apply IH. lia.
Qed.

Lemma total_healing result (k : bool -> M unit) :
  (forall b, total (k b)) ->
  total (s <- gets projectState ;;
         returned <- healingLoop E
                       (Z.to_nat (max_iterations s - iteration_count s)) result ;;
         k returned).
Proof.
  intros Hk w. rewrite run_bind. cbn [gets]. rewrite run_bind.
  pose proof (healingLoop_total result
                (Z.to_nat (max_iterations (projectState w)
                           - iteration_count (projectState w))) w) as Ht.
  destruct (healingLoop E _ result w) as [[b | e |] w1]; cbn [fst] in *.
  - apply Hk.
  - discriminate.
  - exfalso. apply Ht; [unfold cap, count; lia | reflexivity].
Qed.

Lemma total_executeCompilationAndHealing :
  total (executeCompilationAndHealing E).
Proof.
  unfold executeCompilationAndHealing.
  repeat lazymatch goal with
         | |- total (bind (gets projectState)
                       (fun s => bind (healingLoop _ _ _) _)) =>
             apply total_healing; intros ?
         | |- _ => total_call
         end.
Qed.

Lemma total_runAIWorkflow u : total (runAIWorkflow E u).
Proof.
  unfold runAIWorkflow.
  repeat lazymatch goal with
         | |- total (executePlanningPhase _) => apply total_executePlanningPhase
         | |- total (executeDesignPhase _) => apply total_executeDesignPhase
         | |- total (executeArchitecturePhase _) =>
             apply total_executeArchitecturePhase
         | |- total (executeCodingPhase _) => apply total_executeCodingPhase
         | |- total (executeCompilationAndHealing _) =>
             apply total_executeCompilationAndHealing
         | |- _ => total_call
         end.
Qed.

Lemma total_workflow u : total (workflow E u).
Proof.
  unfold workflow. apply total_bind; [apply total_determineMode | intros m].
  destruct m.
  - apply total_simulate.
  - apply total_runAIWorkflow.
  - apply total_tryCatch; [apply total_runAIWorkflow | intros _].
    apply total_bind; [apply total_emit | intros _; apply total_simulate].
Qed.

Lemma run_emit e w :
  emit E e w =
    (Done tt,
     set_ticks (S (ticks w))
       (if stopAt E (ticks w)
        then set_isRunning false (set_trace (trace w ++ [e]) w)
        else set_trace (trace w ++ [e]) w)).
Proof. reflexivity. Qed.

Lemma trace_emit e w : trace (snd (emit E e w)) = trace w ++ [e].
Proof. rewrite run_emit. cbn [snd]. now destruct (stopAt E (ticks w)). Qed.

(** The [try] of [start]: the workflow, then one terminal callback, then
    the flag is cleared. *)
Lemma run_guarded u w0 :
  finally
    (tryCatch
       (m <- determineMode E ;;
        match m with
        | simulation => runSimulation E
        | ai => runAIWorkflow E u
        | hybrid =>
            tryCatch (runAIWorkflow E u)
              (fun _ =>
                 log E "SYSTEM" "AI unavailable, running in demo mode..." info ;;
                 runSimulation E)
        end ;;
        emit E onComplete)
       (fun e => emit E (onError e)))
    (set_isRunning false) w0 =
  match workflow E u w0 with
  | (Done _, w1) => (Done tt, set_isRunning false (snd (emit E onComplete w1)))
  | (Thrown e, w1) =>
      (Done tt, set_isRunning false (snd (emit E (onError e) w1)))
  | (Diverged, w1) => (Diverged, set_isRunning false w1)
  end.
Proof.
  unfold finally, tryCatch at 1, workflow. rewrite !run_bind.
  destruct (determineMode E w0) as [[m | e |] w1]; try reflexivity.
  rewrite run_bind.
  destruct (match m with
            | simulation => runSimulation E
            | ai => runAIWorkflow E u
            | hybrid => _
            end w1) as [[[] | e |] w2]; reflexivity.
Qed.

Lemma run_start u w :
  isRunning w = false ->
  start E u w =
    match workflow E u (started u w) with
    | (Done _, w1) =>
        (Done tt, set_isRunning false (snd (emit E onComplete w1)))
    | (Thrown e, w1) =>
        (Done tt, set_isRunning false (snd (emit E (onError e) w1)))
    | (Diverged, w1) => (Diverged, set_isRunning false w1)
    end.
Proof.
  intros Hr. unfold start, startWith. rewrite run_bind. cbn [gets]. rewrite Hr.
  exact (run_guarded u (started u w)).
Qed.

(** The same for terminal callbacks that may throw. *)
Lemma run_guardedWith (complete : M unit) (fail : string -> M unit) u w0 :
  finally
    (tryCatch
       (m <- determineMode E ;;
        match m with
        | simulation => runSimulation E
        | ai => runAIWorkflow E u
        | hybrid =>
            tryCatch (runAIWorkflow E u)
              (fun _ =>
                 log E "SYSTEM" "AI unavailable, running in demo mode..." info ;;
                 runSimulation E)
        end ;;
        complete)
       fail)
    (set_isRunning false) w0 =
  match workflow E u w0 with
  | (Done _, w1) =>
      match complete w1 with
      | (Thrown e, w2) => let '(r, w3) := fail e w2 in (r, set_isRunning false w3)
      | (r, w2) => (r, set_isRunning false w2)
      end
  | (Thrown e, w1) => let '(r, w2) := fail e w1 in (r, set_isRunning false w2)
  | (Diverged, w1) => (Diverged, set_isRunning false w1)
  end.
Proof.
  unfold finally, tryCatch at 1, workflow. rewrite !run_bind.
  destruct (determineMode E w0) as [[m | e |] w1]; try reflexivity.
  rewrite run_bind.
  destruct (match m with
            | simulation => runSimulation E
            | ai => runAIWorkflow E u
            | hybrid => _
            end w1) as [[[] | e |] w2]; try reflexivity.
  destruct (complete w2) as [[[] | e |] w3]; reflexivity.
Qed.

(** When [onComplete] throws, the [catch] of [start] calls [onError] with
    what it threw. *)
Lemma run_throwing_onComplete u w w1 message :
  isRunning w = false ->
  workflow E u (started u w) = (Done tt, w1) ->
  startWith E (throwing E onComplete message) (fun e => emit E (onError e)) u w =
    (Done tt,
     set_isRunning false (emitted E (onError message) (emitted E onComplete w1))).
Proof.
  intros Hr Hw. unfold startWith. rewrite run_bind. cbn [gets]. rewrite Hr.
  refine (eq_trans
            (run_guardedWith (throwing E onComplete message)
               (fun e => emit E (onError e)) u (started u w)) _).
  rewrite Hw. reflexivity.
Qed.

End Total.

(** X6.  When the callbacks return, a run started by [start] on an
    orchestrator that is not running ends normally, having called exactly
    one of [onComplete] and [onError], once, as its last callback: the
    callbacks of the run are some callbacks that are not terminal, followed
    by the terminal one.  (A call of [start] on a running orchestrator
    throws before its [try] and starts no run.) *)
Theorem start_one_terminal_callback {J} (E : Env J) (userPrompt : string)
  (w : World) :
  isRunning w = false ->
  exists w' evs t,
    start E userPrompt w = (Done tt, w') /\
    trace w' = trace w ++ evs ++ [t] /\
    forallb (fun e => negb (isTerminal e)) evs = true /\
    isTerminal t = true /\
    isRunning w' = false.
Proof.
  intros Hr. rewrite (run_start E userPrompt w Hr).
  pose proof (total_workflow E userPrompt (started userPrompt w)) as Ht.
  destruct (quiet_workflow E userPrompt (started userPrompt w))
    as (evs & Htr & Hq).
  destruct (workflow E userPrompt (started userPrompt w)) as [[[] | e |] w1];
    cbn [fst snd] in *; [| | congruence].
  - exists (set_isRunning false (snd (emit E onComplete w1))), evs, onComplete.
    repeat split; try assumption.
    cbn [trace set_isRunning]. rewrite trace_emit, Htr, <- app_assoc.
    reflexivity.
  - exists (set_isRunning false (snd (emit E (onError e) w1))), evs, (onError e).
    repeat split; try assumption.
    cbn [trace set_isRunning]. rewrite trace_emit, Htr, <- app_assoc.
    reflexivity.
Qed.

End RunFacts.

(** ** The steps of a run, one by one *)

Module Steps.
Import Types SimulationService Orchestrator Spec OrchestratorFacts Preserved
  RunFacts.

Section Steps.
Context {J : Type} (E : Env J).

Lemma run_tick w : tick E w = (Done tt, ticked E w).
Proof. reflexivity. Qed.

Lemma run_emitted e w : emit E e w = (Done tt, emitted E e w).
Proof. reflexivity. Qed.

Lemma run_log a m t w : log E a m t w = (Done tt, logged E a m t w).
Proof. reflexivity. Qed.

Lemma run_validate w :
  validate E w = (Done (CompilationService.validateCode (projectState w)),
                  ticked E w).
Proof. reflexivity. Qed.

Lemma run_pushTerminalLog r w :
  pushTerminalLog E r w = (Done tt, recorded E r w).
Proof. reflexivity. Qed.

Lemma ticked_fields w :
  trace (ticked E w) = trace w /\ projectState (ticked E w) = projectState w /\
  prompts (ticked E w) = prompts w /\ clockReads (ticked E w) = clockReads w.
Proof.
  unfold ticked, tick, modify. cbn [snd].
  destruct (stopAt E (ticks w)); repeat split.
Qed.

Lemma emitted_fields e w :
  trace (emitted E e w) = trace w ++ [e] /\
  projectState (emitted E e w) = projectState w /\
  prompts (emitted E e w) = prompts w /\
  clockReads (emitted E e w) = clockReads w.
Proof.
  unfold emitted. rewrite run_emit. cbn [snd].
  destruct (stopAt E (ticks w)); repeat split.
Qed.

Lemma recorded_fields r w :
  trace (recorded E r w) = trace w /\
  projectState (recorded E r w) =
    set_terminal_logs
      (terminal_logs (projectState w) ++ [terminalLog r (clock E (clockReads w))])
      (projectState w) /\
  prompts (recorded E r w) = prompts w.
Proof. repeat split. Qed.

Lemma trace_logged a m t w :
  trace (logged E a m t w) = trace w ++ [onLog (createLog a m t None)].
Proof. apply emitted_fields. Qed.

Lemma state_logged a m t w : projectState (logged E a m t w) = projectState w.
Proof. apply emitted_fields. Qed.

Lemma prompts_logged a m t w : prompts (logged E a m t w) = prompts w.
Proof. apply emitted_fields. Qed.

Lemma state_ticked w : projectState (ticked E w) = projectState w.
Proof. apply ticked_fields. Qed.

Lemma trace_ticked w : trace (ticked E w) = trace w.
Proof. apply ticked_fields. Qed.

Lemma prompts_ticked w : prompts (ticked E w) = prompts w.
Proof. apply ticked_fields. Qed.

Lemma state_validated w :
  projectState (validated E w) =
    set_terminal_logs
      (terminal_logs (projectState w) ++
       [terminalLog (CompilationService.validateCode (projectState w))
          (clock E (clockReads w))])
      (projectState w).
Proof.
  unfold validated.
  destruct (recorded_fields (CompilationService.validateCode (projectState w))
              (ticked E (logged E "SYSTEM" "🔨 Starting compilation validation..."
                           system w))) as (_ & -> & _).
  destruct (ticked_fields
              (logged E "SYSTEM" "🔨 Starting compilation validation..." system w))
    as (_ & -> & _ & ->).
  destruct (emitted_fields
              (onLog (createLog "SYSTEM" "🔨 Starting compilation validation..."
                        system None)) w) as (_ & Hs & _ & Hc).
  fold (logged E "SYSTEM" "🔨 Starting compilation validation..." system w) in Hs, Hc.
  now rewrite Hs, Hc.
Qed.

(** [executeCompilationAndHealing] up to the outcome of its first
    validation. *)
Lemma run_executeCompilationAndHealing w :
  isRunning w = true ->
  executeCompilationAndHealing E w =
    let result := CompilationService.validateCode (projectState w) in
    (if r_success result then
       log E "SYSTEM" "✅ Compilation successful!" success ;;
       log E "SYSTEM" (r_stdout result) info
     else
       log E "SYSTEM" "⚠️ Build errors detected. Activating Patcher agent..."
         error ;;
       log E "STDERR" (r_stderr result) error ;;
       if negb (CompilationService.isRecoverableError result) then
         log E "PATCHER" "🛑 Fatal error detected. Human intervention required."
           error ;;
         throw ("Fatal build error: " ++ Js.take 200 (r_stderr result))
       else
         s <- gets projectState ;;
         returned <- healingLoop E
                       (Z.to_nat (max_iterations s - iteration_count s)) result ;;
         if returned then ret tt
         else
           s <- gets projectState ;;
           if (max_iterations s <=? iteration_count s)%Z then
             log E "PATCHER"
               "🛑 Max healing iterations reached. Requesting human assistance."
               error ;;
             log E "SYSTEM"
               "The system encountered persistent errors. Please review the logs."
               error
           else ret tt) (validated E w).
Proof.
  intros Hr. unfold executeCompilationAndHealing.
  rewrite run_bind. cbn [gets]. rewrite Hr. cbn [negb].
  rewrite run_bind, run_log, run_bind, run_validate, state_logged.
  rewrite run_bind, run_pushTerminalLog. reflexivity.
Qed.

(** A failure that is not recoverable: the method throws at once. *)
Lemma run_fatal w :
  isRunning w = true ->
  r_success (CompilationService.validateCode (projectState w)) = false ->
  CompilationService.isRecoverableError
    (CompilationService.validateCode (projectState w)) = false ->
  executeCompilationAndHealing E w =
    (Thrown ("Fatal build error: " ++
             Js.take 200
               (r_stderr (CompilationService.validateCode (projectState w)))),
     logged E "PATCHER" "🛑 Fatal error detected. Human intervention required."
       error
       (logged E "STDERR"
          (r_stderr (CompilationService.validateCode (projectState w))) error
          (logged E "SYSTEM"
             "⚠️ Build errors detected. Activating Patcher agent..." error
             (validated E w)))).
Proof.
  intros Hr Hs Hf. rewrite (run_executeCompilationAndHealing w Hr).
  cbv zeta. rewrite Hs, Hf. cbn [negb].
  rewrite run_bind, run_log, run_bind, run_log, run_bind, run_log.
  reflexivity.
Qed.

(** [runAIWorkflow] is the generation, then the validation and healing,
    then the Ready phase. *)
Lemma run_runAIWorkflow u w :
  runAIWorkflow E u w =
    match generation E u w with
    | (Done _, w4) =>
        (executeCompilationAndHealing E ;;
         enterPhase E READY ;;
         log E "SYSTEM"
           "✅ Application ready! All agents completed successfully." success) w4
    | (Thrown e, w') => (Thrown e, w')
    | (Diverged, w') => (Diverged, w')
    end.
Proof.
  unfold runAIWorkflow, generation.
  rewrite !(run_bind (log E _ _ _)), !run_log. cbv iota beta.
  rewrite !(run_bind (log E _ _ _)), !run_log. cbv iota beta.
  rewrite !run_bind.
  match goal with
  | |- context [executePlanningPhase E ?w0] =>
      destruct (executePlanningPhase E w0) as [[[] | ? |] w1];
        [| reflexivity | reflexivity]
  end.
  rewrite !run_bind.
  destruct (executeDesignPhase E w1) as [[[] | ? |] w2];
    [| reflexivity | reflexivity].
  rewrite !run_bind.
  destruct (executeArchitecturePhase E w2) as [[[] | ? |] w3];
    [| reflexivity | reflexivity].
  rewrite !run_bind.
  destruct (executeCodingPhase E w3) as [[[] | ? |] w4]; reflexivity.
Qed.

Lemma untouched_generation u : keeps untouched (generation E u).
Proof.
  unfold generation.
  repeat lazymatch goal with
         | |- keeps _ (bind _ _) =>
             apply (keeps_bind untouched untouched_trans); [| intros _]
         end.
  - apply untouched_log.
  - apply untouched_log.
  - apply untouched_executePlanningPhase.
  - apply untouched_executeDesignPhase.
  - apply untouched_executeArchitecturePhase.
  - apply untouched_executeCodingPhase.
Qed.

Lemma run_determineMode w :
  mode (config E) <> simulation ->
  GeminiService.isAvailable (apiKey E) = true ->
  determineMode E w = (Done ai, w).
Proof.
  intros Hm Ha. unfold determineMode.
  destruct (mode (config E)); [congruence | |]; now rewrite Ha.
Qed.

End Steps.

(** C5.  In a run of the AI workflow whose first validation after the Coding
    phase fails with a fatal pattern in its stderr ([isRecoverableError]
    answers false), no Patch attempt is made: after the Coding phase the
    orchestrator only logs, sends no request, leaves [iteration_count] as it
    was, and the run ends with [onError] carrying the fatal build error. *)
Theorem fatal_diagnostic_makes_no_patch {J} (E : Env J) (userPrompt : string)
  (w w4 : World) :
  isRunning w = false ->
  mode (config E) <> simulation ->
  GeminiService.isAvailable (apiKey E) = true ->
  generation E userPrompt (started userPrompt w) = (Done tt, w4) ->
  isRunning w4 = true ->
  r_success (CompilationService.validateCode (projectState w4)) = false ->
  CompilationService.isRecoverableError
    (CompilationService.validateCode (projectState w4)) = false ->
  exists w' evs,
    start E userPrompt w = (Done tt, w') /\
    trace w' =
      trace w4 ++ evs ++
      [onError ("Fatal build error: " ++
                Js.take 200
                  (r_stderr (CompilationService.validateCode (projectState w4))))] /\
    forallb isLog evs = true /\
    prompts w' = prompts w4 /\
    count w' = count w.
Proof.
  intros Hr Hm Ha Hg Hr4 Hs Hf.
  rewrite (run_start E userPrompt w Hr). unfold workflow.
  rewrite run_bind, (run_determineMode E _ Hm Ha).
  rewrite run_runAIWorkflow, Hg, run_bind, (run_fatal E w4 Hr4 Hs Hf).
  match goal with
  | |- context [emit E ?e ?w5] =>
      exists (set_isRunning false (snd (emit E e w5)));
      destruct (emitted_fields E e w5) as (Ht & Hst & Hp & _);
      unfold emitted in Ht, Hst, Hp
  end.
  exists [ onLog (createLog "SYSTEM" "🔨 Starting compilation validation..."
                    system None);
           onLog (createLog "SYSTEM"
                    "⚠️ Build errors detected. Activating Patcher agent..."
                    error None);
           onLog (createLog "STDERR"
                    (r_stderr (CompilationService.validateCode (projectState w4)))
                    error None);
           onLog (createLog "PATCHER"
                    "🛑 Fatal error detected. Human intervention required."
                    error None) ].
  split; [reflexivity|].
  cbn [trace prompts set_isRunning count projectState].
  rewrite Ht, Hp. unfold count. cbn [projectState set_isRunning]. rewrite Hst.
  rewrite !trace_logged, !prompts_logged, !state_logged.
  unfold validated.
  destruct (recorded_fields E
              (CompilationService.validateCode (projectState w4))
              (ticked E (logged E "SYSTEM" "🔨 Starting compilation validation..."
                           system w4))) as (-> & -> & ->).
  rewrite trace_ticked, prompts_ticked, state_ticked, trace_logged,
    prompts_logged, state_logged.
  split; [| split; [| split]].
  - rewrite <- !app_assoc. reflexivity.
  - reflexivity.
  - reflexivity.
  - pose proof (untouched_generation E userPrompt (started userPrompt w)) as Hu.
    rewrite Hg in Hu. destruct Hu as [_ Hu]. unfold count in Hu.
    cbn [snd] in Hu. cbn [iteration_count set_terminal_logs]. rewrite Hu.
    reflexivity.
Qed.

End Steps.

(** ** The completion client *)

Module GeminiFacts.
Import GeminiService Scenario.

(** C3 at two replies.  A reply with status 401 whose body is not JSON is
    an authentication failure, and [sendPrompt] retries it as long as it
    may: four requests, with 1000, 2000 and 4000 ms between them.  A
    gateway timeout whose message holds the digits 401 is a failure of the
    kind that should be retried, and [sendPrompt] throws it after the first
    request.  (A 401 with a JSON body is thrown at once, and a 503 is
    retried three times, as intended.) *)
Theorem unauthorized_reply_is_retried :
  sendPrompt (Some "key") (fun _ => htmlUnauthorized) =
    mkRun
      (Rejected
         "JSON.parse: unexpected character at line 1 column 1 of the JSON data")
      [1000; 2000; 4000]%Z 4 /\
  sendPrompt (Some "key") (fun _ => slowGateway) =
    mkRun (Rejected "Gemini API error (504): Deadline of 4010 ms exceeded")
      [] 1 /\
  sendPrompt (Some "key") (fun _ => jsonUnauthorized) =
    mkRun
      (Rejected
         "Invalid API key. Please check your VITE_GEMINI_API_KEY in .env file.")
      [] 1 /\
  sendPrompt (Some "key") (fun _ => overloaded) =
    mkRun
      (Rejected
         "Gemini API is temporarily unavailable. Please try again later.")
      [1000; 2000; 4000]%Z 4.
Proof. repeat split. Qed.

End GeminiFacts.

(** ** [parseAgentResponse] *)

Module ParseFacts.
Import Types AgentPrompts Spec Scenario Js JsFacts.

(** [jsonMatch] finds the first fenced block, and nothing else. *)
Lemma fence_starts_clean blanks2 post c r' :
  isBlank blanks2 = true ->
  (blanks2 ++ fenceClose ++ post)%string = String c r' ->
  isContinuation c = false.
Proof.
  intros Hb He. destruct blanks2 as [|d ws].
  - cbn in He. injection He as <- _. reflexivity.
  - cbn [String.append] in He. injection He as <- _.
    now apply (blank_head d ws).
Qed.

Lemma jsonMatch_block rawResponse body :
  firstFencedBlock rawResponse body -> jsonMatch rawResponse = Some body.
Proof.
  intros (pre & b1 & b2 & post & Hraw & Hopen & Hclose & Hb1 & Hb2 & Htrim).
  destruct (trim_fixed body Htrim) as [Hts Hte].
  unfold jsonMatch. rewrite Hopen. cbv zeta. rewrite Hraw.
  rewrite drop_past, drop_app, (trimStart_blank b1 _ Hb1).
  pose proof (blank_no_tick _ b1 (le_n _) Hb1) as Hq.
  change fenceClose with (String "`" "``") in Hclose at 2.
  rewrite (indexFrom_skip "`" "``" b1 _ Hq) in Hclose.
  change (String "`" "``") with fenceClose in Hclose.
  destruct (indexFrom 0 (body ++ b2 ++ fenceClose ++ post) fenceClose)
    as [k|] eqn:Hk; [|discriminate].
  cbn [option_map] in Hclose. injection Hclose as Hclose.
  rewrite !length_append in Hclose.
  assert (Hk' : k = String.length (body ++ b2)).
  { rewrite length_append. lia. }
  subst k.
  destruct body as [|c body'].
  - cbn [String.append] in *.
    rewrite (trimStart_blank b2 _ Hb2).
    change (trimStart (fenceClose ++ post)) with (fenceClose ++ post)%string.
    now rewrite indexFrom_here.
  - rewrite (trimStart_stops (String c body') (b2 ++ fenceClose ++ post));
      [| intros d r' Hd; exact (fence_starts_clean b2 post d r' Hb2 Hd)
       | discriminate | exact Hts].
    rewrite Hk.
    rewrite <- (append_assoc (String c body') b2), take_app.
    now rewrite (trimEnd_app_blank _ b2 Hb2), Hte.
Qed.

Lemma block_jsonMatch rawResponse body :
  jsonMatch rawResponse = Some body -> firstFencedBlock rawResponse body.
Proof.
  unfold jsonMatch.
  destruct (indexFrom 0 rawResponse fenceOpen) as [i|] eqn:Hi; [|discriminate].
  destruct (indexFrom_split fenceOpen rawResponse i Hi) as [Hraw Hlen].
  set (R := drop (i + String.length fenceOpen) rawResponse) in *.
  destruct (trimStart_split (String.length R) R (le_n _)) as (b1 & HR & Hb1).
  destruct (indexFrom 0 (trimStart R) fenceClose) as [j|] eqn:Hj; [|discriminate].
  destruct (indexFrom_split fenceClose (trimStart R) j Hj) as [Hrest HlenB].
  intros H. injection H as H.
  destruct (trimEnd_split (take j (trimStart R))) as (b2 & HB & Hb2).
  rewrite H in HB.
  exists (take i rawResponse), b1, b2,
    (drop (j + String.length fenceClose) (trimStart R)).
  assert (Hrest' : trimStart R =
            (body ++ b2 ++ fenceClose ++
             drop (j + String.length fenceClose) (trimStart R))%string).
  { rewrite Hrest at 1. rewrite HB. now rewrite append_assoc. }
  repeat split.
  - rewrite Hraw at 1. rewrite HR at 1. now rewrite <- Hrest'.
  - now rewrite Hlen.
  - pose proof (blank_no_tick _ b1 (le_n _) Hb1) as Hq.
    change fenceClose with (String "`" "``") at 2.
    rewrite (indexFrom_skip "`" "``" b1 _ Hq).
    change (String "`" "``") with fenceClose.
    rewrite <- Hrest', Hj. cbn [option_map]. f_equal.
    rewrite !length_append. rewrite <- length_append, <- HB, HlenB. reflexivity.
  - exact Hb1.
  - exact Hb2.
  - rewrite <- H. apply trim_trimEnd.
    destruct (take j (trimStart R)) as [|c t] eqn:Ht; [reflexivity|].
    apply (trimStart_prefix (String c t)
             (fenceClose ++ drop (j + String.length fenceClose) (trimStart R)));
      [discriminate|].
    rewrite <- Hrest. apply (trimStart_idempotent (String.length R)). lia.
Qed.


(** C4, as the code has it.  [parseAgentResponse] returns for every text
    (it never throws).  The match of its regular expression is the first
    fenced block of the text: what stands between the leftmost [```json]
    and the first [```] after it, white space trimmed.  When that block
    parses, its value is returned; otherwise (there is no such block, or it
    does not parse), when the whole text parses, that value is returned;
    otherwise the fallback object with [raw = true] that carries the text
    is.  A later fenced block is not looked at. *)
Theorem parseAgentResponse_cases {J} (JSON_parse : string -> option J)
  (rawResponse : string) (phase : AgentPhase) :
  (forall body,
      jsonMatch rawResponse = Some body <-> firstFencedBlock rawResponse body) /\
  (forall body v,
      firstFencedBlock rawResponse body -> JSON_parse body = Some v ->
      parseAgentResponse JSON_parse rawResponse phase = Structured v) /\
  (forall v,
      (forall body, firstFencedBlock rawResponse body -> JSON_parse body = None) ->
      JSON_parse rawResponse = Some v ->
      parseAgentResponse JSON_parse rawResponse phase = Structured v) /\
  ((forall body, firstFencedBlock rawResponse body -> JSON_parse body = None) ->
   JSON_parse rawResponse = None ->
   parseAgentResponse JSON_parse rawResponse phase =
     Unstructured "Extracted from unstructured response" rawResponse true) /\
  ((exists v, parseAgentResponse JSON_parse rawResponse phase = Structured v) \/
   parseAgentResponse JSON_parse rawResponse phase =
     Unstructured "Extracted from unstructured response" rawResponse true).
Proof.
  assert (Hno : (forall body, firstFencedBlock rawResponse body ->
                              JSON_parse body = None) ->
                match jsonMatch rawResponse with
                | Some body => JSON_parse body
                | None => None
                end = None).
  { intros H. destruct (jsonMatch rawResponse) as [body|] eqn:Hm;
      [| reflexivity].
    apply H. now apply block_jsonMatch. }
  split; [| split; [| split; [| split]]].
  - intros body. split; [apply block_jsonMatch | apply jsonMatch_block].
  - intros body v Hb Hv. unfold parseAgentResponse.
    now rewrite (jsonMatch_block _ _ Hb), Hv.
  - intros v H Hv. unfold parseAgentResponse. now rewrite (Hno H), Hv.
  - intros H Hv. unfold parseAgentResponse. now rewrite (Hno H), Hv.
  - unfold parseAgentResponse.
    destruct (match jsonMatch rawResponse with
              | Some body => JSON_parse body
              | None => None
              end) as [v|]; [left; now exists v|].
    destruct (JSON_parse rawResponse) as [v|]; [left; now exists v | now right].
Qed.

(** C4 as stated fails: this text contains a fenced JSON block that parses
    (the second one), and the fallback object is returned. *)
Lemma later_block_is_ignored :
  (exists pre body post v,
      twoBlocks =
        (pre ++ "```json" ++ Js.nl ++ body ++ Js.nl ++ "```" ++ post)%string /\
      Json.parse body = Some v) /\
  parseAgentResponse Json.parse twoBlocks CODING =
    Unstructured "Extracted from unstructured response" twoBlocks true.
Proof.
  split.
  - exists ("```json" ++ Js.nl ++ "not json" ++ Js.nl ++ "```" ++ Js.nl)%string,
      "{}", EmptyString, (Json.JObject []).
    split; reflexivity.
  - reflexivity.
Qed.

End ParseFacts.

(** ** Applying a fix *)

Module PatchFacts.
Import Types Orchestrator Spec Scenario JsFacts OrchestratorFacts Steps.

Lemma updateFirst_map {A} (h : FileEntry -> A) p g : forall fs f,
  findFile p fs = Some f -> h (g f) = h f ->
  map h (updateFirst p g fs) = map h fs.
Proof.
  unfold findFile. induction fs as [|e fs IH]; intros f Hf Hg; [discriminate|].
  cbn [find updateFirst] in *. destruct (String.eqb (path e) p).
  - injection Hf as ->. cbn [map]. now rewrite Hg.
  - cbn [map]. now rewrite (IH f Hf Hg).
Qed.

Lemma updateFirst_others p g : forall fs i e,
  nth_error fs i = Some e -> path e <> p ->
  nth_error (updateFirst p g fs) i = Some e.
Proof.
  induction fs as [|x fs IH]; intros i e Hn Hp; [now destruct i|].
  cbn [updateFirst]. destruct (String.eqb_spec (path x) p) as [Hx | Hx].
  - destruct i as [|i]; cbn [nth_error] in *; [|exact Hn].
    injection Hn as ->. contradiction.
  - destruct i as [|i]; cbn [nth_error] in *; [exact Hn | now apply IH].
Qed.

(** The file system after [applyFix]. *)
Lemma applyFix_file_system {J} (E : Env J) index fx w :
  fst (applyFix E index fx w) = Done tt /\
  file_system (projectState (snd (applyFix E index fx w))) =
    match findFile (fix_file fx) (file_system (projectState w)) with
    | Some f =>
        match content f with
        | Some c =>
            if Js.truthy c then
              updateFirst (fix_file fx)
                (fun e =>
                   mkFile (path e) (Some (Js.replace c (before fx) (after fx)))
                     (f_type e) (Some (clock E (clockReads w))))
                (file_system (projectState w))
            else file_system (projectState w)
        | None => file_system (projectState w)
        end
    | None => file_system (projectState w)
    end.
Proof.
  unfold applyFix. rewrite run_bind. cbn [gets].
  destruct (findFile (fix_file fx) (file_system (projectState w))) as [f|];
    [| now split].
  destruct (content f) as [c|]; [| now split].
  destruct (Js.truthy c); [| now split].
  rewrite run_bind. cbn [now]. rewrite run_bind. cbn [updateState modify].
  rewrite run_log. cbn [fst snd]. rewrite state_logged. now split.
Qed.

(** C8.  A fix whose [before] does not occur in the content of its target
    file leaves the paths, the contents and the types of all files as they
    were, and every file with another path untouched. *)
Theorem fix_with_absent_before {J} (E : Env J) (index : nat) (fx : Fix)
  (w : World) (f : FileEntry) (c : string) :
  findFile (fix_file fx) (file_system (projectState w)) = Some f ->
  content f = Some c ->
  Js.includes c (before fx) = false ->
  let fs := file_system (projectState w) in
  let fs' := file_system (projectState (snd (applyFix E index fx w))) in
  map path fs' = map path fs /\
  map content fs' = map content fs /\
  map f_type fs' = map f_type fs /\
  forall i e,
    nth_error fs i = Some e -> path e <> fix_file fx ->
    nth_error fs' i = Some e.
Proof.
  intros Hf Hc Hi fs fs'. subst fs fs'.
  destruct (applyFix_file_system E index fx w) as [_ ->].
  rewrite Hf, Hc, (replace_absent _ _ _ Hi).
  destruct (Js.truthy c).
  - repeat split.
    + now apply (updateFirst_map path _ _ _ f).
    + apply (updateFirst_map content _ _ _ f Hf). cbn. now rewrite Hc.
    + now apply (updateFirst_map f_type _ _ _ f).
    + intros i e. apply updateFirst_others.
  - repeat split. intros i e H _. exact H.
Qed.

(** C10 at a replacement that holds [$']: the first occurrence of [before]
    is not replaced by the [after] string, but by [after] with the rest of
    the file spliced in for the dollar and the apostrophe. *)
Theorem fix_with_dollar_pattern :
  let fs' :=
    file_system
      (projectState (snd (applyFix (envOf []) 0 dollarFix labelsWorld))) in
  map content fs' = [Some "label('; label(0); + 0); label(0);"] /\
  map content fs' <> [Some "label('$' + 0); label(0);"].
Proof. split; [reflexivity | discriminate]. Qed.

(** With a replacement that holds no dollar, only the leftmost occurrence
    of [before] is replaced, by [after]; what follows it stays. *)
Lemma fix_replaces_leftmost {J} (E : Env J) index fx w f pre post :
  findFile (fix_file fx) (file_system (projectState w)) = Some f ->
  content f = Some (pre ++ before fx ++ post)%string ->
  Js.indexFrom 0 (pre ++ before fx ++ post) (before fx) =
    Some (String.length pre) ->
  Js.truthy (pre ++ before fx ++ post) = true ->
  Js.countChar "$"%char (after fx) = 0 ->
  exists f',
    findFile (fix_file fx)
      (file_system (projectState (snd (applyFix E index fx w)))) = Some f' /\
    content f' = Some (pre ++ after fx ++ post)%string.
Proof.
  intros Hf Hc Hi Ht Hd.
  destruct (applyFix_file_system E index fx w) as [_ ->].
  rewrite Hf, Hc, Ht, (replace_leftmost _ _ _ _ Hi Hd).
  revert Hf. unfold findFile.
  induction (file_system (projectState w)) as [|e fs IH]; [discriminate|].
  cbn [find updateFirst]. destruct (String.eqb (path e) (fix_file fx)) eqn:He.
  - intros _. eexists. cbn [find path]. rewrite He. split; reflexivity.
  - intros Hf. cbn [find]. rewrite He. now apply IH.
Qed.

End PatchFacts.

(** ** The healing counter *)

Module CounterFacts.
Import Types SimulationService Orchestrator Spec Scenario OrchestratorFacts
  Preserved RunFacts Steps.

Section Counter.
Context {J : Type} (E : Env J).

Lemma untouched_tail (m : M unit) w :
  keeps untouched m -> count (snd (m w)) = count w /\ cap (snd (m w)) = cap w.
Proof. intros H. destruct (H w) as [Hcap Hcount]. now split. Qed.

Lemma untouched_enterPhase p : keeps untouched (enterPhase E p).
Proof. apply keeps_enterPhase; eauto with preserved. Qed.

Lemma untouched_logThought a p : keeps untouched (logThought E a p).
Proof. apply keeps_logThought; eauto with preserved. Qed.

Lemma untouched_applyFix i fx : keeps untouched (applyFix E i fx).
Proof. apply keeps_applyFix; eauto with preserved. Qed.

Lemma untouched_notifyStateUpdate : keeps untouched (notifyStateUpdate E).
Proof. apply keeps_notifyStateUpdate; eauto with preserved. Qed.

Lemma untouched_validate : keeps untouched (validate E).
Proof. apply keeps_validate; eauto with preserved. Qed.

Lemma untouched_pushTerminalLog r : keeps untouched (pushTerminalLog E r).
Proof. apply keeps_pushTerminalLog; eauto with preserved. Qed.

(** What a Patch phase does to the counter: a request for human help puts it
    at the cap, anything else leaves it. *)
Lemma executePatchingPhase_count w :
  cap (snd (executePatchingPhase E w)) = cap w /\
  count (snd (executePatchingPhase E w)) =
    if requestsHelp E w then cap w else count w.
Proof.
  unfold executePatchingPhase, requestsHelp. rewrite run_bind. cbn [gets].
  destruct (isRunning w); cbn [negb andb]; [| now split].
  rewrite run_bind.
  destruct (untouched_enterPhase PATCHING w) as [Hcap1 Hcount1].
  assert (Hp1 : prompts (snd (enterPhase E PATCHING w)) = prompts w).
  { unfold enterPhase. rewrite run_bind. cbn [modify]. rewrite run_bind.
    cbn [updateState modify]. rewrite run_emitted. cbn [snd].
    now destruct (emitted_fields E (onPhaseChange PATCHING)
                    (set_projectState
                       (set_status PATCHING
                          (projectState (set_currentPhase PATCHING w)))
                       (set_currentPhase PATCHING w))) as (_ & _ & -> & _). }
  assert (Hd1 : fst (enterPhase E PATCHING w) = Done tt) by reflexivity.
  destruct (enterPhase E PATCHING w) as [c1 w1]. cbn [fst snd] in *. subst c1.
  rewrite run_bind, run_log.
  set (w2 := logged E "PATCHER"
               "🔍 Analyzing error logs (Abductive Reasoning)..." info w1).
  assert (Hcap2 : cap w2 = cap w).
  { unfold cap, w2. rewrite state_logged. exact Hcap1. }
  assert (Hcount2 : count w2 = count w).
  { unfold count, w2. rewrite state_logged. exact Hcount1. }
  assert (Hp2 : prompts w2 = prompts w).
  { unfold w2. now rewrite prompts_logged. }
  clearbody w2. clear Hcap1 Hcount1 Hp1 w1.
  rewrite run_bind. unfold ask. rewrite run_bind. cbn [gets].
  rewrite run_bind. cbn [gets]. rewrite run_bind. unfold awaitSendPrompt.
  rewrite run_bind. cbn [gets]. rewrite run_bind. cbn [modify].
  rewrite run_bind, run_tick. rewrite Hp2.
  set (w3 := ticked E (set_prompts (S (prompts w)) w2)).
  assert (Hcap3 : cap w3 = cap w).
  { unfold cap, w3. now rewrite state_ticked. }
  assert (Hcount3 : count w3 = count w).
  { unfold count, w3. now rewrite state_ticked. }
  clearbody w3.
  destruct (GeminiService.result
              (GeminiService.sendPrompt (apiKey E) (network E (prompts w))))
    as [text | m]; cbn [ret throw]; [| now split].
  rewrite run_bind.
  destruct (untouched_tail (logThought E "PATCHER" (parsed E text PATCHING)) w3
              (untouched_logThought _ _)) as [Hcount4 Hcap4].
  assert (Hd4 : fst (logThought E "PATCHER" (parsed E text PATCHING) w3) = Done tt).
  { unfold logThought. destruct (thought _); [| reflexivity].
    unfold when. now destruct (Js.truthy _). }
  destruct (logThought E "PATCHER" (parsed E text PATCHING) w3) as [c4 w4].
  cbn [fst snd] in *. subst c4.
  destruct (request_human_help (parsed E text PATCHING)).
  - rewrite run_bind, run_log. cbn [updateState modify snd].
    unfold cap, count in *. cbn [projectState set_projectState
      iteration_count max_iterations set_iteration_count].
    rewrite state_logged. split; congruence.
  - match goal with
    | |- context [snd (?m w4)] =>
        assert (Hk : keeps untouched m);
        [| destruct (Hk w4) as [Hcap5 Hcount5]; split; congruence ]
    end.
    apply (keeps_bind untouched untouched_trans); [| intros _].
    + destruct (fixes (parsed E text PATCHING)) as [fl|].
      * apply (keeps_bind untouched untouched_trans); [| intros _].
        -- apply untouched_log.
        -- apply (keeps_forEachIndexed untouched untouched_refl untouched_trans).
           intros i x. apply untouched_applyFix.
      * intros w'. apply untouched_refl.
    + apply (keeps_bind untouched untouched_trans); [| intros _].
      * apply keeps_addToHistory. apply untouched_frame.
      * apply untouched_notifyStateUpdate.
Qed.

(** [healingAttempt] up to the end of its Patch phase. *)
Lemma run_healingAttempt result w :
  healingAttempt E result w =
    match executePatchingPhase E (attemptEntry E w) with
    | (Done _, w2) =>
        let newResult := CompilationService.validateCode (projectState w2) in
        let w3 := recorded E newResult (ticked E w2) in
        if r_success newResult then
          (Done true,
           logged E "PATCHER" "✅ Self-healing successful! Build passed."
             success w3)
        else if String.eqb (r_stderr newResult) (r_stderr result) then
          (Done false, emitted E (stagnationLog (count w3)) w3)
        else (Done false, w3)
    | (Thrown e, w2) => (Thrown e, w2)
    | (Diverged, w2) => (Diverged, w2)
    end.
Proof.
  unfold healingAttempt. rewrite run_bind. cbn [updateState modify].
  rewrite run_bind. cbn [gets]. rewrite run_bind, run_log.
  rewrite run_bind.
  match goal with
  | |- context [executePatchingPhase E ?w1] =>
      change w1 with (attemptEntry E w)
  end.
  destruct (executePatchingPhase E (attemptEntry E w)) as [[[] | e |] w2];
    try reflexivity.
  cbv beta iota.
  rewrite run_bind, run_validate. cbv beta iota.
  rewrite run_bind, run_pushTerminalLog.
  cbv beta iota zeta.
  destruct (r_success (CompilationService.validateCode (projectState w2))).
  - rewrite run_bind, run_log. reflexivity.
  - rewrite run_bind.
    destruct (String.eqb _ _); [| reflexivity].
    rewrite run_bind. cbn [gets]. rewrite run_log. reflexivity.
Qed.

Lemma count_recorded r w : count (recorded E r w) = count w.
Proof. reflexivity. Qed.

Lemma cap_recorded r w : cap (recorded E r w) = cap w.
Proof. reflexivity. Qed.

Lemma count_ticked w : count (ticked E w) = count w.
Proof. unfold count. now rewrite state_ticked. Qed.

Lemma cap_ticked w : cap (ticked E w) = cap w.
Proof. unfold cap. now rewrite state_ticked. Qed.

Lemma count_emitted e w : count (emitted E e w) = count w.
Proof. unfold count. now destruct (emitted_fields E e w) as (_ & -> & _). Qed.

Lemma cap_emitted e w : cap (emitted E e w) = cap w.
Proof. unfold cap. now destruct (emitted_fields E e w) as (_ & -> & _). Qed.

Lemma count_attemptEntry w : count (attemptEntry E w) = (count w + 1)%Z.
Proof. unfold attemptEntry, logged. now rewrite count_emitted. Qed.

Lemma cap_attemptEntry w : cap (attemptEntry E w) = cap w.
Proof. unfold attemptEntry, logged. now rewrite cap_emitted. Qed.

(** What one attempt does to the counter. *)
Lemma healingAttempt_count result w :
  cap (snd (healingAttempt E result w)) = cap w /\
  count (snd (healingAttempt E result w)) =
    if requestsHelp E (attemptEntry E w) then cap w else (count w + 1)%Z.
Proof.
  rewrite run_healingAttempt.
  destruct (executePatchingPhase_count (attemptEntry E w)) as [Hcap Hcount].
  rewrite cap_attemptEntry in Hcap, Hcount.
  rewrite count_attemptEntry in Hcount.
  destruct (executePatchingPhase E (attemptEntry E w)) as [[[] | e |] w2];
    cbn [snd] in *; try (now split).
  cbv zeta.
  destruct (r_success _); [| destruct (String.eqb _ _)]; cbn [snd];
    unfold logged;
    rewrite ?count_emitted, ?cap_emitted, ?count_recorded, ?cap_recorded,
      ?count_ticked, ?cap_ticked; now split.
Qed.

(** The loop gives up only at the cap. *)
Lemma healingLoop_exit result : forall fuel w w',
  healingLoop E fuel result w = (Done false, w') ->
  r_success result = false ->
  (cap w' <= count w')%Z.
Proof.
  induction fuel as [|fuel IH]; intros w w' H Hs; cbn [healingLoop] in H;
    rewrite run_bind in H; cbn [gets] in H; rewrite Hs in H; cbn [negb] in H;
    rewrite andb_true_r in H;
    destruct (Z.ltb_spec (iteration_count (projectState w))
                (max_iterations (projectState w))) as [Hlt | Hge];
    try discriminate.
  - injection H as <-. exact Hge.
  - rewrite run_bind in H.
    destruct (healingAttempt E result w) as [[[|] | e |] w1]; try discriminate.
    now apply (IH w1 w').
  - injection H as <-. exact Hge.
Qed.

Lemma counts_started u w : counts w (started u w).
Proof. unfold counts, cap, count. cbn. split; [reflexivity | lia]. Qed.

Lemma counts_finish e w : counts w (set_isRunning false (snd (emit E e w))).
Proof.
  fold (emitted E e w). unfold counts, cap, count.
  cbn [projectState set_isRunning].
  destruct (emitted_fields E e w) as (_ & -> & _). split; [reflexivity | lia].
Qed.

Lemma counts_start u : keeps counts (start E u).
Proof.
  intros w. destruct (isRunning w) eqn:Hr.
  - unfold start, startWith. rewrite run_bind. cbn [gets]. rewrite Hr.
    apply counts_refl.
  - rewrite (run_start E u w Hr).
    pose proof (counts_workflow E u (started u w)) as Hw.
    apply (counts_trans _ _ _ (counts_started u w)).
    destruct (workflow E u (started u w)) as [[[] | e |] w1]; cbn [snd] in *;
      apply (counts_trans _ _ _ Hw).
    + apply counts_finish.
    + apply counts_finish.
    + unfold counts, cap, count. cbn [projectState set_isRunning].
      split; [reflexivity | lia].
Qed.

End Counter.

(** C1, as the code has it.  A new orchestrator has the counter at 0 and
    the cap at 3, and in its first run the counter is still 0 when the
    generation phases are over and the first validation begins.  From a
    world where the counter is within its bounds, every method of the
    orchestrator leaves the cap, does not decrease the counter and keeps it
    within the bounds.  A Patch attempt increments the counter once, before
    it enters the Patch phase; the phase leaves it there, unless the
    Patcher's reply asks for human help: then the phase puts the counter at
    the cap. *)
Theorem counter_bounds {J} (E : Env J) :
  iteration_count createInitialState = 0%Z /\
  max_iterations createInitialState = 3%Z /\
  bounded newOrchestrator /\
  (forall u,
      count (snd (generation E u (started u newOrchestrator))) = 0%Z /\
      cap (snd (generation E u (started u newOrchestrator))) = 3%Z) /\
  (forall u, keeps counts (start E u)) /\
  (forall u, keeps counts (runAIWorkflow E u)) /\
  keeps counts (runSimulation E) /\
  keeps counts (executePlanningPhase E) /\
  keeps counts (executeDesignPhase E) /\
  keeps counts (executeArchitecturePhase E) /\
  keeps counts (executeCodingPhase E) /\
  keeps counts (executeCompilationAndHealing E) /\
  keeps counts (executePatchingPhase E) /\
  keeps counts stop /\
  (forall result w,
      count (attemptEntry E w) = (count w + 1)%Z /\
      cap (snd (healingAttempt E result w)) = cap w /\
      count (snd (healingAttempt E result w)) =
        if requestsHelp E (attemptEntry E w) then cap w else (count w + 1)%Z).
Proof.
  repeat match goal with |- _ /\ _ => split end.
  - reflexivity.
  - reflexivity.
  - unfold bounded, count, cap. cbn. lia.
  - intros u.
    destruct (untouched_generation E u (started u newOrchestrator))
      as [Hcap Hcount].
    now rewrite Hcap, Hcount.
  - apply counts_start.
  - intros u. apply counts_runAIWorkflow.
  - apply counts_runSimulation.
  - apply counts_executePlanningPhase.
  - apply counts_executeDesignPhase.
  - apply counts_executeArchitecturePhase.
  - apply counts_executeCodingPhase.
  - apply counts_executeCompilationAndHealing.
  - apply counts_executePatchingPhase.
  - intros w. unfold counts, cap, count. cbn. split; [reflexivity | lia].
  - intros result w. split; [apply count_attemptEntry|].
    apply healingAttempt_count.
Qed.

End CounterFacts.

(** ** The healing loop *)

Module LoopFacts.
Import Types SimulationService Orchestrator Spec Scenario OrchestratorFacts
  Preserved RunFacts Steps CounterFacts.

Section Loop.
Context {J : Type} (E : Env J).

(** After a recoverable failure, [executeCompilationAndHealing] is the loop
    and what follows it. *)
Lemma run_healing w :
  isRunning w = true ->
  r_success (CompilationService.validateCode (projectState w)) = false ->
  CompilationService.isRecoverableError
    (CompilationService.validateCode (projectState w)) = true ->
  executeCompilationAndHealing E w =
    match healingLoop E
            (Z.to_nat (cap (loopEntry E w) - count (loopEntry E w)))
            (CompilationService.validateCode (projectState w))
            (loopEntry E w) with
    | (Done true, w') => (Done tt, w')
    | (Done false, w') =>
        if (cap w' <=? count w')%Z then (Done tt, escalated E w')
        else (Done tt, w')
    | (Thrown e, w') => (Thrown e, w')
    | (Diverged, w') => (Diverged, w')
    end.
Proof.
  intros Hr Hs Hrec. rewrite (run_executeCompilationAndHealing E w Hr).
  cbv zeta. rewrite Hs, Hrec. cbn [negb].
  rewrite run_bind, run_log. cbv beta iota.
  rewrite run_bind, run_log. cbv beta iota.
  fold (loopEntry E w). rewrite run_bind. cbn [gets]. rewrite run_bind.
  fold (cap (loopEntry E w)). fold (count (loopEntry E w)).
  destruct (healingLoop E _ _ (loopEntry E w)) as [[[|] | e |] w']; try reflexivity.
  rewrite run_bind. cbn [gets].
  fold (cap w'). fold (count w').
  destruct (cap w' <=? count w')%Z; [| reflexivity].
  rewrite run_bind, run_log. cbv beta iota. rewrite run_log. reflexivity.
Qed.

(** One more turn of the loop. *)
Lemma run_healingLoop fuel result w :
  (count w < cap w)%Z ->
  r_success result = false ->
  healingLoop E (S fuel) result w =
    match healingAttempt E result w with
    | (Done true, w1) => (Done true, w1)
    | (Done false, w1) => healingLoop E fuel result w1
    | (Thrown e, w1) => (Thrown e, w1)
    | (Diverged, w1) => (Diverged, w1)
    end.
Proof.
  intros Hlt Hs. cbn [healingLoop]. rewrite run_bind. cbn [gets].
  rewrite Hs. cbn [negb]. rewrite andb_true_r.
  apply Z.ltb_lt in Hlt. unfold count, cap in Hlt. rewrite Hlt.
  rewrite run_bind.
  destruct (healingAttempt E result w) as [[[|] | e |] w1]; reflexivity.
Qed.

End Loop.

(** X1.  What one attempt of the healing loop does when its re-validation
    fails.  It logs the warning of a repeated error exactly when the new
    stderr is identical to the stderr of the validation made before the
    loop, and in both cases answers that the loop goes on.  The attempt
    counts toward [iteration_count]; the loop gives up only when
    [iteration_count >= max_iterations], and then
    [executeCompilationAndHealing] logs the request for human assistance and
    returns normally. *)
Theorem repeated_error_is_logged_and_counted {J} (E : Env J)
  (result : CompilationResult) (w w2 : World) :
  executePatchingPhase E (attemptEntry E w) = (Done tt, w2) ->
  r_success (CompilationService.validateCode (projectState w2)) = false ->
  let newResult := CompilationService.validateCode (projectState w2) in
  let w3 := recorded E newResult (ticked E w2) in
  healingAttempt E result w =
    (Done false,
     if String.eqb (r_stderr newResult) (r_stderr result)
     then emitted E (stagnationLog (count w3)) w3 else w3) /\
  trace (snd (healingAttempt E result w)) =
    trace w2 ++
    (if String.eqb (r_stderr newResult) (r_stderr result)
     then [stagnationLog (count w2)] else []) /\
  count (snd (healingAttempt E result w)) =
    (if requestsHelp E (attemptEntry E w) then cap w else (count w + 1)%Z) /\
  (forall fuel,
      (count w < cap w)%Z -> r_success result = false ->
      healingLoop E (S fuel) result w =
        healingLoop E fuel result (snd (healingAttempt E result w))) /\
  (forall fuel v v',
      r_success result = false ->
      healingLoop E fuel result v = (Done false, v') ->
      (cap v' <= count v')%Z) /\
  (forall v v',
      isRunning v = true ->
      CompilationService.validateCode (projectState v) = result ->
      r_success result = false ->
      CompilationService.isRecoverableError result = true ->
      healingLoop E (Z.to_nat (cap (loopEntry E v) - count (loopEntry E v)))
        result (loopEntry E v) = (Done false, v') ->
      executeCompilationAndHealing E v = (Done tt, escalated E v')).
Proof.
  intros Hp Hf newResult w3.
  assert (Ha : healingAttempt E result w =
                 (Done false,
                  if String.eqb (r_stderr newResult) (r_stderr result)
                  then emitted E (stagnationLog (count w3)) w3 else w3)).
  { rewrite run_healingAttempt, Hp. cbv zeta. rewrite Hf.
    fold newResult. fold w3. now destruct (String.eqb _ _). }
  repeat match goal with |- _ /\ _ => split end.
  - exact Ha.
  - rewrite Ha. cbn [snd]. unfold w3.
    destruct (String.eqb _ _).
    + destruct (emitted_fields E
                  (stagnationLog (count (recorded E newResult (ticked E w2))))
                  (recorded E newResult (ticked E w2))) as (-> & _).
      rewrite count_recorded, count_ticked.
      destruct (recorded_fields E newResult (ticked E w2)) as (-> & _).
      now rewrite trace_ticked.
    + destruct (recorded_fields E newResult (ticked E w2)) as (-> & _).
      now rewrite trace_ticked, app_nil_r.
  - apply healingAttempt_count.
  - intros fuel Hlt Hs. rewrite (run_healingLoop E fuel result w Hlt Hs), Ha.
    reflexivity.
  - intros fuel v v' Hs Hl. exact (healingLoop_exit E result fuel v v' Hl Hs).
  - intros v v' Hr Hv Hs Hrec Hl. subst result.
    rewrite (run_healing E v Hr Hs Hrec), Hl.
    pose proof (healingLoop_exit E _ _ _ _ Hl Hs) as Hcap.
    apply Z.leb_le in Hcap. now rewrite Hcap.
Qed.

End LoopFacts.

(** ** The scenarios, run *)

Module Runs.
Import Types SimulationService Orchestrator Spec Scenario RunFacts Steps
  GeminiFacts PatchFacts CounterFacts LoopFacts.

Lemma start_one_terminal_callback_witness :
  exists w' evs t,
    start stuckEnv "build it" newOrchestrator = (Done tt, w') /\
    trace w' = trace newOrchestrator ++ evs ++ [t] /\
    forallb (fun e => negb (isTerminal e)) evs = true /\
    isTerminal t = true /\
    isRunning w' = false.
Proof.
  apply (start_one_terminal_callback stuckEnv "build it" newOrchestrator).
  reflexivity.
Defined.

Lemma fatal_diagnostic_makes_no_patch_witness :
  exists w' evs,
    start fatalEnv "build it" newOrchestrator = (Done tt, w') /\
    trace w' =
      trace (snd (generation fatalEnv "build it"
                    (started "build it" newOrchestrator))) ++ evs ++
      [onError ("Fatal build error: " ++
                Js.take 200
                  (r_stderr
                     (CompilationService.validateCode
                        (projectState
                           (snd (generation fatalEnv "build it"
                                   (started "build it" newOrchestrator)))))))] /\
    forallb isLog evs = true /\
    prompts w' =
      prompts (snd (generation fatalEnv "build it"
                      (started "build it" newOrchestrator))) /\
    count w' = count newOrchestrator.
Proof.
  apply (fatal_diagnostic_makes_no_patch fatalEnv "build it" newOrchestrator
           (snd (generation fatalEnv "build it"
                   (started "build it" newOrchestrator)))).
  - reflexivity.
  - discriminate.
  - reflexivity.
  - vm_compute. reflexivity.
  - vm_compute. reflexivity.
  - vm_compute. reflexivity.
  - vm_compute. reflexivity.
Defined.

Lemma fix_with_absent_before_witness :
  map content
    (file_system
       (projectState (snd (applyFix (envOf []) 0 missFix labelsWorld)))) =
  map content (file_system (projectState labelsWorld)).
Proof.
  destruct (fix_with_absent_before (envOf []) 0 missFix labelsWorld labels
              "label(0); label(0);") as (_ & H & _).
  - reflexivity.
  - reflexivity.
  - reflexivity.
  - exact H.
Defined.

(** The first attempt of the run in which the Patcher finds no fix: the new
    error is the first one again, the warning is logged, the loop goes
    on. *)
Lemma repeated_error_is_logged_and_counted_witness :
  exists w3,
    healingAttempt stagnantEnv stagnantResult stagnantEntry = (Done false, w3) /\
    existsb isStagnation (trace stagnantEntry) = false /\
    existsb isStagnation (trace w3) = true /\
    count w3 = 1%Z.
Proof.
  destruct (repeated_error_is_logged_and_counted stagnantEnv stagnantResult
              stagnantEntry
              (snd (executePatchingPhase stagnantEnv
                      (attemptEntry stagnantEnv stagnantEntry))))
    as (H & _ & Hc & _).
  - vm_compute. reflexivity.
  - vm_compute. reflexivity.
  - eexists. split; [exact H |]. repeat split; vm_compute; reflexivity.
Defined.

(** C2 at the stuck run: the healing loop is exhausted (three attempts, the
    last validation fails with exit code 1, the request for human assistance
    is logged), and the run ends as a successful one does: phase READY, the
    log entry of success, [onComplete]. *)
Theorem exhausted_healing_ends_in_onComplete :
  let r := start stuckEnv "build it" newOrchestrator in
  fst r = Done tt /\
  (exists evs,
      trace (snd r) =
        evs ++
        [ onPhaseChange READY;
          onLog (createLog "SYSTEM"
                   "✅ Application ready! All agents completed successfully."
                   success None);
          onComplete ] /\
      existsb isEscalation evs = true /\
      forallb (fun e => negb (isTerminal e)) evs = true) /\
  status (projectState (snd r)) = READY /\
  count (snd r) = 3%Z /\ cap (snd r) = 3%Z /\
  map t_exit_code (terminal_logs (projectState (snd r))) = [1; 1; 1; 1]%Z.
Proof.
  cbv zeta. split; [vm_compute; reflexivity |]. split.
  - exists (firstn 51 (trace (snd (start stuckEnv "build it" newOrchestrator)))).
    repeat match goal with |- _ /\ _ => split end; vm_compute; reflexivity.
  - repeat match goal with |- _ /\ _ => split end; vm_compute; reflexivity.
Qed.

(** C1 as stated fails, in two ways.  In the run in which the Patcher
    asks for help, one Patch attempt is made (one entry into the Patch
    phase, one request after the four of the generation), and the counter
    ends at 3.  And a second run on the orchestrator of the stuck run does
    not start at 0: it starts with the counter at 3, where the first run
    left it, so that its failed validation is followed by no Patch attempt
    (no further entry into the Patch phase, no request after the four of
    its generation). *)
Lemma counter_claim_fails :
  (let w := snd (start helpEnv "build it" newOrchestrator) in
   List.length (filter isPatchingEntry (trace w)) = 1 /\
   prompts w = 5 /\
   count w = 3%Z) /\
  (let w1 := snd (start stuckEnv "build it" newOrchestrator) in
   let w2 := snd (start stuckEnv "again" w1) in
   isRunning w1 = false /\
   count (started "again" w1) = 3%Z /\
   List.length (filter isPatchingEntry (trace w1)) = 3 /\
   prompts w1 = 7 /\
   fst (start stuckEnv "again" w1) = Done tt /\
   List.length (filter isPatchingEntry (trace w2)) = 3 /\
   prompts w2 = 11 /\
   map t_exit_code (terminal_logs (projectState w2)) = [1; 1; 1; 1; 1]%Z /\
   count w2 = 3%Z).
Proof.
  cbv zeta.
  repeat match goal with |- _ /\ _ => split end; vm_compute; reflexivity.
Qed.

(** C7 at the stuck run: the second and the third attempt end with the
    stderr of the attempt before them, and no warning of a repeated error is
    logged, because the loop compares with the stderr of the validation made
    before the loop. *)
Lemma same_error_as_previous_attempt_is_silent :
  let w := snd (start stuckEnv "build it" newOrchestrator) in
  (exists first a1 a2 a3,
      terminal_logs (projectState w) = [first; a1; a2; a3] /\
      t_stderr a2 = t_stderr a1 /\ t_stderr a3 = t_stderr a2 /\
      t_stderr a1 <> t_stderr first) /\
  existsb isStagnation (trace w) = false.
Proof.
  cbv zeta. split; [| vm_compute; reflexivity].
  remember (terminal_logs
              (projectState (snd (start stuckEnv "build it" newOrchestrator))))
    as logs eqn:Hl.
  vm_compute in Hl. subst logs.
  do 4 eexists. split; [reflexivity |].
  split; [reflexivity |]. split; [reflexivity | discriminate].
Qed.

(** C9 at a run whose [onComplete] throws: the run calls [onComplete], and
    then [onError] with what [onComplete] threw, so that both terminal
    callbacks are called and [onComplete] is not the last callback. *)
Theorem throwing_onComplete_is_followed_by_onError :
  let r := startWith simulationEnv
             (throwing simulationEnv onComplete "render failed")
             (fun e => emit simulationEnv (onError e))
             "build it" newOrchestrator in
  fst r = Done tt /\
  (exists evs,
      trace (snd r) = evs ++ [onComplete; onError "render failed"] /\
      forallb (fun e => negb (isTerminal e)) evs = true) /\
  List.length (filter isTerminal (trace (snd r))) = 2 /\
  isRunning (snd r) = false.
Proof.
  cbv zeta. split; [vm_compute; reflexivity |]. split.
  - exists (firstn 36
              (trace
                 (snd (startWith simulationEnv
                         (throwing simulationEnv onComplete "render failed")
                         (fun e => emit simulationEnv (onError e))
                         "build it" newOrchestrator)))).
    split; vm_compute; reflexivity.
  - split; vm_compute; reflexivity.
Qed.

End Runs.

(* ================================================================= *)
(** * Further properties *)

(** ** Strings, continued *)

Module StringFacts.
Import Behaviour.

Lemma indexFrom_bounds s pat : forall i j,
  Js.indexFrom i s pat = Some j -> i <= j <= i + String.length s.
Proof.
  induction s as [|c s IH]; intros i j; cbn [Js.indexFrom String.length].
  - destruct (Js.startsWith EmptyString pat); [|discriminate].
    intros [= <-]. lia.
  - destruct (Js.startsWith (String c s) pat).
    + intros [= <-]. lia.
    + intros H. apply IH in H. lia.
Qed.

Lemma indexOf_bounds s pat :
  Js.includes s pat = true ->
  (0 <= Js.indexOf s pat <= Z.of_nat (String.length s))%Z.
Proof.
  unfold Js.includes, Js.indexOf.
  destruct (Js.indexFrom 0 s pat) as [j|] eqn:H; [|discriminate].
  intros _. apply indexFrom_bounds in H. lia.
Qed.

Lemma lastIndexFrom_bounds s pat : forall i j,
  Js.lastIndexFrom i s pat = Some j -> i <= j <= i + String.length s.
Proof.
  induction s as [|c s IH]; intros i j; cbn [Js.lastIndexFrom String.length].
  - destruct (Js.startsWith EmptyString pat); [|discriminate].
    intros [= <-]. lia.
  - destruct (Js.lastIndexFrom (S i) s pat) as [k|] eqn:Hk.
    + intros [= <-]. apply IH in Hk. lia.
    + destruct (Js.startsWith (String c s) pat); [|discriminate].
      intros [= <-]. lia.
Qed.

Lemma lastIndexFrom_char c s : forall i,
  0 < Js.countChar c s ->
  Js.lastIndexFrom i s (String c EmptyString) <> None.
Proof.
  induction s as [|d s IH]; intros i; cbn [Js.countChar Js.lastIndexFrom].
  - lia.
  - intros Hc.
    destruct (Js.lastIndexFrom (S i) s (String c EmptyString)) eqn:Hl;
      [discriminate|].
    cbn [Js.startsWith]. rewrite Ascii.eqb_sym.
    destruct (Ascii.eqb d c); cbn [andb].
    + destruct s; discriminate.
    + exfalso. apply (IH (S i)); [cbn in Hc; lia | exact Hl].
Qed.

Lemma lastIndexOf_bounds c s :
  0 < Js.countChar c s ->
  (0 <= Js.lastIndexOf s (String c EmptyString) <= Z.of_nat (String.length s))%Z.
Proof.
  intros Hc. unfold Js.lastIndexOf.
  destruct (Js.lastIndexFrom 0 s (String c EmptyString)) as [j|] eqn:H.
  - apply lastIndexFrom_bounds in H. lia.
  - exfalso. exact (lastIndexFrom_char c s 0 Hc H).
Qed.

Lemma mapChars_app f a b :
  Js.mapChars f (a ++ b) = (Js.mapChars f a ++ Js.mapChars f b)%string.
Proof. induction a as [|c a IH]; cbn; [reflexivity | now rewrite IH]. Qed.

Lemma includes_app a p b : Js.includes (a ++ p ++ b) p = true.
Proof.
  induction a as [|c a IH]; cbn [String.append].
  - apply JsFacts.includes_startsWith, JsFacts.startsWith_app.
  - apply JsFacts.includes_tail, IH.
Qed.


Lemma append_empty s : (s ++ EmptyString)%string = s.
Proof. induction s as [|c s IH]; cbn; [reflexivity | now rewrite IH]. Qed.

Lemma mapChars_length f s : String.length (Js.mapChars f s) = String.length s.
Proof. induction s as [|c s IH]; cbn; [reflexivity | now rewrite IH]. Qed.

Lemma includes_suffix a s p :
  Js.includes s p = true -> Js.includes (a ++ s) p = true.
Proof.
  intros H. induction a as [|c a IH]; cbn [String.append]; [exact H|].
  apply JsFacts.includes_tail, IH.
Qed.

Lemma spanChars_app p a r :
  allChars p a = true ->
  match r with
  | String c _ => p c = false
  | EmptyString => True
  end ->
  Js.spanChars p (a ++ r) = (a, r).
Proof.
  intros Ha Hr. induction a as [|c a IH]; cbn [String.append].
  - destruct r as [|c r]; cbn [Js.spanChars]; [reflexivity|].
    now rewrite Hr.
  - cbn [allChars] in Ha. apply andb_true_iff in Ha as [Hc Ha].
    cbn [Js.spanChars]. rewrite Hc, (IH Ha). reflexivity.
Qed.

Lemma allChars_impl (p q : ascii -> bool) s :
  (forall c, p c = true -> q c = true) ->
  allChars p s = true -> allChars q s = true.
Proof.
  intros Hpq. induction s as [|c s IH]; cbn [allChars]; [reflexivity|].
  intros H. apply andb_true_iff in H as [Hc Hs].
  now rewrite (Hpq c Hc), (IH Hs).
Qed.

Lemma allChars_mapChars p f s :
  allChars p (Js.mapChars f s) = allChars (fun c => p (f c)) s.
Proof. induction s as [|c s IH]; cbn; [reflexivity | now rewrite IH]. Qed.

(** Facts about one character, by cases on its eight bits. *)
Ltac by_bits c :=
  destruct c as [[] [] [] [] [] [] [] []]; vm_compute;
  solve [reflexivity | discriminate | intros; reflexivity
        | intros; discriminate | intros; congruence].

Lemma upper_is_word c : Js.isUpper (Js.upperChar c) = true -> Js.isWord c = true.
Proof. by_bits c. Qed.

Lemma word_not_space c : Js.isWord c = true -> Js.isSpace c = false.
Proof. by_bits c. Qed.

Lemma lower_bracket c :
  Ascii.eqb "["%char c = false -> Ascii.eqb "["%char (Js.lowerChar c) = false.
Proof. by_bits c. Qed.

(** A word character is one byte, and no white space starts with it. *)
Lemma word_is_ascii c : Js.isWord c = true -> nat_of_ascii c <= 122.
Proof.
  unfold Js.isWord, Js.isUpper, Js.isLower, Js.isDigit. cbv zeta.
  destruct (Ascii.eqb_spec c "_") as [-> | _]; [intros _; cbn; lia|].
  rewrite orb_false_r, !orb_true_iff, !andb_true_iff, !Nat.leb_le. lia.
Qed.

Lemma trimStart_word c r :
  Js.isWord c = true -> Js.trimStart (String c r) = String c r.
Proof.
  intros H. pose proof (word_is_ascii c H) as Hc.
  rewrite JsFacts.trimStart_cons, (word_not_space c H).
  destruct r as [|b r2]; [reflexivity|].
  assert (H2 : Js.isSpace2 c b = false) by JsFacts.bytes.
  rewrite H2. destruct r2 as [|d r3]; [reflexivity|].
  assert (H3 : Js.isSpace3 c b d = false) by JsFacts.bytes.
  now rewrite H3.
Qed.

(** A text of one-byte white space is white space. *)
Lemma ascii_blank ws : allChars Js.isSpace ws = true -> Js.isBlank ws = true.
Proof.
  induction ws as [|c ws IH]; cbn [allChars]; [reflexivity|].
  intros H. apply andb_true_iff in H as [Hc H].
  now rewrite (JsFacts.isBlank_cons_space c ws Hc), IH.
Qed.

End StringFacts.

(* ================================================================= *)
(** ** The validator: what its results and its diagnostics look like *)

Module DiagnosticFacts.
Import Types CompilationService Behaviour StringFacts.

Lemma lazyErrors_points p n l d pats :
  In d (flat_map
          (fun pattern =>
             if Js.includes l pattern
             then [mkDiag p (Z.of_nat n + 1) (Js.indexOf l pattern)
                     (placeholderMessage pattern) ErrSyntax]
             else []) pats) ->
  pointsInto p n l d.
Proof.
  intros H. apply in_flat_map in H as (pat & _ & H).
  destruct (Js.includes l pat) eqn:Hi; [|contradiction].
  destruct H as [<- | []]. unfold pointsInto; cbn.
  repeat split; try apply (indexOf_bounds l pat Hi).
Qed.

Lemma analyzeLine_points p index l d :
  In d (analyzeLine p index l) -> pointsInto p index l d.
Proof.
  unfold analyzeLine. rewrite !in_app_iff. intros [H | [H | [H | H]]].
  - unfold importErrors in H.
    destruct (Js.includes l "import" && Js.includes l "from"); [|contradiction].
    apply in_app_iff in H as [H | H].
    + destruct (Js.includes l "recharts"); cbn [andb] in H; [|contradiction].
      destruct (Js.includes l "LineChart") eqn:Hi; [|contradiction].
      destruct H as [<- | []]. unfold pointsInto; cbn.
      repeat split; try apply (indexOf_bounds l _ Hi).
    + destruct (Js.includes l "// Import" || Js.includes l "TODO");
        [|contradiction].
      destruct H as [<- | []]. unfold pointsInto; cbn.
      repeat split; lia.
  - exact (lazyErrors_points p index l d lazyPatterns H).
  - unfold braceErrors in H.
    destruct (negb (Js.countChar "{" l =? Js.countChar "}" l)%nat
              && (Js.countChar "{" l <? Js.countChar "}" l)%nat) eqn:Hb;
      [|contradiction].
    destruct H as [<- | []].
    apply andb_true_iff in Hb as [_ Hlt]. apply Nat.ltb_lt in Hlt.
    unfold pointsInto; cbn [e_file e_line e_column e_message].
    repeat split; try apply (lastIndexOf_bounds "}"%char l); lia.
  - unfold semicolonErrors in H.
    destruct (matchesFieldLine (Js.trim l) && negb (Js.includes l ";")
              && negb (Js.includes l "{")); [|contradiction].
    destruct H as [<- | []]. unfold pointsInto; cbn.
    repeat split; lia.
Qed.

Lemma analyzeLines_inv p d : forall ls k,
  In d (analyzeLines p k ls) ->
  exists i l, nth_error ls i = Some l /\ In d (analyzeLine p (k + i) l).
Proof.
  induction ls as [|l ls IH]; intros k; cbn [analyzeLines]; [contradiction|].
  rewrite in_app_iff. intros [H | H].
  - exists 0, l. rewrite Nat.add_0_r. split; [reflexivity | exact H].
  - apply IH in H as (i & l' & Hn & Hd).
    exists (S i), l'. rewrite Nat.add_succ_r. split; [exact Hn | exact Hd].
Qed.

Lemma staticAnalysis_inv st d :
  In d (staticAnalysis st) ->
  exists f c, In f (file_system st) /\ analysed f = Some c /\
              In d (analyzeFile (path f) c).
Proof.
  unfold staticAnalysis. intros H. apply in_flat_map in H as (f & Hf & H).
  destruct (analysed f) as [c|] eqn:Ha; [|contradiction].
  exists f, c. repeat split; assumption.
Qed.

(** X2.  Every diagnostic of [validateCode] points into a file that the
    analysis looks at: an entry of type file with a code path and a content
    that is not empty; its line is the number (from 1) of a line of that
    content, its column lies between 0 and the length of that line, and its
    message is not empty. *)
Theorem diagnostics_point_into_files (st : ProjectState) (d : Diagnostic) :
  In d (staticAnalysis st) ->
  exists f c i l,
    In f (file_system st) /\
    f_type f = file /\ content f = Some c /\ c <> EmptyString /\
    isCodePath (path f) = true /\
    e_file d = path f /\
    nth_error (Js.lines c) i = Some l /\
    e_line d = (Z.of_nat i + 1)%Z /\
    (0 <= e_column d <= Z.of_nat (String.length l))%Z /\
    e_message d <> EmptyString.
Proof.
  intros H. apply staticAnalysis_inv in H as (f & c & Hf & Ha & Hd).
  unfold analyzeFile in Hd. apply analyzeLines_inv in Hd as (i & l & Hn & Hd).
  apply analyzeLine_points in Hd as (Hp & Hl & Hc & Hm).
  exists f, c, i, l. unfold analysed in Ha.
  destruct (f_type f) eqn:Ht; [|discriminate].
  destruct (content f) as [c'|] eqn:Hcont; [|discriminate].
  destruct (Js.truthy c') eqn:Htr; cbn [andb] in Ha; [|discriminate].
  destruct (isCodePath (path f)) eqn:Hcp; [|discriminate].
  injection Ha as ->.
  repeat split; try assumption; try reflexivity; try lia.
  - intros ->. discriminate.
  - intros He. rewrite He in Hm. discriminate.
Qed.

(** A diagnostic of a line of an analysed file fails the validation. *)
Lemma line_diagnostic_fails st f c i l d :
  In f (file_system st) -> analysed f = Some c ->
  nth_error (Js.lines c) i = Some l ->
  In d (analyzeLine (path f) i l) ->
  r_success (validateCode st) = false /\ exit_code (validateCode st) = 1%Z /\
  exists ds, errors (validateCode st) = Some ds /\ In d ds.
Proof.
  intros Hf Ha Hn Hd.
  assert (Hin : In d (staticAnalysis st)).
  { apply (ValidatorFacts.in_staticAnalysis st f c d Hf Ha).
    unfold analyzeFile.
    apply (ValidatorFacts.in_analyzeLines (path f) d (Js.lines c) 0 i l Hn Hd). }
  rewrite (ValidatorFacts.validateCode_failure st d Hin). cbn.
  repeat split. eexists. split; [reflexivity | exact Hin].
Qed.

(** X3.  Each of the six forbidden placeholders fails the validation: when
    the content of an analysed file includes one of [lazyPatterns],
    [validateCode] fails with exit code 1 and reports, for a line of that
    file that has the placeholder, a syntax diagnostic that quotes it, with
    the column of its first occurrence in the line. *)
Theorem lazy_pattern_fails (st : ProjectState) (f : FileEntry)
  (c pattern : string) :
  In f (file_system st) ->
  analysed f = Some c ->
  In pattern lazyPatterns ->
  Js.includes c pattern = true ->
  r_success (validateCode st) = false /\ exit_code (validateCode st) = 1%Z /\
  exists ds i l,
    errors (validateCode st) = Some ds /\
    nth_error (Js.lines c) i = Some l /\
    Js.includes l pattern = true /\
    In (mkDiag (path f) (Z.of_nat i + 1) (Js.indexOf l pattern)
          (placeholderMessage pattern) ErrSyntax) ds.
Proof.
  intros Hf Ha Hp Hi.
  assert (Hnl : Js.countChar (ascii_of_nat 10) pattern = 0).
  { cbn in Hp.
    repeat (destruct Hp as [<- | Hp]; [reflexivity|]). contradiction. }
  destruct (JsFacts.includes_piece _ pattern c Hnl Hi) as (i & l & Hn & Hl).
  assert (Hd : In (mkDiag (path f) (Z.of_nat i + 1) (Js.indexOf l pattern)
                     (placeholderMessage pattern) ErrSyntax)
                  (analyzeLine (path f) i l)).
  { unfold analyzeLine. rewrite !in_app_iff. right; left.
    unfold lazyErrors. apply in_flat_map. exists pattern.
    split; [exact Hp|]. rewrite Hl. left. reflexivity. }
  destruct (line_diagnostic_fails st f c i l _ Hf Ha Hn Hd) as (Hs & He & ds & Hds & Hin).
  repeat split; try assumption.
  exists ds, i, l. repeat split; assumption.
Qed.

(** X4.  A line that closes more braces than it opens fails the
    validation, whatever the other lines hold: for such a line of an
    analysed file, [validateCode] fails with exit code 1 and reports
    "Unexpected token '}'" at the last closing brace of the line. *)
Theorem closing_brace_line_fails (st : ProjectState) (f : FileEntry)
  (c : string) (i : nat) (l : string) :
  In f (file_system st) ->
  analysed f = Some c ->
  nth_error (Js.lines c) i = Some l ->
  Js.countChar "{" l < Js.countChar "}" l ->
  r_success (validateCode st) = false /\ exit_code (validateCode st) = 1%Z /\
  exists ds,
    errors (validateCode st) = Some ds /\
    In (mkDiag (path f) (Z.of_nat i + 1) (Js.lastIndexOf l "}")
          "Unexpected token '}'" ErrSyntax) ds.
Proof.
  intros Hf Ha Hn Hlt.
  apply (line_diagnostic_fails st f c i l _ Hf Ha Hn).
  unfold analyzeLine. rewrite !in_app_iff. right; right; left.
  unfold braceErrors.
  assert (H1 : (Js.countChar "{" l =? Js.countChar "}" l)%nat = false)
    by (apply Nat.eqb_neq; lia).
  assert (H2 : (Js.countChar "{" l <? Js.countChar "}" l)%nat = true)
    by (apply Nat.ltb_lt; lia).
  rewrite H1, H2. left. reflexivity.
Qed.

(** X5.  The fatal patterns are looked for without regard to letter case:
    a failed result whose stderr holds one of [fatalPatterns] in any mix of
    upper and lower case is not recoverable. *)
Theorem fatal_pattern_in_any_case (r : CompilationResult)
  (pre variant post pattern : string) :
  r_success r = false ->
  In pattern fatalPatterns ->
  Js.toLowerCase variant = Js.toLowerCase pattern ->
  r_stderr r = (pre ++ variant ++ post)%string ->
  isRecoverableError r = false.
Proof.
  intros Hs Hp Hv He. unfold isRecoverableError. rewrite Hs.
  apply negb_false_iff, existsb_exists. exists pattern. split; [exact Hp|].
  rewrite He. unfold Js.toLowerCase in *. rewrite !mapChars_app, Hv.
  apply includes_app.
Qed.

End DiagnosticFacts.

(* ================================================================= *)
(** ** The completion client: bounds of a call, and the phase tag *)

Module ClientFacts.
Import Types GeminiService Spec Behaviour StringFacts.

Section Bounds.
Context {T : Type} (cfg : RetryConfig) (fn : nat -> Outcome T).
Hypothesis delays_ordered : (0 <= initialDelay cfg <= maxDelay cfg)%Z.

Lemma retryLoop_step remaining attempt delay lastError :
  retryLoop cfg fn (S remaining) attempt delay lastError =
    match fn attempt with
    | Returned v => mkRun (Resolved v) [] 1
    | Threw t =>
        let m := thrownMessage t in
        if isAuthMessage m then mkRun (Rejected m) [] 1
        else if (attempt =? maxRetries cfg)%nat then mkRun (Rejected m) [] 1
        else
          let r := retryLoop cfg fn remaining (S attempt)
                     (Z.min (delay * 2) (maxDelay cfg)) (Some m) in
          mkRun (result r) (delay :: waits r) (S (calls r))
    end.
Proof. reflexivity. Qed.

(** The loop from [attempt] on, with a delay between the initial and the
    maximal one. *)
Lemma retryLoop_bounds : forall remaining attempt delay lastError,
  attempt + remaining = maxRetries cfg ->
  (initialDelay cfg <= delay <= maxDelay cfg)%Z ->
  let r := retryLoop cfg fn (S remaining) attempt delay lastError in
  1 <= calls r <= S remaining /\
  S (List.length (waits r)) = calls r /\
  Forall (fun d => (delay <= d <= maxDelay cfg)%Z) (waits r) /\
  (forall i j d e, i <= j -> nth_error (waits r) i = Some d ->
                   nth_error (waits r) j = Some e -> (d <= e)%Z) /\
  (forall k, S k < calls r -> retried fn (attempt + k)).
Proof.
  induction remaining as [|remaining IH]; intros attempt delay lastError Hsum Hd;
    cbv zeta; rewrite retryLoop_step.
  - assert (Hlast : (attempt =? maxRetries cfg)%nat = true)
      by (apply Nat.eqb_eq; lia).
    destruct (fn attempt) as [v | t]; cbv zeta; cbn [calls waits List.length].
    + repeat split; try lia; try constructor.
      intros i j d e _ Hi. destruct i; discriminate.
    + rewrite Hlast.
      destruct (isAuthMessage _); cbn [calls waits List.length];
        (repeat split; try lia; try constructor;
         intros i j d e _ Hi; destruct i; discriminate).
  - assert (Hnot : (attempt =? maxRetries cfg)%nat = false)
      by (apply Nat.eqb_neq; lia).
    destruct (fn attempt) as [v | t] eqn:Hfn; cbv zeta;
      cbn [calls waits List.length].
    + repeat split; try lia; try constructor.
      intros i j d e _ Hi. destruct i; discriminate.
    + destruct (isAuthMessage _) eqn:Hauth; cbn [calls waits List.length].
      * repeat split; try lia; try constructor.
        intros i j d e _ Hi. destruct i; discriminate.
      * rewrite Hnot.
        set (delay' := Z.min (delay * 2) (maxDelay cfg)).
        assert (Hd' : (delay <= delay' <= maxDelay cfg)%Z) by (unfold delay'; lia).
        destruct (IH (S attempt) delay' (Some (thrownMessage t)))
          as (Hc & Hl & Hw & Hs & Hr); [lia | lia |].
        cbv zeta in Hc, Hl, Hw, Hs, Hr.
        set (r := retryLoop cfg fn (S remaining) (S attempt) delay' _) in *.
        cbn [calls waits List.length result].
        split; [lia|]. split; [lia|]. split; [|split].
        -- constructor; [lia|].
           eapply Forall_impl; [|exact Hw]. cbv beta. intros d Hdd. lia.
        -- intros i j d e Hij Hi Hj.
           destruct i as [|i]; destruct j as [|j]; cbn [nth_error] in Hi, Hj.
           ++ injection Hi as <-. injection Hj as <-. lia.
           ++ injection Hi as <-.
              apply nth_error_In in Hj.
              rewrite Forall_forall in Hw. specialize (Hw e Hj). lia.
           ++ lia.
           ++ apply (Hs i j d e); [lia | exact Hi | exact Hj].
        -- intros k Hk. destruct k as [|k].
           ++ rewrite Nat.add_0_r. exists t. split; [exact Hfn | exact Hauth].
           ++ replace (attempt + S k) with (S attempt + k) by lia.
              apply Hr. lia.
Qed.

End Bounds.

(** X7.  [retryWithBackoff] with delays [0 <= initialDelay <= maxDelay]:
    it calls [fn] at least once and at most [maxRetries + 1] times; it
    sleeps exactly once between two calls; every delay lies between
    [initialDelay] and [maxDelay], and the delays never decrease; and every
    call but the last one failed with an error that is not an
    authentication error. *)
Theorem retryWithBackoff_bounds {T} (cfg : RetryConfig)
  (fn : nat -> Outcome T) :
  (0 <= initialDelay cfg <= maxDelay cfg)%Z ->
  let r := retryWithBackoff cfg fn in
  1 <= calls r <= S (maxRetries cfg) /\
  S (List.length (waits r)) = calls r /\
  Forall (fun d => (initialDelay cfg <= d <= maxDelay cfg)%Z) (waits r) /\
  (forall i j d e, i <= j -> nth_error (waits r) i = Some d ->
                   nth_error (waits r) j = Some e -> (d <= e)%Z) /\
  (forall k, S k < calls r -> retried fn k).
Proof.
  intros Hd. unfold retryWithBackoff.
  apply (retryLoop_bounds cfg fn Hd (maxRetries cfg) 0 (initialDelay cfg) None);
    lia.
Qed.

(** X8.  One call of [sendPrompt] sends at most four requests and sleeps
    at most 7000 ms in all: with a key, the delays it sleeps are the first
    [n] of 1000, 2000, 4000 ms for the [n + 1 <= 4] requests it sends;
    without a key it sends none. *)
Theorem sendPrompt_requests_and_waits (apiKey : option string)
  (replies : nat -> HttpReply) :
  let r := sendPrompt apiKey replies in
  calls r <= 4 /\
  (fold_right Z.add 0 (waits r) <= 7000)%Z /\
  (isAvailable apiKey = true ->
   exists n, n <= 3 /\ calls r = S n /\
             waits r = firstn n [1000; 2000; 4000]%Z) /\
  (isAvailable apiKey = false -> calls r = 0 /\ waits r = []).
Proof.
  cbv zeta.
  destruct apiKey as [[|c key]|]; cbn [sendPrompt isAvailable String.length Nat.ltb Nat.leb calls waits fold_right];
    try (repeat split; try lia; discriminate).
  assert (H : exists n, n <= 3 /\
            calls (retryWithBackoff retryConfig (fun k => request (replies k))) = S n /\
            waits (retryWithBackoff retryConfig (fun k => request (replies k))) =
              firstn n [1000; 2000; 4000]%Z).
  { unfold retryWithBackoff.
    cbn [retryLoop retryConfig maxRetries initialDelay maxDelay Nat.eqb].
    destruct (request (replies 0)) as [v | t0];
      [exists 0; repeat split; lia|].
    destruct (isAuthMessage _); [exists 0; repeat split; lia|].
    destruct (request (replies 1)) as [v | t1];
      [exists 1; repeat split; lia|].
    destruct (isAuthMessage _); [exists 1; repeat split; lia|].
    destruct (request (replies 2)) as [v | t2];
      [exists 2; repeat split; lia|].
    destruct (isAuthMessage _); [exists 2; repeat split; lia|].
    destruct (request (replies 3)) as [v | t3];
      [exists 3; repeat split; lia|].
    destruct (isAuthMessage _); exists 3; repeat split; lia. }
  destruct H as (n & Hn & Hc & Hw).
  split; [lia|]. split.
  - rewrite Hw. destruct n as [|[|[|[|n]]]]; cbn; lia.
  - split; [|discriminate]. intros _. exists n. repeat split; assumption.
Qed.

(** X9.  A refusal that is not a 401 is not retried either when its
    message names the API key: a reply with status 403 whose body is a JSON
    object, and a reply with status 400 whose body is a JSON object with an
    [error.message] that includes "API key", each end [sendPrompt] with that
    one request and no sleep. *)
Theorem forbidden_and_bad_key_not_retried (key : string) (body : ErrorBody) :
  key <> EmptyString ->
  (forall replies,
      replies 0 = ErrorStatus 403 body ->
      sendPrompt (Some key) replies =
        mkRun (Rejected
                 "API access forbidden. Please check your API key permissions.")
          [] 1) /\
  (forall replies m,
      replies 0 = ErrorStatus 400 body ->
      error_message body = Some m ->
      Js.includes m "API key" = true ->
      sendPrompt (Some key) replies =
        mkRun (Rejected ("Invalid request: " ++ m)) [] 1).
Proof.
  intros Hkey. destruct key as [|c key]; [congruence|].
  unfold sendPrompt, retryWithBackoff. split.
  - intros replies H. cbn [retryLoop retryConfig maxRetries]. rewrite H.
    reflexivity.
  - intros replies m H Hm Hi.
    cbn [retryLoop retryConfig maxRetries]. rewrite H.
    cbn [request]. unfold formatErrorMessage. rewrite Hm.
    cbn [Z.eqb Pos.eqb orElse].
    assert (Ht : Js.truthy m = true).
    { destruct m; [discriminate | reflexivity]. }
    rewrite Ht.
    assert (Ha : isAuthMessage ("Invalid request: " ++ m) = true).
    { unfold isAuthMessage. rewrite (includes_suffix _ m _ Hi). reflexivity. }
    rewrite Ha. reflexivity.
Qed.

Lemma phaseMatch_unfold s :
  phaseMatch s =
    match (if startsWithNoCase s "[PHASE:" then phaseWord (Js.drop 7 s)
           else None) with
    | Some w => Some w
    | None =>
        match s with
        | EmptyString => None
        | String _ s' => phaseMatch s'
        end
    end.
Proof. destruct s; reflexivity. Qed.

Lemma phaseMatch_skips pre rest :
  Js.includes pre "[" = false -> phaseMatch (pre ++ rest) = phaseMatch rest.
Proof.
  induction pre as [|c pre IH]; intros H; [reflexivity|].
  rewrite JsFacts.includes_cons in H. apply orb_false_iff in H as [Hc Hp].
  cbn [Js.startsWith] in Hc.
  rewrite ?JsFacts.startsWith_empty, ?andb_true_r in Hc.
  cbn [String.append]. rewrite phaseMatch_unfold.
  assert (Hs : startsWithNoCase (String c (pre ++ rest)) "[PHASE:" = false).
  { unfold startsWithNoCase, Js.toLowerCase.
    cbn [Js.mapChars Js.startsWith].
    change (Js.lowerChar "[") with "["%char.
    now rewrite (lower_bracket c Hc). }
  rewrite Hs. apply IH, Hp.
Qed.

(** X10.  [extractPhase] reads back the tag the agents are asked to put in
    their reply: when the text has no bracket before it, a tag made of
    [[PHASE:] in any letter case, optional blanks, the name of a phase in
    any letter case and a closing bracket yields that phase, whatever
    follows the tag. *)
Theorem extractPhase_reads_tag (p : AgentPhase)
  (pre tag blanks word post : string) :
  Js.includes pre "[" = false ->
  Js.toLowerCase tag = "[phase:" ->
  allChars Js.isSpace blanks = true ->
  Js.toUpperCase word = phaseName p ->
  extractPhase (pre ++ tag ++ blanks ++ word ++ "]" ++ post) = Some p.
Proof.
  intros Hpre Htag Hblanks Hword.
  assert (Hw : allChars Js.isWord word = true).
  { apply (allChars_impl (fun c => Js.isUpper (Js.upperChar c)));
      [exact upper_is_word|].
    rewrite <- (allChars_mapChars Js.isUpper Js.upperChar).
    change (Js.mapChars Js.upperChar word) with (Js.toUpperCase word).
    rewrite Hword. destruct p; reflexivity. }
  assert (Hne : exists c word', word = String c word').
  { destruct word as [|c word']; [destruct p; discriminate|].
    now exists c, word'. }
  destruct Hne as (c & word' & ->).
  unfold extractPhase. rewrite (phaseMatch_skips _ _ Hpre), phaseMatch_unfold.
  assert (Hs : startsWithNoCase
                 (tag ++ blanks ++ String c word' ++ "]" ++ post) "[PHASE:"
               = true).
  { unfold startsWithNoCase, Js.toLowerCase in *.
    rewrite mapChars_app, Htag. apply JsFacts.startsWith_app. }
  rewrite Hs.
  assert (Hlen : String.length tag = 7).
  { rewrite <- (mapChars_length Js.lowerChar tag).
    unfold Js.toLowerCase in Htag. now rewrite Htag. }
  rewrite <- Hlen, JsFacts.drop_app.
  unfold phaseWord.
  rewrite (JsFacts.trimStart_blank blanks _ (ascii_blank blanks Hblanks)).
  assert (Hc : Js.isWord c = true).
  { cbn [allChars] in Hw. now apply andb_true_iff in Hw as [Hc _]. }
  change (String c word' ++ "]" ++ post)%string
    with (String c (word' ++ "]" ++ post)) at 1.
  rewrite (trimStart_word c _ Hc).
  change (String c (word' ++ "]" ++ post))
    with (String c word' ++ "]" ++ post)%string.
  rewrite (spanChars_app Js.isWord (String c word') _ Hw) by reflexivity.
  cbn [String.append Js.truthy andb]. rewrite Ascii.eqb_refl.
  rewrite Hword. destruct p; reflexivity.
Qed.

(** X11.  The test [isAvailable] of the orchestrator agrees with the guard
    of [sendPrompt]: when the service is available a call sends at least
    one request, and when it is not a call sends none and fails with the
    message that the key is not configured. *)
Theorem isAvailable_agrees_with_sendPrompt (apiKey : option string)
  (replies : nat -> HttpReply) :
  (isAvailable apiKey = true <-> 1 <= calls (sendPrompt apiKey replies)) /\
  (isAvailable apiKey = false <->
   sendPrompt apiKey replies = mkRun (Rejected apiKeyMissing) [] 0).
Proof.
  destruct apiKey as [[|c key]|];
    cbn [sendPrompt isAvailable String.length Nat.ltb Nat.leb calls].
  - split; split; try discriminate; try reflexivity; lia.
  - assert (Hd : (0 <= initialDelay retryConfig <= maxDelay retryConfig)%Z)
      by (cbn; lia).
    destruct (retryLoop_bounds retryConfig (fun k => request (replies k)) Hd
                (maxRetries retryConfig) 0 (initialDelay retryConfig) None)
      as ((H1 & _) & Hl & _); [reflexivity | cbn; lia |].
    cbv zeta in H1.
    change (retryLoop retryConfig (fun k => request (replies k))
              (S (maxRetries retryConfig)) 0 (initialDelay retryConfig) None)
      with (retryWithBackoff retryConfig (fun k => request (replies k))) in H1.
    split; split; try reflexivity; try discriminate; try (intros _; exact H1).
    intros H. rewrite H in H1. cbn in H1. lia.
  - split; split; try discriminate; try reflexivity; lia.
Qed.

Lemma lines_app_last sep a b :
  Js.splitChar sep (a ++ b) =
    removelast (Js.splitChar sep a) ++
    Js.splitChar sep (last (Js.splitChar sep a) EmptyString ++ b).
Proof.
  induction a as [|c a IH]; [reflexivity|].
  cbn [String.append Js.splitChar].
  pose proof (JsFacts.splitChar_nonempty sep a) as Hne.
  destruct (Ascii.eqb c sep) eqn:Hc.
  - rewrite IH.
    destruct (Js.splitChar sep a) as [|p ps]; [congruence|]. reflexivity.
  - rewrite IH.
    destruct (Js.splitChar sep a) as [|p ps]; [congruence|].
    destruct ps as [|p' ps].
    + cbn [removelast last app String.append Js.splitChar]. rewrite Hc.
      reflexivity.
    + reflexivity.
Qed.

Lemma pieces_have_no_separator sep s :
  Forall (fun p => Js.countChar sep p = 0) (Js.splitChar sep s).
Proof.
  induction s as [|c s IH]; cbn [Js.splitChar].
  - repeat constructor.
  - destruct (Ascii.eqb c sep) eqn:Hc.
    + constructor; [reflexivity | exact IH].
    + destruct (Js.splitChar sep s) as [|p ps]; [repeat constructor; cbn; now rewrite Hc|].
      inversion IH as [|? ? Hp Hps]; subst.
      constructor; [cbn; now rewrite Hc, Hp | exact Hps].
Qed.

Lemma line_without_separator sep s :
  Js.countChar sep s = 0 -> Js.splitChar sep s = [s].
Proof.
  induction s as [|c s IH]; cbn [Js.countChar Js.splitChar]; [reflexivity|].
  destruct (Ascii.eqb c sep); [lia|]. intros H. now rewrite IH.
Qed.

Section Streaming.
Context {J Y : Type} (JSON_parse : string -> option J) (textOf : J -> option Y).

Lemma yields_app l l' :
  yields JSON_parse textOf (l ++ l') =
  yields JSON_parse textOf l ++ yields JSON_parse textOf l'.
Proof. apply flat_map_app. Qed.

(** The loop reads every line of what the buffer and the chunks hold
    together but the last one, whatever the cuts between the chunks. *)
Lemma readChunks_joined : forall chunks buffer,
  Js.countChar (ascii_of_nat 10) buffer = 0 ->
  readChunks JSON_parse textOf buffer chunks =
    yields JSON_parse textOf
      (removelast (Js.lines (buffer ++ String.concat EmptyString chunks))).
Proof.
  assert (Hcat : forall c rest,
             String.concat EmptyString (c :: rest) =
             (c ++ String.concat EmptyString rest)%string).
  { intros c [|c' rest]; cbn; [now rewrite append_empty | reflexivity]. }
  induction chunks as [|c rest IH]; intros buffer Hb.
  - cbn [readChunks String.concat]. rewrite append_empty.
    unfold Js.lines. now rewrite (line_without_separator _ _ Hb).
  - cbn [readChunks]. rewrite Hcat.
    rewrite <- JsFacts.append_assoc. unfold Js.lines in *.
    rewrite (lines_app_last _ (buffer ++ c) (String.concat EmptyString rest)).
    rewrite removelast_app by apply JsFacts.splitChar_nonempty.
    rewrite yields_app. f_equal.
    apply IH.
    pose proof (pieces_have_no_separator (ascii_of_nat 10) (buffer ++ c)) as Hp.
    pose proof (JsFacts.splitChar_nonempty (ascii_of_nat 10) (buffer ++ c)) as Hne.
    rewrite Forall_forall in Hp. apply Hp.
    destruct (Js.splitChar (ascii_of_nat 10) (buffer ++ c)) as [|p ps]; [congruence|].
    apply (@exists_last _ (p :: ps)) in Hne as (init & lst & ->).
    rewrite last_last. apply in_or_app. right. now left.
Qed.

End Streaming.

(** X12.  What [streamPrompt] yields does not depend on how the body
    arrives in chunks: it is what the lines of the whole body yield, each
    line read once and in order, but for the text after the last line feed,
    which is never read.  So two bodies that are the same text yield the
    same values, and a body that does not end in a line feed loses its last
    line. *)
Theorem streamPrompt_ignores_chunking {J Y} (JSON_parse : string -> option J)
  (textOf : J -> option Y) (c : ascii) (key : string)
  (chunks : list string) (ending : option Thrown) :
  yielded (streamPrompt JSON_parse textOf (Some (String c key))
             (StreamBody chunks ending)) =
    yields JSON_parse textOf
      (removelast (Js.lines (String.concat EmptyString chunks))) /\
  (forall chunks' ending',
      String.concat EmptyString chunks' = String.concat EmptyString chunks ->
      yielded (streamPrompt JSON_parse textOf (Some (String c key))
                 (StreamBody chunks' ending')) =
      yielded (streamPrompt JSON_parse textOf (Some (String c key))
                 (StreamBody chunks ending))) /\
  (forall tail,
      Js.countChar (ascii_of_nat 10) tail = 0 ->
      yielded (streamPrompt JSON_parse textOf (Some (String c key))
                 (StreamBody (chunks ++ [tail]) ending)) =
      yielded (streamPrompt JSON_parse textOf (Some (String c key))
                 (StreamBody chunks ending))).
Proof.
  cbn [streamPrompt yielded].
  assert (H : forall l,
             readChunks JSON_parse textOf EmptyString l =
             yields JSON_parse textOf
               (removelast (Js.lines (String.concat EmptyString l)))).
  { intros l. now rewrite (readChunks_joined JSON_parse textOf l EmptyString). }
  split; [apply H|]. split.
  - intros chunks' ending' Hc. now rewrite !H, Hc.
  - intros tail Ht. rewrite !H. f_equal.
    assert (Hcat : String.concat EmptyString (chunks ++ [tail]) =
                   (String.concat EmptyString chunks ++ tail)%string).
    { clear. induction chunks as [|x l IH]; [reflexivity|].
      destruct l as [|y l].
      - cbn. reflexivity.
      - change (String.concat EmptyString ((x :: y :: l) ++ [tail]))
          with (x ++ String.concat EmptyString ((y :: l) ++ [tail]))%string.
        rewrite IH. cbn [String.concat].
        now rewrite JsFacts.append_assoc. }
    rewrite Hcat. unfold Js.lines.
    rewrite lines_app_last.
    pose proof (pieces_have_no_separator (ascii_of_nat 10)
                  (String.concat EmptyString chunks)) as Hp.
    pose proof (JsFacts.splitChar_nonempty (ascii_of_nat 10)
                  (String.concat EmptyString chunks)) as Hne.
    set (L := Js.splitChar (ascii_of_nat 10) (String.concat EmptyString chunks)) in *.
    assert (Hl : Js.countChar (ascii_of_nat 10) (last L EmptyString) = 0).
    { rewrite Forall_forall in Hp. apply Hp.
      destruct L as [|p ps]; [congruence|].
      apply (@exists_last _ (p :: ps)) in Hne as (init & lst & ->).
      rewrite last_last. apply in_or_app. right. now left. }
    rewrite line_without_separator.
    + rewrite removelast_app by discriminate. cbn [removelast].
      now rewrite app_nil_r.
    + rewrite JsFacts.countChar_app. lia.
Qed.

End ClientFacts.

(* ================================================================= *)
(** ** The orchestrator: what its methods can change *)

Module FootprintFacts.
Import Types SimulationService Orchestrator Spec Behaviour OrchestratorFacts.

Section Footprint.
Variable b : Rights.

Lemma reaches_trans x y z : reaches b x y -> reaches b y z -> reaches b x z.
Proof.
  induction 1 as [|w w1 w2 Hm _ IH]; [auto|].
  intros H. exact (r_move b w w1 z Hm (IH H)).
Qed.

Lemma reaches_move w w' : moves b w w' -> reaches b w w'.
Proof. intros H. exact (r_move b w w' w' H (r_here b w')). Qed.

Lemma fp_ret {A} (a : A) : keeps (reaches b) (ret a).
Proof. apply keeps_ret, r_here. Qed.

Lemma fp_throw {A} e : keeps (reaches b) (@throw A e).
Proof. apply keeps_throw, r_here. Qed.

Lemma fp_gets {A} (f : World -> A) : keeps (reaches b) (gets f).
Proof. apply keeps_gets, r_here. Qed.

Lemma fp_bind {A B} (m : M A) (k : A -> M B) :
  keeps (reaches b) m -> (forall a, keeps (reaches b) (k a)) ->
  keeps (reaches b) (bind m k).
Proof. apply keeps_bind, reaches_trans. Qed.

Lemma fp_when c (m : M unit) : keeps (reaches b) m -> keeps (reaches b) (when c m).
Proof. apply keeps_when, r_here. Qed.

Lemma fp_forEachIndexed {A} (body : nat -> A -> M unit) l i :
  (forall i x, keeps (reaches b) (body i x)) ->
  keeps (reaches b) (forEachIndexed body i l).
Proof. apply keeps_forEachIndexed; [apply r_here | apply reaches_trans]. Qed.

Lemma fp_view (f : World -> World) :
  (forall w, isRunning (f w) = isRunning w /\
             projectState (f w) = projectState w /\
             conversationHistory (f w) = conversationHistory w /\
             prompts (f w) = prompts w) ->
  keeps (reaches b) (modify f).
Proof.
  intros H w. apply reaches_move. destruct (H w) as (H1 & H2 & H3 & H4).
  now apply m_view.
Qed.

Lemma fp_updateState f :
  (forall s, assigns b s (f s)) -> keeps (reaches b) (updateState f).
Proof. intros H w. apply reaches_move, m_state, H. Qed.

Context {J : Type} (E : Env J).

Lemma fp_tick : keeps (reaches b) (tick E).
Proof.
  intros w. unfold tick, modify. cbn [snd].
  destruct (stopAt E (ticks w)).
  - eapply r_move; [apply m_stop|]. apply reaches_move.
    apply m_view; reflexivity.
  - apply reaches_move. apply m_view; reflexivity.
Qed.

Lemma fp_emit e : keeps (reaches b) (emit E e).
Proof.
  apply fp_bind; [|intros _; apply fp_tick].
  apply fp_view. intros w. repeat split.
Qed.

Lemma fp_log a m t : keeps (reaches b) (log E a m t).
Proof. apply fp_emit. Qed.

Lemma fp_now : keeps (reaches b) (now E).
Proof. intros w. apply reaches_move. apply m_view; reflexivity. Qed.

Lemma fp_awaitSendPrompt sp up h :
  asks b = true -> keeps (reaches b) (awaitSendPrompt E sp up h).
Proof.
  intros Hasks.
  intros w. unfold awaitSendPrompt. rewrite run_bind. cbn [gets].
  rewrite run_bind. cbn [modify].
  eapply r_move; [apply m_prompt, Hasks|].
  match goal with
  | |- reaches b ?w1 (snd (?m ?w1)) => enough (H : keeps (reaches b) m) by apply H
  end.
  apply fp_bind; [apply fp_tick | intros _].
  destruct (GeminiService.result _); [apply fp_ret | apply fp_throw].
Qed.

Lemma fp_validate : keeps (reaches b) (validate E).
Proof.
  unfold validate.
  apply fp_bind; [apply fp_gets | intros s].
  apply fp_bind; [apply fp_tick | intros _; apply fp_ret].
Qed.

Lemma fp_addToHistory u m : keeps (reaches b) (addToHistory u m).
Proof. intros w. apply reaches_move, m_history. Qed.

Lemma fp_notifyStateUpdate : keeps (reaches b) (notifyStateUpdate E).
Proof.
  unfold notifyStateUpdate. destruct (hasStateUpdate _); [|apply fp_ret].
  apply fp_bind; [apply fp_gets | intros s]. apply fp_emit.
Qed.

Lemma fp_enterPhase p : keeps (reaches b) (enterPhase E p).
Proof.
  unfold enterPhase.
  apply fp_bind; [apply fp_view; intros w; repeat split | intros _].
  apply fp_bind; [apply fp_updateState; intros s; constructor | intros _].
  apply fp_emit.
Qed.

Lemma fp_ask p : asks b = true -> keeps (reaches b) (ask E p).
Proof.
  intros Hasks. unfold ask.
  apply fp_bind; [apply fp_gets | intros s].
  apply fp_bind; [apply fp_gets | intros h].
  apply fp_bind; [now apply fp_awaitSendPrompt | intros text; apply fp_ret].
Qed.

Lemma fp_logThought a p : keeps (reaches b) (logThought E a p).
Proof.
  unfold logThought. destruct (thought p); [|apply fp_ret].
  apply fp_when, fp_log.
Qed.

Lemma fp_pushTerminalLog r :
  heals b = true -> keeps (reaches b) (pushTerminalLog E r).
Proof.
  intros Hheals. unfold pushTerminalLog.
  apply fp_bind; [apply fp_now | intros stamp].
  apply fp_updateState. intros s. now constructor.
Qed.

End Footprint.

Ltac fp_step :=
  lazymatch goal with
  | |- keeps _ (ret _) => apply fp_ret
  | |- keeps _ (throw _) => apply fp_throw
  | |- keeps _ (gets _) => apply fp_gets
  | |- keeps _ (log _ _ _ _) => apply fp_log
  | |- keeps _ (tick _) => apply fp_tick
  | |- keeps _ (now _) => apply fp_now
  | |- keeps _ (addToHistory _ _) => apply fp_addToHistory
  | |- keeps _ (notifyStateUpdate _) => apply fp_notifyStateUpdate
  | |- keeps _ (enterPhase _ _) => apply fp_enterPhase
  | |- keeps _ (ask _ _) => apply fp_ask; first [assumption | reflexivity]
  | |- keeps _ (logThought _ _ _) => apply fp_logThought
  | |- keeps _ (pushTerminalLog _ _) =>
      apply fp_pushTerminalLog; first [assumption | reflexivity]
  | |- keeps _ (validate _) => apply fp_validate
  | |- keeps _ (when _ _) => apply fp_when
  | |- keeps _ (updateState _) =>
      apply fp_updateState; intros ?; constructor;
      first [assumption | reflexivity]
  | |- keeps _ (modify _) => apply fp_view; intros ?; repeat split
  | |- keeps _ (emit _ _) => apply fp_emit
  | |- keeps _ (forEachIndexed _ _ _) => apply fp_forEachIndexed; intros ? ?
  | |- keeps _ (bind _ _) => apply fp_bind; [| intros ?]
  | |- keeps _ (match ?x with _ => _ end) => destruct x
  end.

Section Methods.
Context {J : Type} (E : Env J) (b : Rights).
Hypothesis Hasks : asks b = true.

Lemma fp_executePlanningPhase : keeps (reaches b) (executePlanningPhase E).
Proof. unfold executePlanningPhase. repeat fp_step. Qed.

Lemma fp_executeDesignPhase : keeps (reaches b) (executeDesignPhase E).
Proof. unfold executeDesignPhase. repeat fp_step. Qed.

(** [mergeFile] rewrites the entry it found, or appends under a path it
    did not find. *)
Lemma fp_mergeFile f : keeps (reaches b) (mergeFile E f).
Proof.
  intros w. unfold mergeFile. rewrite run_bind. cbn [gets].
  rewrite run_bind. cbn [now].
  eapply r_move; [apply (m_view b w (set_clockReads (S (clockReads w)) w));
                  reflexivity|].
  destruct (findFile (g_path f) (file_system (projectState w))) eqn:Hf;
    apply reaches_move; unfold updateState, modify; cbn [snd];
    apply m_state.
  - apply a_rewrite.
  - apply a_append. exact Hf.
Qed.

Lemma fp_executeCodingPhase : keeps (reaches b) (executeCodingPhase E).
Proof.
  unfold executeCodingPhase. repeat fp_step; apply fp_mergeFile.
Qed.

Lemma fp_applyFix i fx : keeps (reaches b) (applyFix E i fx).
Proof.
  unfold applyFix.
  apply fp_bind; [apply fp_gets | intros s].
  destruct (findFile _ _) as [f|]; [|apply fp_ret].
  destruct (content f) as [c|]; [|apply fp_ret].
  destruct (Js.truthy c); [|apply fp_ret].
  apply fp_bind; [apply fp_now | intros stamp].
  apply fp_bind; [|intros _; apply fp_log].
  apply fp_updateState. intros s'. apply a_rewrite.
Qed.

Lemma fp_simulate steps : keeps (reaches b) (simulate E steps).
Proof.
  induction steps as [|st steps IH]; cbn [simulate]; repeat fp_step. exact IH.
Qed.

Section Healing.
Hypothesis Hheals : heals b = true.

Lemma fp_executePatchingPhase : keeps (reaches b) (executePatchingPhase E).
Proof.
  unfold executePatchingPhase. repeat fp_step. apply fp_applyFix.
Qed.

Lemma fp_healingAttempt result : keeps (reaches b) (healingAttempt E result).
Proof.
  unfold healingAttempt. repeat fp_step. apply fp_executePatchingPhase.
Qed.

Lemma fp_healingLoop result fuel : keeps (reaches b) (healingLoop E fuel result).
Proof.
  induction fuel as [|fuel IH]; cbn [healingLoop].
  - apply fp_bind; [apply fp_gets | intros s].
    destruct (_ && _); [intros w; apply r_here | apply fp_ret].
  - apply fp_bind; [apply fp_gets | intros s].
    destruct (_ && _); [|apply fp_ret].
    apply fp_bind; [apply fp_healingAttempt | intros returned].
    destruct returned; [apply fp_ret | exact IH].
Qed.

Lemma fp_executeCompilationAndHealing :
  keeps (reaches b) (executeCompilationAndHealing E).
Proof.
  unfold executeCompilationAndHealing. repeat fp_step. apply fp_healingLoop.
Qed.

Lemma fp_writer m : writer E m -> keeps (reaches b) m.
Proof.
  intros [ | | ];
    [ apply fp_executeCodingPhase | apply fp_executePatchingPhase
    | apply fp_executeCompilationAndHealing ].
Qed.

End Healing.

End Methods.

Section Workflow.
Context {J : Type} (E : Env J).

Lemma fp_executeArchitecturePhase b :
  replaces b = true -> asks b = true ->
  keeps (reaches b) (executeArchitecturePhase E).
Proof.
  intros Hreplaces Hasks. unfold executeArchitecturePhase. repeat fp_step.
Qed.

Lemma fp_generator b m :
  replaces b = true -> asks b = true ->
  generator E m -> keeps (reaches b) m.
Proof.
  intros Hreplaces Hasks [ | | | | ].
  - now apply fp_executePlanningPhase.
  - now apply fp_executeDesignPhase.
  - now apply fp_executeArchitecturePhase.
  - now apply fp_executeCodingPhase.
  - exact (fp_simulate E b SIMULATION_STEPS).
Qed.

Lemma fp_runAIWorkflow u : keeps (reaches everything) (runAIWorkflow E u).
Proof.
  unfold runAIWorkflow.
  repeat lazymatch goal with
    | |- keeps _ (executePlanningPhase _) =>
        apply fp_executePlanningPhase; reflexivity
    | |- keeps _ (executeDesignPhase _) =>
        apply fp_executeDesignPhase; reflexivity
    | |- keeps _ (executeArchitecturePhase _) =>
        apply fp_executeArchitecturePhase; reflexivity
    | |- keeps _ (executeCodingPhase _) =>
        apply fp_executeCodingPhase; reflexivity
    | |- keeps _ (executeCompilationAndHealing _) =>
        apply fp_executeCompilationAndHealing; reflexivity
    | |- _ => fp_step
    end.
Qed.

Lemma fp_method m : method E m -> keeps (reaches everything) m.
Proof.
  intros [ | | | | | | u | ].
  - now apply fp_executePlanningPhase.
  - now apply fp_executeDesignPhase.
  - now apply fp_executeArchitecturePhase.
  - now apply fp_executeCodingPhase.
  - now apply fp_executePatchingPhase.
  - now apply fp_executeCompilationAndHealing.
  - apply fp_runAIWorkflow.
  - exact (fp_simulate E everything SIMULATION_STEPS).
Qed.

Lemma fp_workflow u : keeps (reaches everything) (workflow E u).
Proof.
  unfold workflow.
  apply fp_bind.
  - unfold determineMode. destruct (mode _); try apply fp_ret.
    destruct (negb _); [apply fp_throw | apply fp_ret].
  - intros m. destruct m.
    + exact (fp_simulate E everything SIMULATION_STEPS).
    + apply fp_runAIWorkflow.
    + apply keeps_tryCatch; [apply reaches_trans | apply fp_runAIWorkflow |].
      intros _. apply fp_bind; [apply fp_log | intros _].
      exact (fp_simulate E everything SIMULATION_STEPS).
Qed.

(** [start] on an orchestrator that is not running: from the world in
    which it enters its [try] to the world it leaves. *)
Lemma fp_start u w :
  isRunning w = false -> reaches everything (started u w) (snd (start E u w)).
Proof.
  intros Hw. rewrite (RunFacts.run_start E u w Hw).
  pose proof (fp_workflow u (started u w)) as H.
  destruct (workflow E u (started u w)) as [[[] | e |] w1]; cbn [snd] in *.
  - eapply reaches_trans; [exact H|].
    eapply reaches_trans; [apply fp_emit|]. apply reaches_move, m_stop.
  - eapply reaches_trans; [exact H|].
    eapply reaches_trans; [apply fp_emit|]. apply reaches_move, m_stop.
  - eapply reaches_trans; [exact H|]. apply reaches_move, m_stop.
Qed.

End Workflow.

(** What the changes keep. *)

Lemma reaches_stopped b w w' :
  reaches b w w' -> isRunning w = false -> isRunning w' = false.
Proof.
  induction 1 as [|w w1 w2 Hm _ IH]; [auto|]. intros Hw. apply IH.
  destruct Hm as [w w' H1 _ _ _ | w | w _ | w p t | w s' _]; cbn;
    congruence.
Qed.

Lemma reaches_history b w w' :
  reaches b w w' ->
  prompts w <= prompts w' /\
  exists l, conversationHistory w' = conversationHistory w ++ exchanges l.
Proof.
  induction 1 as [w |w w1 w2 Hm _ (IHp & l & IH)].
  - split; [lia|]. exists []. cbn. now rewrite app_nil_r.
  - destruct Hm as [w w' _ _ H3 H4 | w | w _ | w p t | w s' _];
      cbn [set_isRunning set_prompts set_conversationHistory set_projectState
           conversationHistory prompts] in *.
    + split; [lia|]. exists l. congruence.
    + split; [lia|]. now exists l.
    + split; [lia|]. now exists l.
    + split; [lia|]. exists ((p, t) :: l). rewrite IH, <- app_assoc.
      reflexivity.
    + split; [lia|]. now exists l.
Qed.

(** Who may not ask sends no request. *)
Lemma reaches_silent b w w' :
  asks b = false -> reaches b w w' -> prompts w' = prompts w.
Proof.
  intros Hb. induction 1 as [w |w w1 w2 Hm _ IH]; [reflexivity|].
  rewrite IH.
  destruct Hm as [w w' _ _ _ H4 | w | w Ha | w p t | w s' _];
    try reflexivity; [exact H4 | congruence].
Qed.

Lemma sameProject_refl s : sameProject s s.
Proof.
  unfold sameProject. repeat split; auto. exists []. now rewrite app_nil_r.
Qed.

Lemma sameProject_trans a b c :
  sameProject a b -> sameProject b c -> sameProject a c.
Proof.
  unfold sameProject.
  intros (H1 & H2 & H3 & H4 & H5 & H6 & (l & H7) & H8)
         (K1 & K2 & K3 & K4 & K5 & K6 & (l' & K7) & K8).
  repeat split; try congruence; auto.
  exists (l ++ l'). rewrite K7, H7. now rewrite app_assoc.
Qed.

Lemma assigns_sameProject b s s' : assigns b s s' -> sameProject s s'.
Proof.
  intros H.
  destruct H as [s p | s pl | s d | s fs _ | s p c stamp | s p c stamp _
                | s | s t _ | s n _];
    unfold sameProject; cbn;
    repeat split; auto;
    try (exists []; now rewrite app_nil_r).
  now exists [t].
Qed.

Lemma reaches_sameProject b w w' :
  reaches b w w' -> sameProject (projectState w) (projectState w').
Proof.
  induction 1 as [w |w w1 w2 Hm _ IH]; [apply sameProject_refl|].
  eapply sameProject_trans; [|exact IH].
  destruct Hm as [w w' _ H2 _ _ | w | w _ | w p t | w s' Ha]; cbn;
    try apply sameProject_refl.
  - rewrite H2. apply sameProject_refl.
  - exact (assigns_sameProject b _ _ Ha).
Qed.

(** Who may not heal leaves the counter and the terminal logs. *)
Lemma reaches_unhealed b w w' :
  heals b = false -> reaches b w w' ->
  iteration_count (projectState w') = iteration_count (projectState w) /\
  terminal_logs (projectState w') = terminal_logs (projectState w).
Proof.
  intros Hb. induction 1 as [w |w w1 w2 Hm _ [IH1 IH2]]; [now split|].
  rewrite IH1, IH2.
  destruct Hm as [w w' _ H2 _ _ | w | w _ | w p t | w s' Ha];
    try (split; reflexivity).
  - now rewrite H2.
  - cbn [projectState set_projectState].
    destruct Ha as [s p | s pl | s d | s fs _ | s p c stamp | s p c stamp _
                   | s | s t Hh | s n Hh];
      try (split; reflexivity); congruence.
Qed.

Lemma layout_updateFirst p g fs :
  (forall e, path (g e) = path e /\ f_type (g e) = f_type e) ->
  layout (updateFirst p g fs) = layout fs.
Proof.
  intros Hg. unfold layout.
  induction fs as [|f fs IH]; cbn [updateFirst map]; [reflexivity|].
  destruct (String.eqb (path f) p); cbn [map].
  - destruct (Hg f) as [-> ->]. reflexivity.
  - now rewrite IH.
Qed.

Lemma paths_layout fs : map path fs = map fst (layout fs).
Proof. unfold layout. rewrite map_map. reflexivity. Qed.

Lemma findFile_none p fs : findFile p fs = None -> ~ In p (map path fs).
Proof.
  unfold findFile. intros Hn Hin. apply in_map_iff in Hin as (f & Hp & Hf).
  pose proof (find_none _ _ Hn f Hf) as H. cbv beta in H.
  rewrite Hp, String.eqb_refl in H. discriminate.
Qed.

Lemma sameLayout_refl fs : sameLayout fs fs.
Proof.
  split; [|auto]. exists []. cbn. now rewrite app_nil_r.
Qed.

Lemma sameLayout_trans a b c :
  sameLayout a b -> sameLayout b c -> sameLayout a c.
Proof.
  intros [(l & H1) H2] [(l' & K1) K2]. split; [|auto].
  exists (l ++ l'). rewrite K1, H1, map_app. now rewrite app_assoc.
Qed.

Lemma assigns_sameLayout b s s' :
  replaces b = false ->
  assigns b s s' -> sameLayout (file_system s) (file_system s').
Proof.
  intros Hb H.
  destruct H as [s p | s pl | s d | s fs Hr | s p c stamp | s p c stamp Hnone
                | s | s t _ | s n _];
    cbn [file_system set_status set_plan set_design_system
         set_file_system set_generatedCode set_terminal_logs
         set_iteration_count];
    try apply sameLayout_refl.
  - congruence.
  - assert (Hl : layout
                   (updateFirst p
                      (fun e => mkFile (path e) c (f_type e) (Some stamp))
                      (file_system s)) = layout (file_system s)).
    { apply layout_updateFirst. intros e. split; reflexivity. }
    split.
    + exists []. cbn. now rewrite app_nil_r.
    + now rewrite !paths_layout, Hl.
  - split.
    + exists [p]. unfold layout. rewrite map_app. reflexivity.
    + intros Hn. rewrite map_app. cbn [map path].
      apply NoDup_app; [exact Hn | repeat constructor; intros [] |].
      intros x Hx [<- | []]. exact (findFile_none p _ Hnone Hx).
Qed.

Lemma reaches_sameLayout b w w' :
  replaces b = false ->
  reaches b w w' ->
  sameLayout (file_system (projectState w)) (file_system (projectState w')).
Proof.
  intros Hb.
  induction 1 as [w |w w1 w2 Hm _ IH]; [apply sameLayout_refl|].
  eapply sameLayout_trans; [|exact IH].
  destruct Hm as [w w' _ H2 _ _ | w | w _ | w p t | w s' Ha]; cbn;
    try apply sameLayout_refl.
  - rewrite H2. apply sameLayout_refl.
  - exact (assigns_sameLayout b _ _ Hb Ha).
Qed.

(** X13.  Nothing but [start] sets [isRunning]: a phase, the healing
    loop, the AI workflow or the simulation entered by an orchestrator that
    is stopped leaves it stopped. *)
Theorem stopped_stays_stopped {J} (E : Env J) (m : M unit) (w : World) :
  method E m ->
  isRunning w = false ->
  isRunning (snd (m w)) = false.
Proof.
  intros Hm. exact (reaches_stopped everything w _ (fp_method E m Hm w)).
Qed.

(** X14.  The conversation history only grows, and by whole exchanges: a
    method leaves the history it found, followed by pairs of the prompt of
    the user and the reply of the model; and the number of requests sent
    never goes down. *)
Theorem history_grows_by_exchanges {J} (E : Env J) (m : M unit) (w : World) :
  method E m ->
  prompts w <= prompts (snd (m w)) /\
  exists l,
    conversationHistory (snd (m w)) = conversationHistory w ++ exchanges l.
Proof.
  intros Hm. exact (reaches_history everything w _ (fp_method E m Hm w)).
Qed.

(** X15.  No method touches the name, the description, the user prompt,
    the legacy lists of files and dependencies or the cap of the healing
    loop; the terminal logs only get new entries at their end, and the flag
    of generated code is never taken back. *)
Theorem project_fields_kept {J} (E : Env J) (m : M unit) (w : World) :
  method E m ->
  sameProject (projectState w) (projectState (snd (m w))).
Proof.
  intros Hm. exact (reaches_sameProject everything w _ (fp_method E m Hm w)).
Qed.

(** X16.  Once the Architect has laid out the file tree, the Coding phase,
    the Patch phase and the healing loop keep it in shape: every entry
    stays at its place with its path and its type, whatever its content
    becomes; what is added is added at the end, as a file; and if the paths
    were distinct they still are. *)
Theorem file_tree_layout_kept {J} (E : Env J) (m : M unit) (w : World) :
  writer E m ->
  sameLayout (file_system (projectState w))
    (file_system (projectState (snd (m w)))).
Proof.
  intros Hm.
  exact (reaches_sameLayout writing w _ eq_refl
           (fp_writer E writing eq_refl eq_refl m Hm w)).
Qed.

(** X17.  Validation and counting belong to the healing loop alone: the
    Planning, Design, Architecture and Coding phases and the simulation
    leave the healing counter and the terminal logs as they are. *)
Theorem generation_never_heals {J} (E : Env J) (m : M unit) (w : World) :
  generator E m ->
  iteration_count (projectState (snd (m w))) =
    iteration_count (projectState w) /\
  terminal_logs (projectState (snd (m w))) = terminal_logs (projectState w).
Proof.
  intros Hm.
  exact (reaches_unhealed generating w _ eq_refl
           (fp_generator E generating m eq_refl eq_refl Hm w)).
Qed.

(** X18.  [start] as a whole.  On a running orchestrator it throws
    "Workflow already running" and changes nothing, so that no callback is
    called.  Otherwise it ends with [isRunning] false again, whatever
    happened; the project state keeps its fields as after the assignment of
    the user prompt (the terminal logs growing at their end), and the
    history has grown by whole exchanges. *)
Theorem start_guard_and_footprint {J} (E : Env J) (u : string) (w : World) :
  (isRunning w = true ->
   start E u w = (Thrown "Workflow already running", w)) /\
  (isRunning w = false ->
   isRunning (snd (start E u w)) = false /\
   sameProject (set_user_prompt u (projectState w))
     (projectState (snd (start E u w))) /\
   exists l,
     conversationHistory (snd (start E u w)) =
       conversationHistory w ++ exchanges l).
Proof.
  split.
  - intros Hw. unfold start, startWith. rewrite run_bind. cbn [gets]. rewrite Hw.
    reflexivity.
  - intros Hw. pose proof (fp_start E u w Hw) as H. split; [|split].
    + rewrite (RunFacts.run_start E u w Hw).
      destruct (workflow E u (started u w)) as [[[] | e |] w1]; reflexivity.
    + apply reaches_sameProject in H.
      eapply sameProject_trans; [|exact H].
      unfold started, sameProject. cbn.
      repeat split; auto. exists []. now rewrite app_nil_r.
    + apply reaches_history in H as (_ & l & H). exists l. exact H.
Qed.

End FootprintFacts.

(* ================================================================= *)
(** ** The orchestrator: particular runs *)

Module WorkflowFacts.
Import Types SimulationService Orchestrator Spec Behaviour OrchestratorFacts
  RunFacts Steps.

Section Fields.
Context {J : Type} (E : Env J).

Lemma emitted_more e w :
  conversationHistory (emitted E e w) = conversationHistory w /\
  currentPhase (emitted E e w) = currentPhase w /\
  ticks (emitted E e w) = S (ticks w) /\
  isRunning (emitted E e w) = isRunning w && negb (stopAt E (ticks w)).
Proof.
  unfold emitted. rewrite run_emit. cbn [snd].
  destruct (stopAt E (ticks w)); cbn; repeat split;
    now rewrite ?andb_true_r, ?andb_false_r.
Qed.

Lemma ticked_more w :
  conversationHistory (ticked E w) = conversationHistory w /\
  currentPhase (ticked E w) = currentPhase w /\
  ticks (ticked E w) = S (ticks w) /\
  isRunning (ticked E w) = isRunning w && negb (stopAt E (ticks w)).
Proof.
  unfold ticked, tick, modify. cbn [snd].
  destruct (stopAt E (ticks w)); cbn; repeat split;
    now rewrite ?andb_true_r, ?andb_false_r.
Qed.

Lemma recorded_more r w :
  conversationHistory (recorded E r w) = conversationHistory w /\
  currentPhase (recorded E r w) = currentPhase w /\
  ticks (recorded E r w) = ticks w /\
  isRunning (recorded E r w) = isRunning w.
Proof. repeat split. Qed.

Lemma trace_emitted e w : trace (emitted E e w) = trace w ++ [e].
Proof. apply emitted_fields. Qed.

Lemma state_emitted e w : projectState (emitted E e w) = projectState w.
Proof. apply emitted_fields. Qed.

Lemma prompts_emitted e w : prompts (emitted E e w) = prompts w.
Proof. apply emitted_fields. Qed.

Lemma history_emitted e w :
  conversationHistory (emitted E e w) = conversationHistory w.
Proof. apply emitted_more. Qed.

Lemma phase_emitted e w : currentPhase (emitted E e w) = currentPhase w.
Proof. apply emitted_more. Qed.

Lemma history_logged a m t w :
  conversationHistory (logged E a m t w) = conversationHistory w.
Proof. apply history_emitted. Qed.

Lemma phase_logged a m t w : currentPhase (logged E a m t w) = currentPhase w.
Proof. apply phase_emitted. Qed.

Lemma history_ticked w :
  conversationHistory (ticked E w) = conversationHistory w.
Proof. apply ticked_more. Qed.

Lemma run_enterPhase p w :
  enterPhase E p w =
    (Done tt,
     emitted E (onPhaseChange p)
       (set_projectState (set_status p (projectState w))
          (set_currentPhase p w))).
Proof.
  unfold enterPhase. rewrite run_bind. cbn [modify]. rewrite run_bind.
  cbn [updateState modify]. now rewrite run_emitted.
Qed.

(** A stopped orchestrator skips each phase. *)
Lemma skip_phases w :
  isRunning w = false ->
  executePlanningPhase E w = (Done tt, w) /\
  executeDesignPhase E w = (Done tt, w) /\
  executeArchitecturePhase E w = (Done tt, w) /\
  executeCodingPhase E w = (Done tt, w) /\
  executePatchingPhase E w = (Done tt, w) /\
  executeCompilationAndHealing E w = (Done tt, w).
Proof.
  intros Hw.
  unfold executePlanningPhase, executeDesignPhase, executeArchitecturePhase,
    executeCodingPhase, executePatchingPhase, executeCompilationAndHealing.
  rewrite !run_bind. cbn [gets]. rewrite Hw. cbn [negb].
  repeat split.
Qed.

End Fields.

(** X19.  The mode is chosen once, before the [try] of the hybrid branch:
    in hybrid mode the workflow is the AI workflow when the service is
    available and the simulation when it is not, and a failure of the AI
    workflow ends the run with [onError], with no fallback to the
    simulation. *)
Theorem hybrid_chooses_once {J} (E : Env J) (u : string) :
  mode (config E) = hybrid ->
  (forall w,
      workflow E u w =
        if GeminiService.isAvailable (apiKey E) then runAIWorkflow E u w
        else runSimulation E w) /\
  (forall w e w1,
      isRunning w = false ->
      GeminiService.isAvailable (apiKey E) = true ->
      runAIWorkflow E u (started u w) = (Thrown e, w1) ->
      start E u w =
        (Done tt, set_isRunning false (emitted E (onError e) w1))).
Proof.
  intros Hm.
  assert (Hwf : forall w,
             workflow E u w =
               if GeminiService.isAvailable (apiKey E) then runAIWorkflow E u w
               else runSimulation E w).
  { intros w. unfold workflow. rewrite run_bind. unfold determineMode.
    rewrite Hm. cbn [ret].
    destruct (GeminiService.isAvailable (apiKey E)); reflexivity. }
  split; [exact Hwf|].
  intros w e w1 Hw Ha Hrun.
  rewrite (run_start E u w Hw), Hwf, Ha, Hrun. reflexivity.
Qed.

Lemma last_cons {A} (l : list A) : forall a d, last (a :: l) d = last l a.
Proof.
  induction l as [|x l IH]; intros a d; [reflexivity|].
  change (last (a :: x :: l) d) with (last (x :: l) d).
  now rewrite !IH.
Qed.

(** X20.  [runSimulation] plays the steps of the demo in order, a phase
    change and then a log entry for each, until [stop()] is called: its
    callbacks are those of the first [k] steps; the current phase is the
    phase of the last step played; it sends no request and touches neither
    the project state nor the history; it plays all the steps when the
    orchestrator runs and is never stopped, and it stopped early only if the
    orchestrator is not running any more. *)
Theorem runSimulation_plays_the_steps {J} (E : Env J) (w : World) :
  exists k w',
    k <= List.length SIMULATION_STEPS /\
    runSimulation E w = (Done tt, w') /\
    trace w' = trace w ++ flat_map announce (firstn k SIMULATION_STEPS) /\
    currentPhase w' =
      last (map phase (firstn k SIMULATION_STEPS)) (currentPhase w) /\
    projectState w' = projectState w /\
    prompts w' = prompts w /\
    conversationHistory w' = conversationHistory w /\
    (k < List.length SIMULATION_STEPS -> isRunning w' = false) /\
    (isRunning w = true -> (forall t, stopAt E t = false) ->
     k = List.length SIMULATION_STEPS /\ isRunning w' = true).
Proof.
  unfold runSimulation. generalize SIMULATION_STEPS as steps. intros steps.
  revert w. induction steps as [|st steps IH]; intros w.
  - exists 0, w. cbn. rewrite app_nil_r. repeat split; auto; lia.
  - cbn [simulate]. rewrite run_bind. cbn [gets].
    destruct (isRunning w) eqn:Hw; cbn [negb].
    + rewrite run_bind, run_tick, run_bind. cbn [modify].
      rewrite run_bind, run_emitted, run_bind, run_emitted.
      set (w2 := set_currentPhase (phase st) (ticked E w)).
      set (w3 := emitted E (onPhaseChange (phase st)) w2).
      set (w4 := emitted E (onLog (SimulationService.log st)) w3).
      destruct (IH w4) as (k & w' & Hk & Hrun & Htr & Hph & Hst & Hpr & Hh & Hstop & Hall).
      destruct (emitted_fields E (onLog (SimulationService.log st)) w3)
        as (T4 & S4 & P4 & _).
      destruct (emitted_fields E (onPhaseChange (phase st)) w2)
        as (T3 & S3 & P3 & _).
      destruct (emitted_more E (onLog (SimulationService.log st)) w3)
        as (H4 & C4 & K4 & R4).
      destruct (emitted_more E (onPhaseChange (phase st)) w2)
        as (H3 & C3 & K3 & R3).
      destruct (ticked_more E w) as (H1 & C1 & K1 & R1).
      fold w3 in T4, S4, P4, H4, C4, K4, R4. fold w4 in T4, S4, P4, H4, C4, K4, R4.
      fold w3 in T3, S3, P3, H3, C3, K3, R3.
      exists (S k), w'. split; [cbn; lia|]. split; [exact Hrun|].
      cbn [firstn flat_map map]. rewrite last_cons.
      split; [|split; [|split; [|split; [|split; [|split]]]]].
      * rewrite Htr, T4, T3. unfold w2. cbn [trace set_currentPhase].
        rewrite trace_ticked. unfold announce. now rewrite <- !app_assoc.
      * rewrite Hph, C4, C3. reflexivity.
      * rewrite Hst, S4, S3. unfold w2. cbn [projectState set_currentPhase].
        apply state_ticked.
      * rewrite Hpr, P4, P3. unfold w2. cbn [prompts set_currentPhase].
        apply prompts_ticked.
      * rewrite Hh, H4, H3. unfold w2.
        cbn [conversationHistory set_currentPhase]. exact H1.
      * intros Hlt. apply Hstop. cbn in Hlt. lia.
      * intros _ Hnever.
        assert (Hr4 : isRunning w4 = true).
        { rewrite R4, R3. unfold w2. cbn [isRunning set_currentPhase ticks].
          rewrite R1, Hw, !Hnever. reflexivity. }
        destruct (Hall Hr4 Hnever) as [-> Hr]. split; [reflexivity | exact Hr].
    + exists 0, w. cbn [firstn flat_map map last]. rewrite app_nil_r.
      repeat split; auto; cbn; try lia; try (intros; congruence).
Qed.


Section Stopped.
Context {J : Type} (E : Env J).

Lemma run_stopped u w :
  isRunning w = false ->
  (log E "SYSTEM" ("User Intent: " ++ Js.dq ++ u ++ Js.dq) info ;;
   executePlanningPhase E ;;
   executeDesignPhase E ;;
   executeArchitecturePhase E ;;
   executeCodingPhase E ;;
   executeCompilationAndHealing E ;;
   enterPhase E READY ;;
   log E "SYSTEM" "✅ Application ready! All agents completed successfully."
     success)%orch w =
  (Done tt,
   logged E "SYSTEM" "✅ Application ready! All agents completed successfully."
     success
     (emitted E (onPhaseChange READY)
        (set_projectState
           (set_status READY
              (projectState
                 (logged E "SYSTEM" ("User Intent: " ++ Js.dq ++ u ++ Js.dq)
                    info w)))
           (set_currentPhase READY
              (logged E "SYSTEM" ("User Intent: " ++ Js.dq ++ u ++ Js.dq)
                 info w))))).
Proof.
  intros Hw. rewrite run_bind, run_log.
  set (w1 := logged E "SYSTEM" ("User Intent: " ++ Js.dq ++ u ++ Js.dq) info w).
  assert (H1 : isRunning w1 = false).
  { unfold w1, logged.
    destruct (emitted_more E
                (onLog (createLog "SYSTEM"
                          ("User Intent: " ++ Js.dq ++ u ++ Js.dq) info None)) w)
      as (_ & _ & _ & ->).
    now rewrite Hw. }
  destruct (skip_phases E w1 H1) as (P1 & P2 & P3 & P4 & _ & P6).
  rewrite run_bind, P1, run_bind, P2, run_bind, P3, run_bind, P4, run_bind, P6.
  rewrite run_bind, run_enterPhase, run_log. reflexivity.
Qed.

End Stopped.

(** X21.  [stop()] does not end a run with an error, nor without its
    terminal callback.  When [stop()] is called during the first callback of
    an AI run, the run sends no request and records no exchange, and still
    announces the phase READY, logs that the application is ready and calls
    [onComplete]; the project state is the one it started with, with the
    user prompt and the status READY. *)
Theorem stop_at_first_callback_still_completes {J} (E : Env J) (u : string)
  (w : World) :
  mode (config E) <> simulation ->
  GeminiService.isAvailable (apiKey E) = true ->
  isRunning w = false ->
  stopAt E (ticks w) = true ->
  exists w',
    start E u w = (Done tt, w') /\
    trace w' = trace w ++ stoppedTrace u /\
    prompts w' = prompts w /\
    conversationHistory w' = conversationHistory w /\
    projectState w' = set_status READY (set_user_prompt u (projectState w)) /\
    currentPhase w' = READY /\
    isRunning w' = false.
Proof.
  intros Hm Ha Hw Hstop.
  rewrite (run_start E u w Hw). unfold workflow.
  rewrite run_bind, (run_determineMode E _ Hm Ha).
  unfold runAIWorkflow. rewrite run_bind, run_log.
  set (w0 := logged E "SYSTEM"
               "🚀 Initializing Agentic Studio Pro - Closed-Loop Architecture"
               system (started u w)).
  assert (H0 : isRunning w0 = false).
  { unfold w0, logged.
    match goal with
    | |- isRunning (emitted E ?e ?x) = false =>
        destruct (emitted_more E e x) as (_ & _ & _ & ->)
    end.
    cbn [started ticks set_projectState set_currentPhase set_isRunning].
    rewrite Hstop. apply andb_false_r. }
  rewrite (run_stopped E u w0 H0).
  match goal with
  | |- context [snd (emit E onComplete ?x)] =>
      change (snd (emit E onComplete x)) with (emitted E onComplete x)
  end.
  eexists. split; [reflexivity|].
  unfold w0.
  repeat first
    [ rewrite trace_emitted | rewrite prompts_emitted
    | rewrite history_emitted | rewrite state_emitted | rewrite phase_emitted
    | rewrite trace_logged | rewrite prompts_logged | rewrite history_logged
    | rewrite state_logged | rewrite phase_logged
    | progress cbn [started trace prompts conversationHistory projectState
                    currentPhase isRunning set_projectState set_currentPhase
                    set_isRunning] ].
  unfold stoppedTrace. rewrite <- !app_assoc.
  repeat split.
Qed.

(** X22.  A project that validates needs no Patcher:
    [executeCompilationAndHealing] on a running orchestrator whose project
    passes [validateCode] logs the start, the success and the output of the
    build, appends the one terminal log of that validation, and sends no
    request; the counter, the files and the history stay as they are. *)
Theorem clean_build_needs_no_patch {J} (E : Env J) (w : World) :
  isRunning w = true ->
  r_success (CompilationService.validateCode (projectState w)) = true ->
  exists w',
    executeCompilationAndHealing E w = (Done tt, w') /\
    trace w' =
      trace w ++
      [onLog (createLog "SYSTEM" "🔨 Starting compilation validation..."
                system None);
       onLog (createLog "SYSTEM" "✅ Compilation successful!" success None);
       onLog (createLog "SYSTEM" CompilationService.successStdout info None)] /\
    projectState w' =
      set_terminal_logs
        (terminal_logs (projectState w) ++
         [terminalLog (CompilationService.validateCode (projectState w))
            (clock E (clockReads w))])
        (projectState w) /\
    prompts w' = prompts w /\
    conversationHistory w' = conversationHistory w.
Proof.
  intros Hw Hs.
  rewrite (run_executeCompilationAndHealing E w Hw). cbv zeta. rewrite Hs.
  rewrite run_bind, run_log, run_log.
  assert (Hout : r_stdout (CompilationService.validateCode (projectState w)) =
                 CompilationService.successStdout).
  { unfold CompilationService.validateCode, CompilationService.validationResult in *.
    destruct (0 <? _)%nat; [discriminate | reflexivity]. }
  rewrite Hout.
  eexists. split; [reflexivity|].
  repeat match goal with
         | |- _ /\ _ => split
         end.
  - rewrite !trace_logged. unfold validated.
    destruct (recorded_fields E
                (CompilationService.validateCode (projectState w))
                (ticked E (logged E "SYSTEM"
                             "🔨 Starting compilation validation..." system w)))
      as (-> & _).
    rewrite trace_ticked, trace_logged. now rewrite <- !app_assoc.
  - rewrite !state_logged. apply state_validated.
  - rewrite !prompts_logged. unfold validated.
    destruct (recorded_fields E
                (CompilationService.validateCode (projectState w))
                (ticked E (logged E "SYSTEM"
                             "🔨 Starting compilation validation..." system w)))
      as (_ & _ & ->).
    now rewrite prompts_ticked, prompts_logged.
  - rewrite !history_logged. unfold validated.
    destruct (recorded_more E
                (CompilationService.validateCode (projectState w))
                (ticked E (logged E "SYSTEM"
                             "🔨 Starting compilation validation..." system w)))
      as (-> & _).
    now rewrite history_ticked, history_logged.
Qed.

Section Help.
Context {J : Type} (E : Env J).

Lemma run_logThought a p w :
  exists w',
    logThought E a p w = (Done tt, w') /\
    trace w' = trace w ++ thoughtEvents a p /\
    projectState w' = projectState w /\
    prompts w' = prompts w /\
    conversationHistory w' = conversationHistory w.
Proof.
  unfold logThought, thoughtEvents.
  destruct (thought p) as [t|]; [destruct (Js.truthy t); cbn [when]|].
  - rewrite run_log. eexists. split; [reflexivity|].
    rewrite trace_logged, state_logged, prompts_logged, history_logged.
    repeat split.
  - exists w. rewrite app_nil_r. repeat split.
  - exists w. rewrite app_nil_r. repeat split.
Qed.

Lemma thoughtEvents_quiet a p : existsb isStateUpdate (thoughtEvents a p) = false.
Proof.
  unfold thoughtEvents. destruct (thought p) as [t|]; [|reflexivity].
  now destruct (Js.truthy t).
Qed.

End Help.

(** X23.  A request for human help ends the Patch phase at once: when the
    reply of the Patcher has [request_human_help], the phase enters, logs
    that it analyses, logs the thought of the reply if there is one, logs
    the request for human review and puts the counter at the cap; it calls
    no other callback ([onStateUpdate] is not called), applies no fix and
    records no exchange in the history. *)
Theorem help_request_ends_the_phase {J} (E : Env J) (w : World)
  (text : string) :
  isRunning w = true ->
  GeminiService.result
    (GeminiService.sendPrompt (apiKey E) (network E (prompts w))) =
    GeminiService.Resolved text ->
  request_human_help (parsed E text PATCHING) = true ->
  exists w',
    executePatchingPhase E w = (Done tt, w') /\
    trace w' = trace w ++ helpTrace (parsed E text PATCHING) /\
    existsb isStateUpdate (helpTrace (parsed E text PATCHING)) = false /\
    conversationHistory w' = conversationHistory w /\
    file_system (projectState w') = file_system (projectState w) /\
    iteration_count (projectState w') = max_iterations (projectState w) /\
    prompts w' = S (prompts w).
Proof.
  intros Hw Hreply Hhelp.
  unfold executePatchingPhase. rewrite run_bind. cbn [gets]. rewrite Hw.
  cbn [negb]. rewrite run_bind, run_enterPhase, run_bind, run_log.
  set (w2 := logged E "PATCHER" _ info _).
  assert (Hp2 : prompts w2 = prompts w).
  { unfold w2. rewrite prompts_logged, prompts_emitted. reflexivity. }
  assert (Ht2 : trace w2 =
                trace w ++
                [onPhaseChange PATCHING;
                 onLog (createLog "PATCHER"
                          "🔍 Analyzing error logs (Abductive Reasoning)..."
                          info None)]).
  { unfold w2. rewrite trace_logged, trace_emitted.
    cbn [trace set_projectState set_currentPhase]. now rewrite <- app_assoc. }
  assert (Hh2 : conversationHistory w2 = conversationHistory w).
  { unfold w2. rewrite history_logged, history_emitted. reflexivity. }
  assert (Hs2 : projectState w2 = set_status PATCHING (projectState w)).
  { unfold w2. rewrite state_logged, state_emitted. reflexivity. }
  clearbody w2.
  rewrite run_bind. unfold ask. rewrite run_bind. cbn [gets].
  rewrite run_bind. cbn [gets]. rewrite run_bind. unfold awaitSendPrompt.
  rewrite run_bind. cbn [gets]. rewrite run_bind. cbn [modify].
  rewrite run_bind, run_tick, Hp2, Hreply. cbn [ret].
  set (w3 := ticked E (set_prompts (S (prompts w)) w2)).
  rewrite run_bind.
  destruct (run_logThought E "PATCHER" (parsed E text PATCHING) w3)
    as (w4 & -> & Ht4 & Hs4 & Hp4 & Hh4).
  rewrite Hhelp, run_bind, run_log. cbn [updateState modify].
  eexists. split; [reflexivity|].
  cbn [trace conversationHistory projectState prompts set_projectState
       iteration_count max_iterations file_system set_iteration_count].
  rewrite trace_logged, history_logged, state_logged, prompts_logged.
  rewrite Ht4, Hh4, Hs4, Hp4. unfold w3.
  rewrite trace_ticked, history_ticked, state_ticked, prompts_ticked.
  cbn [trace conversationHistory projectState prompts set_prompts].
  rewrite Ht2, Hh2, Hs2. cbn [file_system max_iterations set_status].
  split; [unfold helpTrace; rewrite <- !app_assoc; reflexivity|].
  split; [|repeat split].
  unfold helpTrace. rewrite !existsb_app, thoughtEvents_quiet. reflexivity.
Qed.

End WorkflowFacts.

(* ================================================================= *)
(** ** Generated files, fixes and fenced replies *)

Module FileFacts.
Import Types Orchestrator Spec Behaviour OrchestratorFacts StringFacts.

Lemma findFile_path p fs f : findFile p fs = Some f -> path f = p.
Proof.
  unfold findFile. intros H. apply find_some in H as [_ H].
  now apply String.eqb_eq.
Qed.

Lemma findFile_updateFirst_same p g fs f :
  findFile p fs = Some f -> path (g f) = p ->
  findFile p (updateFirst p g fs) = Some (g f).
Proof.
  unfold findFile. intros Hf Hg.
  induction fs as [|x fs IH]; cbn [updateFirst find] in *; [discriminate|].
  destruct (String.eqb (path x) p) eqn:Hx.
  - injection Hf as <-. cbn [find]. now rewrite Hg, String.eqb_refl.
  - cbn [find]. rewrite Hx. now apply IH.
Qed.

Lemma findFile_updateFirst_other p q g fs :
  (forall e, path (g e) = path e) -> q <> p ->
  findFile q (updateFirst p g fs) = findFile q fs.
Proof.
  unfold findFile. intros Hg Hq.
  induction fs as [|x fs IH]; cbn [updateFirst find]; [reflexivity|].
  destruct (String.eqb (path x) p) eqn:Hx; cbn [find].
  - rewrite Hg. apply String.eqb_eq in Hx.
    destruct (String.eqb_spec (path x) q) as [Hxq | _]; [congruence | reflexivity].
  - now rewrite IH.
Qed.

Lemma findFile_app q fs e :
  findFile q (fs ++ [e]) =
    match findFile q fs with
    | Some f => Some f
    | None => if String.eqb (path e) q then Some e else None
    end.
Proof.
  unfold findFile. induction fs as [|x fs IH]; cbn [app find]; [reflexivity|].
  destruct (String.eqb (path x) q); [reflexivity | exact IH].
Qed.

Section Merge.
Context {J : Type} (E : Env J).

Lemma run_mergeFile f w :
  exists w',
    mergeFile E f w = (Done tt, w') /\
    file_system (projectState w') =
      match findFile (g_path f) (file_system (projectState w)) with
      | Some _ =>
          updateFirst (g_path f)
            (fun e => mkFile (path e) (g_content f) (f_type e)
                        (Some (clock E (clockReads w))))
            (file_system (projectState w))
      | None =>
          file_system (projectState w) ++
          [mkFile (g_path f) (g_content f) file
             (Some (clock E (clockReads w)))]
      end.
Proof.
  unfold mergeFile. rewrite run_bind. cbn [gets]. rewrite run_bind.
  cbn [now].
  destruct (findFile (g_path f) (file_system (projectState w)));
    eexists; split; reflexivity.
Qed.

(** One generated file, merged. *)
Lemma mergeFile_lookup f w :
  exists w' e,
    mergeFile E f w = (Done tt, w') /\
    findFile (g_path f) (file_system (projectState w')) = Some e /\
    content e = g_content f /\
    forall q, q <> g_path f ->
      findFile q (file_system (projectState w')) =
      findFile q (file_system (projectState w)).
Proof.
  destruct (run_mergeFile f w) as (w' & Hrun & Hfs).
  destruct (findFile (g_path f) (file_system (projectState w))) as [old|] eqn:Hf.
  - exists w', (mkFile (path old) (g_content f) (f_type old)
                  (Some (clock E (clockReads w)))).
    split; [exact Hrun|]. rewrite Hfs. split; [|split; [reflexivity|]].
    + exact (findFile_updateFirst_same (g_path f)
               (fun e => mkFile (path e) (g_content f) (f_type e)
                           (Some (clock E (clockReads w))))
               _ old Hf (findFile_path _ _ _ Hf)).
    + intros q Hq. now apply findFile_updateFirst_other.
  - exists w', (mkFile (g_path f) (g_content f) file
                  (Some (clock E (clockReads w)))).
    split; [exact Hrun|]. rewrite Hfs. split; [|split; [reflexivity|]].
    + rewrite findFile_app, Hf. cbn [path]. now rewrite String.eqb_refl.
    + intros q Hq. rewrite findFile_app.
      destruct (findFile q (file_system (projectState w))); [reflexivity|].
      cbn [path]. destruct (String.eqb_spec (g_path f) q); congruence.
Qed.

(** X24.  The merge of the Coding phase: after [parsed.files.forEach],
    a path that no generated file has is looked up as before, and a path
    that some generated file has is found, with the content of the last
    generated file of that path. *)
Theorem coding_merges_generated_files (fl : list GeneratedFile) (i : nat)
  (w : World) :
  exists w',
    forEachIndexed (fun _ f => mergeFile E f) i fl w = (Done tt, w') /\
    (forall q, ~ In q (map g_path fl) ->
       findFile q (file_system (projectState w')) =
       findFile q (file_system (projectState w))) /\
    (forall q, In q (map g_path fl) ->
       exists e earlier f later,
         findFile q (file_system (projectState w')) = Some e /\
         fl = earlier ++ f :: later /\
         g_path f = q /\ ~ In q (map g_path later) /\
         content e = g_content f).
Proof.
  revert i w. induction fl as [|f fl IH]; intros i w.
  - exists w. split; [reflexivity|]. split; [reflexivity|]. intros q [].
  - cbn [forEachIndexed]. rewrite run_bind.
    destruct (mergeFile_lookup f w) as (w1 & e1 & Hrun & Hfind & Hcont & Hframe).
    rewrite Hrun.
    destruct (IH (S i) w1) as (w' & Hrest & Hout & Hin).
    exists w'. split; [exact Hrest|]. split.
    + intros q Hq. cbn [map In] in Hq.
      rewrite Hout by tauto. apply Hframe. intros ->. tauto.
    + intros q Hq.
      destruct (in_dec string_dec q (map g_path fl)) as [Hlater | Hnot].
      * destruct (Hin q Hlater) as (e & earlier & f' & later & H1 & H2 & H3 & H4 & H5).
        exists e, (f :: earlier), f', later. rewrite H2.
        repeat split; assumption.
      * destruct Hq as [Hq | Hq]; [|contradiction].
        exists e1, [], f, fl. rewrite (Hout q Hnot). subst q.
        repeat split; assumption.
Qed.

(** X25.  A fix without a target does nothing at all: when the file the
    fix names is not in the tree, or has no content or an empty one,
    [applyFix] changes neither a file nor a time stamp and logs nothing. *)
Theorem fix_without_target_does_nothing (index : nat) (fx : Fix) (w : World) :
  (findFile (fix_file fx) (file_system (projectState w)) = None \/
   exists f, findFile (fix_file fx) (file_system (projectState w)) = Some f /\
             (content f = None \/ content f = Some EmptyString)) ->
  applyFix E index fx w = (Done tt, w).
Proof.
  intros H. unfold applyFix. rewrite run_bind. cbn [gets].
  destruct H as [-> | (f & -> & [-> | ->])]; reflexivity.
Qed.

(** X26.  A fix whose replacement holds no dollar sign does what the
    Patcher is told it does, on the first occurrence only: when the content
    of the target is [pre ++ before ++ post] with the leftmost [before] at
    the end of [pre], the content becomes [pre ++ after ++ post], so that
    every later occurrence stays in [post]; the entry keeps its type and
    gets the time of the clock; every other path is looked up as before,
    and the tree keeps its layout. *)
Theorem plain_fix_replaces_first_occurrence (index : nat) (fx : Fix)
  (w : World) (f : FileEntry) (pre post : string) :
  findFile (fix_file fx) (file_system (projectState w)) = Some f ->
  content f = Some (pre ++ before fx ++ post)%string ->
  Js.indexFrom 0 (pre ++ before fx ++ post) (before fx) =
    Some (String.length pre) ->
  Js.truthy (pre ++ before fx ++ post) = true ->
  Js.countChar "$"%char (after fx) = 0 ->
  let fs := file_system (projectState w) in
  let fs' := file_system (projectState (snd (applyFix E index fx w))) in
  findFile (fix_file fx) fs' =
    Some (mkFile (path f) (Some (pre ++ after fx ++ post)%string) (f_type f)
            (Some (clock E (clockReads w)))) /\
  (forall q, q <> fix_file fx -> findFile q fs' = findFile q fs) /\
  layout fs' = layout fs.
Proof.
  intros Hf Hc Hi Ht Hd. cbv zeta.
  destruct (PatchFacts.applyFix_file_system E index fx w) as [_ ->].
  rewrite Hf, Hc, Ht, (JsFacts.replace_leftmost _ _ _ _ Hi Hd).
  split; [|split].
  - exact (findFile_updateFirst_same (fix_file fx)
             (fun e => mkFile (path e) (Some (pre ++ after fx ++ post)%string)
                         (f_type e) (Some (clock E (clockReads w))))
             _ f Hf (findFile_path _ _ _ Hf)).
  - intros q Hq. now apply findFile_updateFirst_other.
  - apply FootprintFacts.layout_updateFirst. intros e. split; reflexivity.
Qed.

End Merge.

Lemma indexFrom_after c a pat r :
  Js.countChar c a = 0 ->
  Js.indexFrom 0 (a ++ String c pat ++ r) (String c pat) = Some (String.length a).
Proof.
  intros Ha. induction a as [|d a IH].
  - pose proof (JsFacts.startsWith_app (String c pat) r) as Hs.
    cbn [String.append] in *. cbn [Js.indexFrom String.length].
    now rewrite Hs.
  - cbn [Js.countChar] in Ha.
    destruct (Ascii.eqb d c) eqn:Hd; [lia|].
    change ((String d a ++ String c pat ++ r)%string)
      with (String d (a ++ String c pat ++ r)).
    cbn [Js.indexFrom Js.startsWith String.length].
    rewrite Ascii.eqb_sym, Hd. cbn [andb].
    rewrite JsFacts.indexFrom_shift, IH by lia. reflexivity.
Qed.

(** X27.  [parseAgentResponse] reads back a reply in the format the agents
    are asked for.  When nothing before the fence has a backquote, the
    fence [```json] is followed by white space, a body that is trimmed, not
    empty and free of backquotes, white space and the closing fence, then
    the match is that body; and if [JSON.parse] accepts the body, its value
    is the result, whatever precedes and follows the block. *)
Theorem fenced_block_is_read {J} (JSON_parse : string -> option J)
  (pre blanks1 body blanks2 post : string) (phase : AgentPhase) :
  Js.countChar "`" pre = 0 ->
  Js.isBlank blanks1 = true ->
  Js.isBlank blanks2 = true ->
  body <> EmptyString ->
  Js.trim body = body ->
  Js.countChar "`" body = 0 ->
  let text := (pre ++ AgentPrompts.fenceOpen ++ blanks1 ++ body ++ blanks2 ++
               AgentPrompts.fenceClose ++ post)%string in
  AgentPrompts.jsonMatch text = Some body /\
  forall v, JSON_parse body = Some v ->
            AgentPrompts.parseAgentResponse JSON_parse text phase =
              AgentPrompts.Structured v.
Proof.
  intros Hpre Hb1 Hb2 Hne Htrim Hbody. cbv zeta.
  assert (Hm : AgentPrompts.jsonMatch
                 (pre ++ AgentPrompts.fenceOpen ++ blanks1 ++ body ++ blanks2 ++
                  AgentPrompts.fenceClose ++ post) = Some body).
  { apply ParseFacts.jsonMatch_block.
    exists pre, blanks1, blanks2, post.
    split; [reflexivity|]. split.
    { change AgentPrompts.fenceOpen with (String "`" "``json").
      apply (indexFrom_after "`" pre "``json" _ Hpre). }
    split; [| now repeat split].
    rewrite <- (JsFacts.append_assoc body blanks2),
      <- (JsFacts.append_assoc blanks1 (body ++ blanks2)).
    change AgentPrompts.fenceClose with (String "`" "``").
    apply (indexFrom_after "`" (blanks1 ++ body ++ blanks2) "``" post).
    rewrite !JsFacts.countChar_app, Hbody,
      (JsFacts.blank_no_tick _ blanks1 (le_n _) Hb1),
      (JsFacts.blank_no_tick _ blanks2 (le_n _) Hb2).
    reflexivity. }
  split; [exact Hm|].
  intros v Hv. unfold AgentPrompts.parseAgentResponse. rewrite Hm, Hv.
  reflexivity.
Qed.

End FileFacts.

(* ================================================================= *)
(** ** The orchestrator: how many prompts a run sends *)

Module BudgetFacts.
Import Types SimulationService Orchestrator Spec Behaviour OrchestratorFacts
  RunFacts Steps FootprintFacts.

Lemma costs_zero {A} (m : M A) :
  keeps (reaches local) m -> costs 0 m.
Proof.
  intros H w. rewrite (reaches_silent local w _ eq_refl (H w)). lia.
Qed.

Lemma costs_bind n1 n2 {A B} (m : M A) (k : A -> M B) :
  costs n1 m -> (forall a, costs n2 (k a)) -> costs (n1 + n2) (bind m k).
Proof.
  intros Hm Hk w. rewrite run_bind. specialize (Hm w).
  destruct (m w) as [[a | e |] w1]; cbn [snd] in *; try lia.
  specialize (Hk a w1). lia.
Qed.

Lemma costs_le n n' {A} (m : M A) : n <= n' -> costs n m -> costs n' m.
Proof. intros Hn H w. specialize (H w). lia. Qed.

Lemma costs_first {A B} n (m : M A) (k : A -> M B) :
  keeps (reaches local) m -> (forall a, costs n (k a)) -> costs n (bind m k).
Proof.
  intros Hm Hk. apply (costs_bind 0 n); [now apply costs_zero | exact Hk].
Qed.

Ltac free :=
  lazymatch goal with
  | |- costs 0 _ => apply costs_zero
  | |- costs _ _ => apply (costs_le 0); [lia | apply costs_zero]
  end;
  repeat fp_step.

Section Budget.
Context {J : Type} (E : Env J).

Lemma costs_ask p : costs 1 (ask E p).
Proof.
  intros w. unfold ask. rewrite run_bind. cbn [gets]. rewrite run_bind.
  cbn [gets]. rewrite run_bind. unfold awaitSendPrompt.
  rewrite run_bind. cbn [gets]. rewrite run_bind. cbn [modify].
  rewrite run_bind, run_tick.
  destruct (GeminiService.result _); cbn [ret throw snd];
    rewrite prompts_ticked; cbn [prompts set_prompts]; lia.
Qed.

(** A phase: what precedes its request costs nothing, and what follows it
    costs nothing. *)
Ltac phase :=
  let running := fresh "running" in
  apply costs_first; [fp_step | intros running];
  destruct (negb running); [free|];
  apply costs_first; [fp_step | intros _];
  apply costs_first; [fp_step | intros _];
  apply costs_first; [fp_step | intros _];
  apply (costs_bind 1 0); [apply costs_ask | intros [[prompt text] parsed]].

Lemma costs_executePlanningPhase : costs 1 (executePlanningPhase E).
Proof. unfold executePlanningPhase. phase. free. Qed.

Lemma costs_executeDesignPhase : costs 1 (executeDesignPhase E).
Proof. unfold executeDesignPhase. phase. free. Qed.

Lemma costs_executeArchitecturePhase : costs 1 (executeArchitecturePhase E).
Proof. unfold executeArchitecturePhase. phase. free. Qed.

Lemma costs_executeCodingPhase : costs 1 (executeCodingPhase E).
Proof. unfold executeCodingPhase. phase. free. apply fp_mergeFile. Qed.

Lemma costs_executePatchingPhase : costs 1 (executePatchingPhase E).
Proof.
  unfold executePatchingPhase.
  apply costs_first; [fp_step | intros running].
  destruct (negb running); [free|].
  apply costs_first; [fp_step | intros _].
  apply costs_first; [fp_step | intros _].
  apply (costs_bind 1 0); [apply costs_ask | intros [[prompt text] parsed]].
  free. apply fp_applyFix.
Qed.

Lemma costs_healingAttempt result : costs 1 (healingAttempt E result).
Proof.
  unfold healingAttempt.
  apply costs_first; [fp_step | intros _].
  apply costs_first; [fp_step | intros s].
  apply costs_first; [fp_step | intros _].
  apply (costs_bind 1 0); [apply costs_executePatchingPhase | intros _].
  free.
Qed.

Lemma costs_healingLoop result fuel : costs fuel (healingLoop E fuel result).
Proof.
  induction fuel as [|fuel IH]; cbn [healingLoop].
  - apply costs_first; [fp_step | intros s].
    destruct (_ && _); [intros w; cbn; lia | free].
  - apply costs_first; [fp_step | intros s].
    destruct (_ && _); [|apply (costs_le 0); [lia | free]].
    apply (costs_bind 1 fuel); [apply costs_healingAttempt | intros returned].
    destruct returned; [apply (costs_le 0); [lia | free] | exact IH].
Qed.

(** The healing loop sends at most one prompt for each attempt that the
    counter leaves. *)
Lemma budget_healing w :
  prompts (snd (executeCompilationAndHealing E w)) <=
  prompts w + Z.to_nat (cap w - count w).
Proof.
  destruct (isRunning w) eqn:Hw.
  2:{ destruct (WorkflowFacts.skip_phases E w Hw) as (_ & _ & _ & _ & _ & ->).
      cbn [snd]. lia. }
  rewrite (run_executeCompilationAndHealing E w Hw). cbv zeta.
  assert (Hv : prompts (validated E w) = prompts w).
  { unfold validated.
    destruct (recorded_fields E
                (CompilationService.validateCode (projectState w))
                (ticked E (logged E "SYSTEM"
                             "🔨 Starting compilation validation..." system w)))
      as (_ & _ & ->).
    now rewrite prompts_ticked, prompts_logged. }
  destruct (r_success (CompilationService.validateCode (projectState w))).
  - rewrite run_bind, run_log, run_log. cbn [snd].
    rewrite !prompts_logged, Hv. lia.
  - rewrite run_bind, run_log, run_bind, run_log.
    destruct (negb (CompilationService.isRecoverableError _)).
    + rewrite run_bind, run_log. cbn [throw snd].
      rewrite !prompts_logged, Hv. lia.
    + rewrite run_bind. cbn [gets].
      set (wl := logged E "STDERR" _ error _).
      assert (Hp : prompts wl = prompts w).
      { unfold wl. now rewrite !prompts_logged. }
      assert (Hs : projectState wl =
                   set_terminal_logs
                     (terminal_logs (projectState w) ++
                      [terminalLog
                         (CompilationService.validateCode (projectState w))
                         (clock E (clockReads w))])
                     (projectState w)).
      { unfold wl. rewrite !state_logged. apply state_validated. }
      rewrite Hs. cbn [max_iterations iteration_count set_terminal_logs].
      fold (cap w) (count w).
      match goal with
      | |- prompts (snd (bind ?m ?k wl)) <= _ =>
          assert (Hc : costs (Z.to_nat (cap w - count w) + 0) (bind m k))
      end.
      { apply costs_bind; [apply costs_healingLoop | intros returned].
        destruct returned; free. }
      specialize (Hc wl). lia.
Qed.

Lemma costs_generation u : costs 4 (generation E u).
Proof.
  unfold generation.
  apply costs_first; [fp_step | intros _].
  apply costs_first; [fp_step | intros _].
  apply (costs_bind 1 3); [apply costs_executePlanningPhase | intros _].
  apply (costs_bind 1 2); [apply costs_executeDesignPhase | intros _].
  apply (costs_bind 1 1); [apply costs_executeArchitecturePhase | intros _].
  apply costs_executeCodingPhase.
Qed.

Lemma generation_counter u w :
  count (snd (generation E u w)) = count w /\
  cap (snd (generation E u w)) = cap w.
Proof.
  assert (H : keeps (reaches generating) (generation E u)).
  { unfold generation.
    repeat lazymatch goal with
      | |- keeps _ (executePlanningPhase _) =>
          apply fp_executePlanningPhase; reflexivity
      | |- keeps _ (executeDesignPhase _) =>
          apply fp_executeDesignPhase; reflexivity
      | |- keeps _ (executeArchitecturePhase _) =>
          apply fp_executeArchitecturePhase; reflexivity
      | |- keeps _ (executeCodingPhase _) =>
          apply fp_executeCodingPhase; reflexivity
      | |- _ => fp_step
      end. }
  specialize (H w). unfold count, cap. split.
  - now destruct (reaches_unhealed generating _ _ eq_refl H).
  - now destruct (reaches_sameProject generating _ _ H)
      as (_ & _ & _ & _ & _ & -> & _).
Qed.

Lemma budget_runAIWorkflow u w :
  prompts (snd (runAIWorkflow E u w)) <=
  prompts w + 4 + Z.to_nat (cap w - count w).
Proof.
  rewrite run_runAIWorkflow.
  pose proof (costs_generation u w) as Hg.
  destruct (generation_counter u w) as [Hcount Hcap].
  destruct (generation E u w) as [[[] | e |] w4]; cbn [snd] in *; try lia.
  rewrite run_bind.
  pose proof (budget_healing w4) as Hh. rewrite Hcount, Hcap in Hh.
  destruct (executeCompilationAndHealing E w4) as [[[] | e |] w5];
    cbn [snd] in *; try lia.
  rewrite run_bind, WorkflowFacts.run_enterPhase, run_log. cbn [snd].
  rewrite prompts_logged, (WorkflowFacts.prompts_emitted E).
  cbn [prompts set_projectState set_currentPhase]. lia.
Qed.

Lemma budget_simulation w : prompts (snd (runSimulation E w)) = prompts w.
Proof.
  exact (reaches_silent local w _ eq_refl (fp_simulate E local SIMULATION_STEPS w)).
Qed.

Lemma budget_workflow u w :
  prompts (snd (workflow E u w)) <=
  prompts w + 4 + Z.to_nat (cap w - count w).
Proof.
  unfold workflow. rewrite run_bind. unfold determineMode.
  destruct (mode (config E)); cbn [ret].
  - rewrite budget_simulation. lia.
  - destruct (negb _); cbn [throw snd]; [lia | apply budget_runAIWorkflow].
  - destruct (GeminiService.isAvailable (apiKey E)).
    + apply budget_runAIWorkflow.
    + rewrite budget_simulation. lia.
Qed.

End Budget.

(** X28.  A run sends at most four prompts for the four generation phases
    and one for each healing attempt the counter leaves: the number of
    calls of [sendPrompt] made by [start] is at most
    [4 + (max_iterations - iteration_count)], which is 7 for a new
    orchestrator, whatever the service answers. *)
Theorem start_prompt_budget {J} (E : Env J) (u : string) (w : World) :
  prompts (snd (start E u w)) <=
    prompts w + 4 + Z.to_nat (cap w - count w) /\
  prompts (snd (start E u newOrchestrator)) <= 7.
Proof.
  assert (H : forall w0, prompts (snd (start E u w0)) <=
                         prompts w0 + 4 + Z.to_nat (cap w0 - count w0)).
  { intros w0. destruct (isRunning w0) eqn:Hw.
    - unfold start, startWith. rewrite run_bind. cbn [gets]. rewrite Hw.
      cbn [throw snd]. lia.
    - rewrite (run_start E u w0 Hw).
      pose proof (budget_workflow E u (started u w0)) as Hb.
      change (cap (started u w0)) with (cap w0) in Hb.
      change (count (started u w0)) with (count w0) in Hb.
      change (prompts (started u w0)) with (prompts w0) in Hb.
      destruct (workflow E u (started u w0)) as [[[] | e |] w1];
        cbn [snd prompts set_isRunning] in *;
        rewrite ?trace_emit;
        try (change (snd (emit E ?t w1)) with (emitted E t w1));
        try lia.
      + change (snd (emit E onComplete w1)) with (emitted E onComplete w1).
        rewrite (WorkflowFacts.prompts_emitted E). lia.
      + change (snd (emit E (onError e) w1)) with (emitted E (onError e) w1).
        rewrite (WorkflowFacts.prompts_emitted E). lia. }
  split; [apply H|]. exact (H newOrchestrator).
Qed.

End BudgetFacts.

(* ================================================================= *)
(** ** The orchestrator without the loop *)

Module LegacyFacts.
Import Types SimulationService Orchestrator Spec Behaviour OrchestratorFacts
  RunFacts Steps WorkflowFacts.

Section Legacy.
Context {J : Type} (E : Env J).
Hypothesis never_stopped : forall t, stopAt E t = false.

Lemma running_emitted e w : isRunning (emitted E e w) = isRunning w.
Proof.
  destruct (emitted_more E e w) as (_ & _ & _ & ->).
  now rewrite never_stopped, andb_true_r.
Qed.

Lemma running_ticked w : isRunning (ticked E w) = isRunning w.
Proof.
  destruct (ticked_more E w) as (_ & _ & _ & ->).
  now rewrite never_stopped, andb_true_r.
Qed.

(** The callbacks of a [forEach] whose body logs an entry under a test. *)
Lemma run_logEach {A} (test : A -> bool) (entry : A -> LogEntry) l : forall i w,
  exists w',
    forEachIndexed (fun _ x => when (test x) (emit E (onLog (entry x)))) i l w =
      (Done tt, w') /\
    trace w' = trace w ++ map (fun x => onLog (entry x)) (filter test l) /\
    prompts w' = prompts w /\
    conversationHistory w' = conversationHistory w /\
    currentPhase w' = currentPhase w /\
    isRunning w' = isRunning w.
Proof.
  induction l as [|x l IH]; intros i w; cbn [forEachIndexed filter].
  - exists w. cbn [map]. rewrite app_nil_r. repeat split.
  - rewrite run_bind. destruct (test x); cbn [when].
    + rewrite run_emitted.
      destruct (IH (S i) (emitted E (onLog (entry x)) w))
        as (w' & -> & Ht & Hp & Hh & Hc & Hr).
      exists w'. split; [reflexivity|].
      rewrite Ht, Hp, Hh, Hc, Hr.
      rewrite trace_emitted, prompts_emitted, history_emitted, phase_emitted,
        running_emitted.
      cbn [map]. rewrite <- app_assoc. repeat split.
    + cbn [ret]. apply IH.
Qed.

Lemma keyPoints_short response :
  List.length (LegacyOrchestrator.keyPoints response) <= 3.
Proof. unfold LegacyOrchestrator.keyPoints. rewrite length_firstn. lia. Qed.

Lemma run_parseAndLogResponse agentName response w :
  exists w' evs,
    LegacyOrchestrator.parseAndLogResponse E agentName response w =
      (Done tt, w') /\
    trace w' = trace w ++ evs /\
    List.length evs <= 4 /\
    forallb isLog evs = true /\
    prompts w' = prompts w /\
    conversationHistory w' = conversationHistory w /\
    currentPhase w' = currentPhase w /\
    isRunning w' = isRunning w.
Proof.
  unfold LegacyOrchestrator.parseAndLogResponse. rewrite run_bind.
  destruct (run_logEach (fun point => Js.truthy (Js.trim point))
              (fun point => createLog agentName (Js.trim point) info None)
              (LegacyOrchestrator.keyPoints response) 0 w)
    as (w1 & -> & Ht & Hp & Hh & Hc & Hr).
  set (points := map _ (filter _ (LegacyOrchestrator.keyPoints response))) in Ht.
  assert (Hlen : List.length points <= 3).
  { unfold points. rewrite length_map.
    etransitivity; [apply filter_length_le | apply keyPoints_short]. }
  assert (Hlog : forallb isLog points = true).
  { unfold points. apply forallb_forall. intros e He.
    apply in_map_iff in He as (x & <- & _). reflexivity. }
  destruct (LegacyOrchestrator.codeMatch response) as [matched|].
  - rewrite run_emitted. eexists. eexists. split; [reflexivity|].
    rewrite trace_emitted, prompts_emitted, history_emitted, phase_emitted,
      running_emitted, Ht, Hp, Hh, Hc, Hr, <- app_assoc.
    split; [reflexivity|]. rewrite length_app, forallb_app, Hlog.
    cbn [List.length forallb isLog andb]. repeat split. lia.
  - exists w1, points. cbn [ret]. rewrite Ht, Hp, Hh, Hc, Hr.
    repeat split; [lia | exact Hlog].
Qed.

(** A phase whose request is answered. *)
Lemma run_executePhase_answered p u w text :
  GeminiService.result
    (GeminiService.sendPrompt (apiKey E) (network E (prompts w))) =
    GeminiService.Resolved text ->
  exists w',
    LegacyOrchestrator.executePhase E p u w = (Done tt, w') /\
    prompts w' = S (prompts w) /\
    conversationHistory w' =
      conversationHistory w ++
      [(user, LegacyOrchestrator.buildAgentPrompt p u); (model, text)] /\
    currentPhase w' = currentPhase w /\
    isRunning w' = isRunning w.
Proof.
  intros Hreply. unfold LegacyOrchestrator.executePhase. cbv zeta.
  rewrite run_bind, run_log. unfold tryCatch.
  set (w1 := logged E _ _ info w).
  assert (Hp1 : prompts w1 = prompts w) by (unfold w1; apply prompts_logged).
  assert (Hh1 : conversationHistory w1 = conversationHistory w)
    by (unfold w1; apply history_logged).
  assert (Hc1 : currentPhase w1 = currentPhase w)
    by (unfold w1; apply phase_logged).
  assert (Hr1 : isRunning w1 = isRunning w)
    by (unfold w1, logged; apply running_emitted).
  clearbody w1.
  rewrite run_bind. cbn [gets]. rewrite run_bind. unfold awaitSendPrompt.
  rewrite run_bind. cbn [gets]. rewrite run_bind. cbn [modify].
  rewrite run_bind, run_tick, Hp1, Hreply. cbn [ret].
  rewrite run_bind. cbn [addToHistory modify].
  set (w3 := set_conversationHistory _ (ticked E (set_prompts (S (prompts w)) w1))).
  rewrite run_bind.
  destruct (run_parseAndLogResponse (LegacyOrchestrator.getAgentForPhase p)
              text w3) as (w4 & evs & -> & _ & _ & _ & Hp4 & Hh4 & Hc4 & Hr4).
  rewrite run_log. eexists. split; [reflexivity|].
  rewrite prompts_logged, history_logged, phase_logged.
  unfold logged at 1. rewrite running_emitted.
  rewrite Hp4, Hh4, Hc4, Hr4. unfold w3.
  cbn [prompts conversationHistory currentPhase isRunning
       set_conversationHistory].
  rewrite prompts_ticked, history_ticked, running_ticked.
  destruct (ticked_more E (set_prompts (S (prompts w)) w1)) as (_ & -> & _).
  cbn [prompts conversationHistory currentPhase isRunning set_prompts].
  rewrite Hh1, Hc1, Hr1. repeat split.
Qed.

Lemma run_runPhases u : forall ps texts w,
  isRunning w = true ->
  List.length texts = List.length ps ->
  (forall k text,
      nth_error texts k = Some text ->
      GeminiService.result
        (GeminiService.sendPrompt (apiKey E) (network E (prompts w + k))) =
        GeminiService.Resolved text) ->
  exists w',
    LegacyOrchestrator.runPhases E ps u w = (Done tt, w') /\
    prompts w' = prompts w + List.length ps /\
    conversationHistory w' =
      conversationHistory w ++
      exchanges
        (combine (map (fun p => LegacyOrchestrator.buildAgentPrompt p u) ps)
           texts) /\
    currentPhase w' = last ps (currentPhase w) /\
    isRunning w' = true.
Proof.
  induction ps as [|p ps IH]; intros texts w Hw Hlen Hreplies.
  - exists w. cbn. rewrite app_nil_r, Nat.add_0_r. repeat split. exact Hw.
  - destruct texts as [|text texts]; [discriminate|].
    cbn [LegacyOrchestrator.runPhases]. rewrite run_bind. cbn [gets].
    rewrite Hw. cbn [negb]. rewrite run_bind. cbn [modify].
    rewrite run_bind, run_emitted, run_bind.
    set (w1 := emitted E (onPhaseChange p) (set_currentPhase p w)).
    assert (Hp1 : prompts w1 = prompts w)
      by (unfold w1; now rewrite prompts_emitted).
    assert (Hh1 : conversationHistory w1 = conversationHistory w)
      by (unfold w1; now rewrite history_emitted).
    assert (Hc1 : currentPhase w1 = p)
      by (unfold w1; now rewrite phase_emitted).
    assert (Hr1 : isRunning w1 = true)
      by (unfold w1; rewrite running_emitted; exact Hw).
    clearbody w1.
    destruct (run_executePhase_answered p u w1 text)
      as (w2 & -> & Hp2 & Hh2 & Hc2 & Hr2).
    { rewrite Hp1. specialize (Hreplies 0 text eq_refl).
      now rewrite Nat.add_0_r in Hreplies. }
    destruct (IH texts w2) as (w' & -> & Hp & Hh & Hc & Hr).
    + now rewrite Hr2.
    + cbn in Hlen. lia.
    + intros k t Hk. rewrite Hp2, Hp1.
      replace (S (prompts w) + k) with (prompts w + S k) by lia.
      now apply Hreplies.
    + exists w'. split; [reflexivity|].
      rewrite Hp, Hh, Hc, Hr, Hp2, Hh2, Hc2, Hp1, Hh1, Hc1.
      cbn [List.length map combine exchanges flat_map fst snd app].
      rewrite <- app_assoc. cbn [app].
      rewrite last_cons. repeat split. lia.
Qed.

End Legacy.

(** X29.  The workflow without the loop asks the service once for each of
    its five phases, READY included, which the agent SYSTEM gets with the
    default prompt.  When the orchestrator runs, is never stopped and the
    five requests are answered, [runAIWorkflow] sends exactly five prompts
    and adds the five exchanges to the history, in the order of the phases,
    each with the prompt built for its phase; it ends in the phase READY,
    still running. *)
Theorem legacy_workflow_asks_for_every_phase {J} (E : Env J) (u : string)
  (w : World) (texts : list string) :
  (forall t, stopAt E t = false) ->
  isRunning w = true ->
  List.length texts = 5 ->
  (forall k text,
      nth_error texts k = Some text ->
      GeminiService.result
        (GeminiService.sendPrompt (apiKey E) (network E (prompts w + k))) =
        GeminiService.Resolved text) ->
  exists w',
    LegacyOrchestrator.runAIWorkflow E u w = (Done tt, w') /\
    prompts w' = prompts w + 5 /\
    conversationHistory w' =
      conversationHistory w ++
      exchanges
        (combine
           (map (fun p => LegacyOrchestrator.buildAgentPrompt p u)
              LegacyOrchestrator.phases)
           texts) /\
    LegacyOrchestrator.buildAgentPrompt READY u =
      ("[SYSTEM] Complete the READY phase for: " ++ Js.dq ++ u ++ Js.dq)%string /\
    currentPhase w' = READY /\
    isRunning w' = true.
Proof.
  intros Hnever Hw Hlen Hreplies.
  unfold LegacyOrchestrator.runAIWorkflow. rewrite run_bind, run_log.
  set (w0 := logged E "SYSTEM" "Initializing AI-powered agent workflow..."
               system w).
  assert (Hp0 : prompts w0 = prompts w) by (unfold w0; apply prompts_logged).
  assert (Hh0 : conversationHistory w0 = conversationHistory w)
    by (unfold w0; apply history_logged).
  assert (Hr0 : isRunning w0 = true).
  { unfold w0, logged. now rewrite (running_emitted E Hnever). }
  destruct (run_runPhases E Hnever u LegacyOrchestrator.phases texts w0 Hr0 Hlen)
    as (w' & -> & Hp & Hh & Hc & Hr).
  { intros k text Hk. rewrite Hp0. now apply Hreplies. }
  exists w'. split; [reflexivity|].
  rewrite Hp, Hh, Hp0, Hh0. repeat split; assumption.
Qed.

(** X30.  A phase whose request fails: [executePhase] logs the start of the
    phase and then the error, with the message of the service, and throws
    that error again; the history is left as it was, and one prompt was
    sent. *)
Theorem legacy_phase_failure_is_logged_and_thrown {J} (E : Env J)
  (p : AgentPhase) (u : string) (w : World) (m : string) :
  GeminiService.result
    (GeminiService.sendPrompt (apiKey E) (network E (prompts w))) =
    GeminiService.Rejected m ->
  exists w',
    LegacyOrchestrator.executePhase E p u w = (Thrown m, w') /\
    trace w' =
      trace w ++
      [onLog (createLog (LegacyOrchestrator.getAgentForPhase p)
                ("Starting " ++ LegacyOrchestrator.phaseWord p ++ " phase...")
                info None);
       onLog (createLog (LegacyOrchestrator.getAgentForPhase p)
                ("Error in " ++ LegacyOrchestrator.phaseWord p ++ ": " ++ m)
                error None)] /\
    conversationHistory w' = conversationHistory w /\
    prompts w' = S (prompts w).
Proof.
  intros Hreply. unfold LegacyOrchestrator.executePhase. cbv zeta.
  rewrite run_bind, run_log. unfold tryCatch.
  rewrite run_bind. cbn [gets]. rewrite run_bind. unfold awaitSendPrompt.
  rewrite run_bind. cbn [gets]. rewrite run_bind. cbn [modify].
  rewrite run_bind, run_tick, prompts_logged, Hreply. cbn [throw].
  rewrite run_bind, run_log. cbn [throw].
  eexists. split; [reflexivity|].
  rewrite trace_logged, history_logged, prompts_logged.
  rewrite trace_ticked, history_ticked, prompts_ticked.
  cbn [trace conversationHistory prompts set_prompts].
  rewrite trace_logged, history_logged, <- app_assoc.
  repeat split.
Qed.

End LegacyFacts.

(* ================================================================= *)
(** ** The further scenarios, run *)

Module CaseRuns.
Import Types SimulationService Orchestrator Spec Scenario Behaviour Cases
  DiagnosticFacts ClientFacts FootprintFacts WorkflowFacts FileFacts
  BudgetFacts LegacyFacts.

Lemma diagnostics_point_into_files_witness :
  exists f c i l,
    In f (file_system scenarioA) /\
    f_type f = file /\ content f = Some c /\ c <> EmptyString /\
    CompilationService.isCodePath (path f) = true /\
    e_file (todoDiagnostic "src/app/page.tsx" 0 "// TODO: implement") = path f /\
    nth_error (Js.lines c) i = Some l /\
    e_line (todoDiagnostic "src/app/page.tsx" 0 "// TODO: implement") =
      (Z.of_nat i + 1)%Z /\
    (0 <= e_column (todoDiagnostic "src/app/page.tsx" 0 "// TODO: implement")
     <= Z.of_nat (String.length l))%Z /\
    e_message (todoDiagnostic "src/app/page.tsx" 0 "// TODO: implement")
      <> EmptyString.
Proof.
  apply (diagnostics_point_into_files scenarioA
           (todoDiagnostic "src/app/page.tsx" 0 "// TODO: implement")).
  vm_compute. left. reflexivity.
Defined.

Lemma lazy_pattern_fails_witness :
  r_success (CompilationService.validateCode (projectWith [loremFile])) = false /\
  exit_code (CompilationService.validateCode (projectWith [loremFile])) = 1%Z /\
  exists ds i l,
    errors (CompilationService.validateCode (projectWith [loremFile])) = Some ds /\
    nth_error (Js.lines "const title = 'Lorem ipsum';") i = Some l /\
    Js.includes l "Lorem ipsum" = true /\
    In (mkDiag (path loremFile) (Z.of_nat i + 1) (Js.indexOf l "Lorem ipsum")
          (CompilationService.placeholderMessage "Lorem ipsum") ErrSyntax) ds.
Proof.
  apply (lazy_pattern_fails (projectWith [loremFile]) loremFile
           "const title = 'Lorem ipsum';" "Lorem ipsum").
  - left. reflexivity.
  - reflexivity.
  - vm_compute. tauto.
  - reflexivity.
Defined.

Lemma closing_brace_line_fails_witness :
  r_success (CompilationService.validateCode (projectWith [bracesFile])) = false /\
  exit_code (CompilationService.validateCode (projectWith [bracesFile])) = 1%Z /\
  exists ds,
    errors (CompilationService.validateCode (projectWith [bracesFile])) = Some ds /\
    In (mkDiag (path bracesFile) (Z.of_nat 2 + 1) (Js.lastIndexOf "}" "}")
          "Unexpected token '}'" ErrSyntax) ds.
Proof.
  apply (closing_brace_line_fails (projectWith [bracesFile]) bracesFile
           bracesText 2 "}").
  - left. reflexivity.
  - reflexivity.
  - reflexivity.
  - cbn. lia.
Defined.

Lemma fatal_pattern_in_any_case_witness :
  CompilationService.isRecoverableError outOfMemory = false.
Proof.
  apply (fatal_pattern_in_any_case outOfMemory "Error: " "EnoMem"
           " while bundling" "ENOMEM").
  - reflexivity.
  - vm_compute. tauto.
  - reflexivity.
  - reflexivity.
Defined.

Lemma retryWithBackoff_bounds_witness :
  let r := GeminiService.retryWithBackoff GeminiService.retryConfig alwaysThrows in
  1 <= GeminiService.calls r <= 4 /\
  S (List.length (GeminiService.waits r)) = GeminiService.calls r /\
  Forall (fun d => (1000 <= d <= 10000)%Z) (GeminiService.waits r) /\
  (forall i j d e, i <= j -> nth_error (GeminiService.waits r) i = Some d ->
                   nth_error (GeminiService.waits r) j = Some e -> (d <= e)%Z) /\
  (forall k, S k < GeminiService.calls r -> retried alwaysThrows k).
Proof.
  apply (retryWithBackoff_bounds GeminiService.retryConfig alwaysThrows).
  cbn. lia.
Defined.

Lemma forbidden_and_bad_key_not_retried_witness :
  GeminiService.sendPrompt (Some "key") forbidden =
    GeminiService.mkRun
      (GeminiService.Rejected
         "API access forbidden. Please check your API key permissions.")
      [] 1 /\
  GeminiService.sendPrompt (Some "key") badRequest =
    GeminiService.mkRun
      (GeminiService.Rejected
         "Invalid request: API key not valid. Please pass a valid API key.")
      [] 1.
Proof.
  destruct (forbidden_and_bad_key_not_retried "key" keyBody) as [H403 H400].
  - discriminate.
  - split.
    + apply (H403 forbidden). reflexivity.
    + apply (H400 badRequest
               "API key not valid. Please pass a valid API key.");
        reflexivity.
Defined.

Lemma extractPhase_reads_tag_witness :
  GeminiService.extractPhase
    ("Sure. " ++ "[Phase:" ++ " " ++ "planning" ++ "]" ++ " Here is the plan.")
  = Some PLANNING.
Proof.
  apply (extractPhase_reads_tag PLANNING "Sure. " "[Phase:" " " "planning"
           " Here is the plan."); reflexivity.
Defined.

Lemma stopped_stays_stopped_witness :
  isRunning (snd (runAIWorkflow stuckEnv "build it" newOrchestrator)) = false.
Proof.
  apply (stopped_stays_stopped stuckEnv (runAIWorkflow stuckEnv "build it")
           newOrchestrator).
  - constructor.
  - reflexivity.
Defined.

Lemma history_grows_by_exchanges_witness :
  prompts newOrchestrator <=
    prompts (snd (executePlanningPhase stuckEnv
                    (started "build it" newOrchestrator))) /\
  exists l,
    conversationHistory
      (snd (executePlanningPhase stuckEnv (started "build it" newOrchestrator))) =
    conversationHistory (started "build it" newOrchestrator) ++ exchanges l.
Proof.
  apply (history_grows_by_exchanges stuckEnv (executePlanningPhase stuckEnv)
           (started "build it" newOrchestrator)).
  constructor.
Defined.

Lemma project_fields_kept_witness :
  sameProject (projectState (started "build it" newOrchestrator))
    (projectState
       (snd (runAIWorkflow stuckEnv "build it"
               (started "build it" newOrchestrator)))).
Proof.
  apply (project_fields_kept stuckEnv (runAIWorkflow stuckEnv "build it")
           (started "build it" newOrchestrator)).
  constructor.
Defined.

(** The healing loop of the stuck run patches the file of the project. *)
Lemma file_tree_layout_kept_witness :
  map content (file_system (projectState generated)) =
    [Some ("// TODO: x" ++ Js.nl ++ "// Add more")%string] /\
  map content
    (file_system
       (projectState (snd (executeCompilationAndHealing stuckEnv generated)))) =
    [Some ("// TODO: x" ++ Js.nl)%string] /\
  sameLayout (file_system (projectState generated))
    (file_system
       (projectState (snd (executeCompilationAndHealing stuckEnv generated)))).
Proof.
  split; [vm_compute; reflexivity|]. split; [vm_compute; reflexivity|].
  apply (file_tree_layout_kept stuckEnv (executeCompilationAndHealing stuckEnv)
           generated).
  constructor.
Defined.

Lemma generation_never_heals_witness :
  iteration_count
    (projectState
       (snd (executeCodingPhase stuckEnv (started "build it" newOrchestrator)))) =
    iteration_count (projectState (started "build it" newOrchestrator)) /\
  terminal_logs
    (projectState
       (snd (executeCodingPhase stuckEnv (started "build it" newOrchestrator)))) =
    terminal_logs (projectState (started "build it" newOrchestrator)).
Proof.
  apply (generation_never_heals stuckEnv (executeCodingPhase stuckEnv)
           (started "build it" newOrchestrator)).
  constructor.
Defined.

Lemma hybrid_chooses_once_witness :
  (forall w,
      workflow refusedEnv "build it" w =
        if GeminiService.isAvailable (apiKey refusedEnv)
        then runAIWorkflow refusedEnv "build it" w
        else runSimulation refusedEnv w) /\
  (forall w e w1,
      isRunning w = false ->
      GeminiService.isAvailable (apiKey refusedEnv) = true ->
      runAIWorkflow refusedEnv "build it" (started "build it" w) = (Thrown e, w1) ->
      start refusedEnv "build it" w =
        (Done tt, set_isRunning false (emitted refusedEnv (onError e) w1))).
Proof.
  apply (hybrid_chooses_once refusedEnv "build it"). reflexivity.
Defined.

Lemma stop_at_first_callback_still_completes_witness :
  exists w',
    start stoppedEnv "build it" newOrchestrator = (Done tt, w') /\
    trace w' = trace newOrchestrator ++ stoppedTrace "build it" /\
    prompts w' = prompts newOrchestrator /\
    conversationHistory w' = conversationHistory newOrchestrator /\
    projectState w' =
      set_status READY (set_user_prompt "build it" (projectState newOrchestrator)) /\
    currentPhase w' = READY /\
    isRunning w' = false.
Proof.
  apply (stop_at_first_callback_still_completes stoppedEnv "build it"
           newOrchestrator).
  - discriminate.
  - reflexivity.
  - reflexivity.
  - reflexivity.
Defined.

Lemma clean_build_needs_no_patch_witness :
  exists w',
    executeCompilationAndHealing stuckEnv cleanWorld = (Done tt, w') /\
    trace w' =
      trace cleanWorld ++
      [onLog (createLog "SYSTEM" "🔨 Starting compilation validation..."
                system None);
       onLog (createLog "SYSTEM" "✅ Compilation successful!" success None);
       onLog (createLog "SYSTEM" CompilationService.successStdout info None)] /\
    projectState w' =
      set_terminal_logs
        (terminal_logs (projectState cleanWorld) ++
         [terminalLog (CompilationService.validateCode (projectState cleanWorld))
            (clock stuckEnv (clockReads cleanWorld))])
        (projectState cleanWorld) /\
    prompts w' = prompts cleanWorld /\
    conversationHistory w' = conversationHistory cleanWorld.
Proof.
  apply (clean_build_needs_no_patch stuckEnv cleanWorld).
  - reflexivity.
  - reflexivity.
Defined.

Lemma fix_without_target_does_nothing_witness :
  applyFix stuckEnv 0 strayFix labelsWorld = (Done tt, labelsWorld).
Proof.
  apply (fix_without_target_does_nothing stuckEnv 0 strayFix labelsWorld).
  left. reflexivity.
Defined.

Lemma plain_fix_replaces_first_occurrence_witness :
  let fs := file_system (projectState labelsWorld) in
  let fs' := file_system
               (projectState (snd (applyFix stuckEnv 0 plainFix labelsWorld))) in
  findFile "src/labels.ts" fs' =
    Some (mkFile "src/labels.ts" (Some "tag(0); label(0);") file
            (Some (clock stuckEnv (clockReads labelsWorld)))) /\
  (forall q, q <> "src/labels.ts" -> findFile q fs' = findFile q fs) /\
  layout fs' = layout fs.
Proof.
  apply (plain_fix_replaces_first_occurrence stuckEnv 0 plainFix labelsWorld
           labels "" "; label(0);"); reflexivity.
Defined.

Lemma fenced_block_is_read_witness :
  let text := ("Here is the plan." ++ Js.nl ++ AgentPrompts.fenceOpen ++ Js.nl ++
               fencedBody ++ Js.nl ++ AgentPrompts.fenceClose ++ " Done.")%string in
  AgentPrompts.jsonMatch text = Some fencedBody /\
  forall v, Json.parse fencedBody = Some v ->
            AgentPrompts.parseAgentResponse Json.parse text PLANNING =
              AgentPrompts.Structured v.
Proof.
  apply (fenced_block_is_read Json.parse ("Here is the plan." ++ Js.nl) Js.nl
           fencedBody Js.nl " Done." PLANNING).
  - reflexivity.
  - reflexivity.
  - reflexivity.
  - discriminate.
  - reflexivity.
  - reflexivity.
Defined.

Lemma help_request_ends_the_phase_witness :
  exists w',
    executePatchingPhase helpEnv helpWorld = (Done tt, w') /\
    trace w' = trace helpWorld ++ helpTrace (parsed helpEnv helpReply PATCHING) /\
    existsb isStateUpdate (helpTrace (parsed helpEnv helpReply PATCHING)) = false /\
    conversationHistory w' = conversationHistory helpWorld /\
    file_system (projectState w') = file_system (projectState helpWorld) /\
    iteration_count (projectState w') = max_iterations (projectState helpWorld) /\
    prompts w' = S (prompts helpWorld).
Proof.
  apply (help_request_ends_the_phase helpEnv helpWorld helpReply).
  - reflexivity.
  - vm_compute. reflexivity.
  - vm_compute. reflexivity.
Defined.

Lemma legacy_workflow_asks_for_every_phase_witness :
  exists w',
    LegacyOrchestrator.runAIWorkflow (envOf fiveReplies) "build it" runningWorld =
      (Done tt, w') /\
    prompts w' = prompts runningWorld + 5 /\
    conversationHistory w' =
      conversationHistory runningWorld ++
      exchanges
        (combine
           (map (fun p => LegacyOrchestrator.buildAgentPrompt p "build it")
              LegacyOrchestrator.phases)
           fiveReplies) /\
    LegacyOrchestrator.buildAgentPrompt READY "build it" =
      ("[SYSTEM] Complete the READY phase for: " ++ Js.dq ++ "build it" ++ Js.dq)%string /\
    currentPhase w' = READY /\
    isRunning w' = true.
Proof.
  apply (legacy_workflow_asks_for_every_phase (envOf fiveReplies) "build it"
           runningWorld fiveReplies).
  - intros t. reflexivity.
  - reflexivity.
  - reflexivity.
  - intros k text Hk.
    destruct k as [|[|[|[|[|k]]]]]; cbn in Hk;
      try (injection Hk as <-; reflexivity).
    destruct k; discriminate.
Defined.

Lemma legacy_phase_failure_is_logged_and_thrown_witness :
  exists w',
    LegacyOrchestrator.executePhase refusedEnv PLANNING "build it" runningWorld =
      (Thrown "Invalid API key. Please check your VITE_GEMINI_API_KEY in .env file.",
       w') /\
    trace w' =
      trace runningWorld ++
      [onLog (createLog (LegacyOrchestrator.getAgentForPhase PLANNING)
                ("Starting " ++ LegacyOrchestrator.phaseWord PLANNING ++
                 " phase...") info None);
       onLog (createLog (LegacyOrchestrator.getAgentForPhase PLANNING)
                ("Error in " ++ LegacyOrchestrator.phaseWord PLANNING ++ ": " ++
                 "Invalid API key. Please check your VITE_GEMINI_API_KEY in .env file.")
                error None)] /\
    conversationHistory w' = conversationHistory runningWorld /\
    prompts w' = S (prompts runningWorld).
Proof.
  apply (legacy_phase_failure_is_logged_and_thrown refusedEnv PLANNING
           "build it" runningWorld
           "Invalid API key. Please check your VITE_GEMINI_API_KEY in .env file.").
  reflexivity.
Defined.

End CaseRuns.
